(** * Collaborative canvas: the server-side room engine

    A shallow embedding of the room manager ([createRoomManager],
    [createRoom] and the methods of a room object) and of the protocol
    handler ([handleMessage]) of the collaborative drawing server.

    The server is JavaScript.  Three things of the language matter for
    what is proved here and are modelled explicitly:

    - values are dynamically typed: a payload is any JSON value, a property
      that is absent reads as [undefined], [a || b] tests truthiness, and a
      property read on [undefined] or [null] throws a [TypeError];
    - objects and arrays are shared by reference: an operation object that
      sits in [opLog] is the same object as the one that was parsed from the
      wire, and the array returned by [getState] holds the same objects as
      [opLog];
    - [uuidv4()] and [Date.now()] are oracles: each handler is given the
      value that a call would return. *)

From stdpp Require Import gmap strings list fin_maps sorting.
From Stdlib Require Import ZArith Lia.

Local Open Scope Z_scope.

(** ** JSON values *)

(** What [JSON.parse] produces and [JSON.stringify] consumes.  Numbers are
    restricted to integers: the only numbers the server inspects are
    timestamps ([Date.now()] is an integral number of milliseconds), and of
    any other number only its truthiness. *)
#[warnings="-register-all"]
Inductive json :=
  | JNull
  | JBool (b : bool)
  | JNum (n : Z)
  | JStr (s : string)
  | JArr (xs : list json)
  | JObj (kvs : gmap string json).

(** The result of reading a property or a variable is an [option json]:
    [None] is [undefined]. *)
Definition truthy (v : option json) : bool :=
  match v with
  | None => false
  | Some JNull => false
  | Some (JBool b) => b
  | Some (JNum n) => negb (n =? 0)
  | Some (JStr s) => negb (String.eqb s EmptyString)
  | Some (JArr _) => true
  | Some (JObj _) => true
  end.

(** [a || d] where [d] is never [undefined]. *)
Definition or_default (a : option json) (d : json) : json :=
  match a with
  | Some j => if truthy a then j else d
  | None => d
  end.

(** [JSON.stringify] of an object literal [{k1: e1, ...}]: a property whose
    value is [undefined] is left out. *)
Definition obj (fields : list (string * option json)) : json :=
  JObj (list_to_map (omap (λ kv, pair kv.1 <$> kv.2) fields)).

(** [j.k] for a parsed JSON value [j] that is only read, never written
    (the message payload).  [None] is a [TypeError]: the base is
    [undefined] or [null].  A primitive or an array has none of the
    properties the server asks for. *)
Definition json_prop (j : option json) (k : string) : option (option json) :=
  match j with
  | None => None
  | Some JNull => None
  | Some (JObj kvs) => Some (kvs !! k)
  | Some _ => Some None
  end.

(** ** The heap *)

Definition loc := nat.

(** A runtime value that the server holds in a variable or in an array:
    a primitive, or a reference to a heap object. *)
Inductive value :=
  | VUndefined
  | VNull
  | VBool (b : bool)
  | VNum (n : Z)
  | VStr (s : string)
  | VRef (l : loc).

(** A heap object made by [JSON.parse]: its own properties, and its
    elements when it is an array.  Property values are immutable JSON
    trees: the server only ever writes top-level properties of an
    operation object. *)
Record cell := Cell {
  props : gmap string json;
  items : option (list json)
}.

(** The heap has the objects parsed from the wire ([objs]) and the arrays
    the server itself creates ([arrs]: the [opLog] and [undoneStack] of each
    room and the arrays returned by [getState]). *)
Record store := Store {
  objs : gmap loc cell;
  arrs : gmap loc (list value)
}.

Definition empty_store : store := Store ∅ ∅.

Definition get_cell (h : store) (l : loc) : cell :=
  default (Cell ∅ None) (objs h !! l).

Definition arr (h : store) (l : loc) : list value :=
  default [] (arrs h !! l).

Definition set_arr (l : loc) (xs : list value) (h : store) : store :=
  Store (objs h) (<[l := xs]> (arrs h)).

(** [[...]]: a new array. *)
Definition alloc_arr (xs : list value) (h : store) : loc * store :=
  let l := fresh (dom (arrs h)) in (l, set_arr l xs h).

(** [JSON.parse] of a sub-tree that the server goes on to use as a value:
    an object or array becomes a new heap object. *)
Definition reify (j : option json) (h : store) : value * store :=
  match j with
  | None => (VUndefined, h)
  | Some JNull => (VNull, h)
  | Some (JBool b) => (VBool b, h)
  | Some (JNum n) => (VNum n, h)
  | Some (JStr s) => (VStr s, h)
  | Some (JArr xs) =>
      let l := fresh (dom (objs h)) in
      (VRef l, Store (<[l := Cell ∅ (Some xs)]> (objs h)) (arrs h))
  | Some (JObj kvs) =>
      let l := fresh (dom (objs h)) in
      (VRef l, Store (<[l := Cell kvs None]> (objs h)) (arrs h))
  end.

(** [v.k].  [None] is a [TypeError]. *)
Definition get_prop (h : store) (v : value) (k : string) : option (option json) :=
  match v with
  | VUndefined | VNull => None
  | VRef l => Some (props (get_cell h l) !! k)
  | VBool _ | VNum _ | VStr _ => Some None
  end.

(** [v.k = x].  The module is not in strict mode: on a primitive the
    assignment is silently dropped.  [None] is a [TypeError]. *)
Definition set_prop (v : value) (k : string) (x : json) (h : store) : option store :=
  match v with
  | VUndefined | VNull => None
  | VRef l =>
      let c := get_cell h l in
      Some (Store (<[l := Cell (<[k := x]> (props c)) (items c)]> (objs h)) (arrs h))
  | VBool _ | VNum _ | VStr _ => Some h
  end.

(** [JSON.stringify] of a runtime value; [None] is [undefined]. *)
Definition stringify (h : store) (v : value) : option json :=
  match v with
  | VUndefined => None
  | VNull => Some JNull
  | VBool b => Some (JBool b)
  | VNum n => Some (JNum n)
  | VStr s => Some (JStr s)
  | VRef l =>
      let c := get_cell h l in
      Some (match items c with Some xs => JArr xs | None => JObj (props c) end)
  end.

(** [JSON.stringify] of an array of runtime values: [undefined] prints as
    [null]. *)
Definition stringify_array (h : store) (xs : list value) : json :=
  JArr (map (λ v, default JNull (stringify h v)) xs).

(** ** Sockets *)

Definition ws := nat.

(** The fields the server reads and writes on a [ws] connection object.
    [sent] records the arguments of the calls of [send], oldest first. *)
Record socket := Socket {
  userId : string;
  username : json;
  color : json;
  readyState : nat;
  sent : list json
}.

(** [WebSocket.OPEN]. *)
Definition OPEN : nat := 1%nat.

(** ** Rooms *)

Record room := Room {
  room_id : string;
  clients : list ws;
  opLog : loc;
  undoneStack : loc
}.

(** [createRoom(id)]: no clients and two new, empty arrays. *)
Definition createRoom (i : string) (h : store) : room * store :=
  let '(lg, h1) := alloc_arr [] h in
  let '(st, h2) := alloc_arr [] h1 in
  (Room i [] lg st, h2).

(** [getState()]: [this.opLog.slice()], a new array with the elements of
    [opLog]. *)
Definition getState (r : room) (h : store) : loc * store :=
  alloc_arr (arr h (opLog r)) h.

(** [applyPartialStroke(part, client)]: the body is empty. *)
Definition applyPartialStroke (part : option json) (client : ws)
    (r : room) (h : store) : room * store := (r, h).

(** [pushOp(op, client)].  [uuid] and [now] are what [uuidv4()] and
    [Date.now()] return when they are called ([||] calls them only when its
    left operand is falsy).  [None] is the [TypeError] of the first
    statement, before anything is written. *)
Definition pushOp (uuid : string) (now : Z) (op : value) (r : room) (h : store)
    : option (room * store) :=
  opId ← get_prop h op "opId";
  h1 ← set_prop op "opId" (or_default opId (JStr uuid)) h;
  ts ← get_prop h1 op "ts";
  h2 ← set_prop op "ts" (or_default ts (JNum now)) h1;
  ty ← get_prop h2 op "type";
  h3 ← (if truthy ty then Some h2 else set_prop op "type" (JStr "stroke") h2);
  let h4 := set_arr (opLog r) (arr h3 (opLog r) ++ [op]) h3 in
  let '(st, h5) := alloc_arr [] h4 in
  Some (Room (room_id r) (clients r) (opLog r) st, h5).

(** How a method call ends: with a value, or with a thrown [TypeError]. *)
Inductive completion (A : Type) :=
  | Return (a : A)
  | Throw.
Arguments Return {A} a.
Arguments Throw {A}.

(** The object [{ targetOpId: last.opId, ts: Date.now() }]. *)
Record undo_info := UndoInfo {
  targetOpId : option json;
  undo_ts : Z
}.

(** The object [{ stroke: op, ts: Date.now() }]. *)
Record redo_info := RedoInfo {
  stroke : value;
  redo_ts : Z
}.

(** [undoLast()].  The result [Return None] is [null].  [last.opId] is read
    after the pop and the push, so a [TypeError] there leaves both arrays
    changed. *)
Definition undoLast (now : Z) (r : room) (h : store)
    : completion (option undo_info) * store :=
  match reverse (arr h (opLog r)) with
  | [] => (Return None, h)
  | last :: rest =>
      let h1 := set_arr (opLog r) (reverse rest) h in
      let h2 := set_arr (undoneStack r) (arr h1 (undoneStack r) ++ [last]) h1 in
      match get_prop h2 last "opId" with
      | None => (Throw, h2)
      | Some i => (Return (Some (UndoInfo i now)), h2)
      end
  end.

(** [redoLast()]. *)
Definition redoLast (now : Z) (r : room) (h : store)
    : option redo_info * store :=
  match reverse (arr h (undoneStack r)) with
  | [] => (None, h)
  | op :: rest =>
      let h1 := set_arr (undoneStack r) (reverse rest) h in
      let h2 := set_arr (opLog r) (arr h1 (opLog r) ++ [op]) h1 in
      (Some (RedoInfo op now), h2)
  end.

(** ** The room manager and the protocol handler *)

(** The state of the server process: the [rooms] map of the room manager
    (a room object is identified with its entry), the connection objects,
    and the heap. *)
Record world := World {
  rooms : gmap string room;
  socks : gmap ws socket;
  heap : store
}.

Definition empty_world : world := World ∅ ∅ empty_store.

(** [c.send(text)]. *)
Definition push_sent (text : json) (s : socket) : socket :=
  Socket (userId s) (username s) (color s) (readyState s) (sent s ++ [text]).

Definition send (c : ws) (text : json) (ss : gmap ws socket) : gmap ws socket :=
  alter (push_sent text) c ss.

(** The [ws] library changes the [readyState] of a connection object on
    its own: to [CLOSING] (2) when a close handshake starts, to [CLOSED] (3)
    when the socket is gone.  The ['close'] listener runs only after that. *)
Definition set_readyState (c : ws) (state : nat) (ss : gmap ws socket)
    : gmap ws socket :=
  alter (λ s, Socket (userId s) (username s) (color s) state (sent s)) c ss.

(** The body of the loop of [broadcast]: skip [exceptWs], and send only to
    a connection whose [readyState] is [OPEN]. *)
Definition deliver (exceptWs : option ws) (text : json)
    (ss : gmap ws socket) (c : ws) : gmap ws socket :=
  if decide (exceptWs = Some c) then ss
  else match ss !! c with
       | Some s => if decide (readyState s = OPEN) then send c text ss else ss
       | None => ss
       end.

(** [broadcast(roomIdOrObj, msg, exceptWs)].  Every caller passes the room
    id, a string, which is looked up in [rooms]; [msg] is serialised on
    entry, so it is given as its JSON text; [exceptWs] is [None] for
    [null] or absent. *)
Definition broadcast (roomId : string) (msg : json) (exceptWs : option ws)
    (w : world) : world :=
  match rooms w !! roomId with
  | None => w
  | Some roomObj =>
      World (rooms w) (foldl (deliver exceptWs msg) (socks w) (clients roomObj))
            (heap w)
  end.

(** [getOrCreate(roomId)]. *)
Definition getOrCreate (roomId : string) (w : world) : room * world :=
  match rooms w !! roomId with
  | Some r => (r, w)
  | None =>
      let '(r, h) := createRoom roomId (heap w) in
      (r, World (<[roomId := r]> (rooms w)) (socks w) h)
  end.

(** [userList()]. *)
Definition userList (ss : gmap ws socket) (r : room) : json :=
  JArr (omap (λ c, (λ s, obj [("userId", Some (JStr (userId s)));
                              ("username", Some (username s));
                              ("color", Some (color s))]) <$> ss !! c)
             (clients r)).

(** [join(client)]: [clients] is a [Set], which keeps insertion order and
    ignores a second [add] of the same object. *)
Definition join (client : ws) (r : room) (ss : gmap ws socket)
    : room * gmap ws socket :=
  let r' := Room (room_id r)
                 (if decide (client ∈ clients r) then clients r
                  else clients r ++ [client])
                 (opLog r) (undoneStack r) in
  let txt := obj [("type", Some (JStr "user-list"));
                  ("payload", Some (userList ss r'))] in
  (r', foldl (deliver None txt) ss (clients r')).

(** [leave(client)]. *)
Definition leave (client : ws) (r : room) : room :=
  Room (room_id r) (filter (λ c, c ≠ client) (clients r))
       (opLog r) (undoneStack r).

(** [type === name]. *)
Definition type_is (type : option json) (name : string) : bool :=
  match type with
  | Some (JStr s) => String.eqb s name
  | _ => false
  end.

Definition envelope (type : string) (payload : option json) : json :=
  obj [("type", Some (JStr type)); ("payload", payload)].

Definition put_room (key : string) (r : room) (h : store) (w : world) : world :=
  World (<[key := r]> (rooms w)) (socks w) h.

(** [handleMessage(roomObj, client, type, payload)].  [roomObj] is the key
    of the room object in [rooms] and [client] the handle of the connection
    object; both are live objects in the source, so the two lookups at the
    top succeed in every state the server reaches.  The result tells
    whether the call returned or threw, and gives the state it left. *)
Definition handleMessage (uuid : string) (now : Z) (roomObj : string) (client : ws)
    (type payload : option json) (w : world) : completion unit * world :=
  match rooms w !! roomObj, socks w !! client with
  | Some r, Some s =>
    if type_is type "ping" then
      match json_prop payload "ts" with
      | None => (Throw, w)
      | Some ts =>
          (Return (), World (rooms w)
             (send client (envelope "pong" (Some (obj [("ts", ts)]))) (socks w))
             (heap w))
      end
    else if type_is type "meta" then
      match json_prop payload "username", json_prop payload "color" with
      | Some u, Some c =>
          let s' := Socket (userId s) (or_default u (username s))
                           (or_default c (color s)) (readyState s) (sent s) in
          let ss := <[client := s']> (socks w) in
          (Return (),
           broadcast (room_id r) (envelope "user-list" (Some (userList ss r))) None
                     (World (rooms w) ss (heap w)))
      | _, _ => (Throw, w)
      end
    else if type_is type "stroke-part" then
      let '(r1, h1) := applyPartialStroke payload client r (heap w) in
      (Return (),
       broadcast (room_id r1) (envelope "stroke-part" payload) (Some client)
                 (put_room roomObj r1 h1 w))
    else if type_is type "op" then
      match json_prop payload "op" with
      | None => (Throw, w)
      | Some j =>
          let '(op, h0) := reify j (heap w) in
          match pushOp uuid now op r h0 with
          | None => (Throw, World (rooms w) (socks w) h0)
          | Some (r1, h1) =>
              (Return (),
               broadcast (room_id r1)
                 (envelope "op" (Some (obj [("op", stringify h1 op)]))) None
                 (put_room roomObj r1 h1 w))
          end
      end
    else if type_is type "undo" then
      match undoLast now r (heap w) with
      | (Throw, h1) => (Throw, World (rooms w) (socks w) h1)
      | (Return None, h1) => (Return (), World (rooms w) (socks w) h1)
      | (Return (Some undoInfo), h1) =>
          let w1 := broadcast (room_id r)
                      (envelope "undo"
                         (Some (obj [("targetOpId", targetOpId undoInfo);
                                     ("ts", Some (JNum (undo_ts undoInfo)))])))
                      None (World (rooms w) (socks w) h1) in
          (Return (),
           broadcast (room_id r)
             (envelope "op"
                (Some (obj [("op",
                   Some (obj [("type", Some (JStr "undo"));
                              ("targetOpId", targetOpId undoInfo);
                              ("ts", Some (JNum (undo_ts undoInfo)))]))])))
             None w1)
      end
    else if type_is type "redo" then
      match redoLast now r (heap w) with
      | (None, h1) => (Return (), World (rooms w) (socks w) h1)
      | (Some redoInfo, h1) =>
          let w1 := broadcast (room_id r)
                      (envelope "redo"
                         (Some (obj [("stroke", stringify h1 (stroke redoInfo));
                                     ("ts", Some (JNum (redo_ts redoInfo)))])))
                      None (World (rooms w) (socks w) h1) in
          (Return (),
           broadcast (room_id r)
             (envelope "op"
                (Some (obj [("op",
                   Some (obj [("type", Some (JStr "redo"));
                              ("stroke", stringify h1 (stroke redoInfo));
                              ("ts", Some (JNum (redo_ts redoInfo)))]))])))
             None w1)
      end
    else if type_is type "cursor" then
      match json_prop payload "x", json_prop payload "y" with
      | Some x, Some y =>
          (Return (),
           broadcast (room_id r)
             (envelope "cursor"
                (Some (obj [("userId", Some (JStr (userId s)));
                            ("x", x); ("y", y);
                            ("color", Some (color s));
                            ("username", Some (username s))])))
             (Some client) w)
      | _, _ => (Throw, w)
      end
    else if type_is type "request-state" then
      let '(snap, h1) := getState r (heap w) in
      (Return (),
       World (rooms w)
             (send client (envelope "state" (Some (stringify_array h1 (arr h1 snap))))
                   (socks w))
             h1)
    else (Return (), w)
  | _, _ => (Return (), w)
  end.

(** The ['message'] listener of a connection: parse, destructure, dispatch,
    and catch whatever is thrown.  [msg] is the parsed text, [None] when
    [JSON.parse] throws. *)
Definition on_message (uuid : string) (now : Z) (roomObj : string) (client : ws)
    (msg : option json) (w : world) : world :=
  match msg with
  | None => w
  | Some j =>
      match json_prop (Some j) "type", json_prop (Some j) "payload" with
      | Some type, Some payload =>
          (handleMessage uuid now roomObj client type payload w).2
      | _, _ => w
      end
  end.

(** The ['close'] listener of a connection in room [room]. *)
Definition on_close (room : string) (client : ws) (w : world) : world :=
  match rooms w !! room, socks w !! client with
  | Some r, Some s =>
      let r1 := leave client r in
      let w1 := World (<[room := r1]> (rooms w)) (socks w) (heap w) in
      let w2 := broadcast room (envelope "user-list" (Some (userList (socks w1) r1)))
                          None w1 in
      broadcast room
        (envelope "user-left" (Some (obj [("userId", Some (JStr (userId s)))])))
        None w2
  | _, _ => w
  end.

(** The ['connection'] listener.  [client] is the handle of the new
    connection object and [state] its [readyState]; [uid] is the random
    user id; [uname] and [ucolor] are the query parameters, a missing or
    empty one being replaced by its default. *)
Definition on_connection (client : ws) (state : nat) (uid : string)
    (room : string) (uname ucolor : string) (w : world) : world :=
  let s := Socket uid
             (JStr (if String.eqb uname EmptyString then "Anon" else uname))
             (JStr (if String.eqb ucolor EmptyString then "#000000" else ucolor))
             state [] in
  let '(r, w1) := getOrCreate room w in
  let '(r1, ss) := join client r (<[client := s]> (socks w1)) in
  let w2 := World (<[room := r1]> (rooms w1)) ss (heap w1) in
  if decide (state = OPEN) then
    let ss1 := send client (envelope "user-list" (Some (userList ss r1))) ss in
    let '(snap, h1) := getState r1 (heap w1) in
    World (rooms w2)
          (send client (envelope "state" (Some (stringify_array h1 (arr h1 snap)))) ss1)
          h1
  else w2.

(** ** The server as a state machine *)

(** What happens to the server: a connection is accepted, a message
    arrives on a connection, a connection is closed, or the library
    changes the [readyState] of a connection. *)
Inductive event :=
  | Connection (client : ws) (state : nat) (uid room uname ucolor : string)
  | Message (uuid : string) (now : Z) (room : string) (client : ws)
            (msg : option json)
  | Close (room : string) (client : ws)
  | ReadyState (client : ws) (state : nat).

Definition step (w : world) (e : event) : world :=
  match e with
  | Connection client state uid room uname ucolor =>
      on_connection client state uid room uname ucolor w
  | Message uuid now room client msg => on_message uuid now room client msg w
  | Close room client => on_close room client w
  | ReadyState client state =>
      World (rooms w) (set_readyState client state (socks w)) (heap w)
  end.

(** The state of the server after a sequence of events. *)
Definition serve (evs : list event) : world := foldl step empty_world evs.

(** ** The room as a state machine *)

(** The effect of the three log-changing messages on one room and the
    heap, as [handleMessage] produces it: an ['op'] message whose
    [payload.op] is [op] (a commit that throws is caught by the listener
    and leaves the room as it was), ['undo'], and ['redo']. *)
Inductive action :=
  | Commit (uuid : string) (op : option json)
  | Undo
  | Redo.

Definition act (now : Z) (a : action) (st : room * store) : room * store :=
  match a with
  | Commit uuid j =>
      let '(op, h0) := reify j st.2 in
      match pushOp uuid now op st.1 h0 with
      | Some st' => st'
      | None => (st.1, h0)
      end
  | Undo => (st.1, (undoLast now st.1 st.2).2)
  | Redo => (st.1, (redoLast now st.1 st.2).2)
  end.

(** A run: each action comes with the reading of the clock at its time. *)
Definition run (evs : list (Z * action)) (st : room * store) : room * store :=
  foldl (λ st e, act e.1 e.2 st) st evs.

(** Calls of [undoLast] in a row, one for each clock reading of [nows];
    the result tells whether one of them threw. *)
Fixpoint undo_times (nows : list Z) (r : room) (h : store) : bool * store :=
  match nows with
  | [] => (false, h)
  | now :: nows' =>
      match undoLast now r h with
      | (Throw, h1) => (true, h1)
      | (Return _, h1) => undo_times nows' r h1
      end
  end.

(** A submitted operation: the clock reading and the value of [uuidv4()]
    at the time it is handled, and [payload.op]. *)
Record submission := Submission {
  at_time : Z;
  fresh_uuid : string;
  body : option json
}.

Definition commit_of (c : submission) : Z * action :=
  (at_time c, Commit (fresh_uuid c) (body c)).

(** ** Observations *)

Definition nullish (j : option json) : bool :=
  match j with
  | None | Some JNull => true
  | _ => false
  end.

Definition nullish_value (v : value) : bool :=
  match v with
  | VUndefined | VNull => true
  | _ => false
  end.

(** The actions of a run that append to the log: the commits of a value
    other than [undefined] and [null]. *)
Definition appends (e : Z * action) : bool :=
  match e.2 with
  | Commit _ j => negb (nullish j)
  | _ => false
  end.

(** [v.k] where a [TypeError] is not to be told from [undefined]. *)
Definition read (h : store) (v : value) (k : string) : option json :=
  default None (get_prop h v k).

(** The log and the stack of a room, and the [opId]s and the [ts]s of the
    log, in log order. *)
Definition log_of (r : room) (h : store) : list value := arr h (opLog r).
Definition stack_of (r : room) (h : store) : list value := arr h (undoneStack r).
Definition log_ids (r : room) (h : store) : list (option json) :=
  map (λ v, read h v "opId") (log_of r h).
Definition log_ts (r : room) (h : store) : list (option json) :=
  map (λ v, read h v "ts") (log_of r h).

(** What the requester of a snapshot receives. *)
Definition log_text (r : room) (h : store) : json :=
  stringify_array h (log_of r h).

(** The operation object once [pushOp] has run on it. *)
Definition finalize (uuid : string) (now : Z) (c : cell) : cell :=
  let p1 := <["opId" := or_default (props c !! "opId") (JStr uuid)]> (props c) in
  let p2 := <["ts" := or_default (p1 !! "ts") (JNum now)]> p1 in
  let p3 := if truthy (p2 !! "type") then p2 else <["type" := JStr "stroke"]> p2 in
  Cell p3 (items c).

(** The objects of the heap after [pushOp]: the operation object is
    finalized in place, nothing else is touched; and the arrays after the
    push onto [opLog]. *)
Definition pushed_objs (uuid : string) (now : Z) (op : value) (h : store)
    : gmap loc cell :=
  match op with
  | VRef l => <[l := finalize uuid now (get_cell h l)]> (objs h)
  | _ => objs h
  end.

Definition pushed_arrs (op : value) (r : room) (h : store) : gmap loc (list value) :=
  <[opLog r := arr h (opLog r) ++ [op]]> (arrs h).

(** What [op.opId] and [op.ts] read after the commit of a submitted [op],
    computed from the submitted JSON alone. *)
Definition assigned_id (uuid : string) (j : option json) : option json :=
  match j with
  | Some (JObj kvs) => Some (or_default (kvs !! "opId") (JStr uuid))
  | Some (JArr _) => Some (JStr uuid)
  | _ => None
  end.

Definition assigned_ts (now : Z) (j : option json) : option json :=
  match j with
  | Some (JObj kvs) => Some (or_default (kvs !! "ts") (JNum now))
  | Some (JArr _) => Some (JNum now)
  | _ => None
  end.

(** The text of a committed operation: what [JSON.stringify] prints for it
    once [pushOp] has run.  The added properties of an array are not
    printed, and a primitive is printed as it is. *)
Definition finalized_text (uuid : string) (now : Z) (j : option json) : option json :=
  match j with
  | Some (JObj kvs) => Some (JObj (props (finalize uuid now (Cell kvs None))))
  | _ => j
  end.

(** The log followed by the undone operations, oldest first: the order in
    which the operations of both were committed. *)
Definition history (r : room) (h : store) : list value :=
  log_of r h ++ reverse (stack_of r h).

(** Timestamps compare as numbers. *)
Definition ts_le (a b : option json) : Prop :=
  match a, b with
  | Some (JNum x), Some (JNum y) => x ≤ y
  | _, _ => False
  end.

(** ** Well-formed rooms *)

(** An element of [opLog] or [undoneStack] is never [undefined] or [null],
    and an object among them is allocated. *)
Definition entry_ok (h : store) (v : value) : Prop :=
  match v with
  | VUndefined | VNull => False
  | VRef l => l ∈ dom (objs h)
  | _ => True
  end.

(** The two arrays of a room are allocated and distinct, and hold only
    proper entries.  [createRoom] establishes this and every method keeps
    it. *)
Record room_ok (r : room) (h : store) : Prop := RoomOk {
  ok_log : opLog r ∈ dom (arrs h);
  ok_stack : undoneStack r ∈ dom (arrs h);
  ok_distinct : opLog r ≠ undoneStack r;
  ok_log_entries : Forall (entry_ok h) (log_of r h);
  ok_stack_entries : Forall (entry_ok h) (stack_of r h)
}.

(** The room is registered under its own id, its member set has no
    repetition, and [client] is a live connection object. *)
Record session_ok (w : world) (roomObj : string) (client : ws)
    (r : room) (s : socket) : Prop := SessionOk {
  ok_room : rooms w !! roomObj = Some r;
  ok_id : room_id r = roomObj;
  ok_members : NoDup (clients r);
  ok_client : socks w !! client = Some s
}.

(** The two arrays of a room. *)
Definition room_arrays (r : room) : list loc := [opLog r; undoneStack r].

(** Every room is registered under its own id, is well-formed, has a
    member set without repetition whose members are connection objects,
    and shares no array with another room. *)
Record world_ok (w : world) : Prop := WorldOk {
  wok_id : ∀ k r, rooms w !! k = Some r → room_id r = k;
  wok_members : ∀ k r, rooms w !! k = Some r → NoDup (clients r);
  wok_live : ∀ k r c, rooms w !! k = Some r → c ∈ clients r → is_Some (socks w !! c);
  wok_room : ∀ k r, rooms w !! k = Some r → room_ok r (heap w);
  wok_apart : ∀ k1 k2 r1 r2 l,
    k1 ≠ k2 → rooms w !! k1 = Some r1 → rooms w !! k2 = Some r2 →
    l ∈ room_arrays r1 → l ∉ room_arrays r2
}.

(** ** One room among others *)

(** A heap that differs from another by new arrays only. *)
Definition allocs (h h' : store) : Prop :=
  objs h' = objs h ∧
  dom (arrs h) ⊆ dom (arrs h') ∧
  ∀ l, l ∈ dom (arrs h) → arr h' l = arr h l.

(** A room as an observer sees it: where its arrays are, what they hold,
    and what every entry reads and prints as. *)
Definition same_room (r : room) (h : store) (r' : room) (h' : store) : Prop :=
  opLog r' = opLog r ∧ undoneStack r' = undoneStack r ∧
  log_of r' h' = log_of r h ∧ stack_of r' h' = stack_of r h ∧
  ∀ v, entry_ok h v →
    stringify h' v = stringify h v ∧ ∀ key, read h' v key = read h v key.

(** The messages that are addressed to room [k]. *)
Definition addressed_to (k : string) (e : event) : Prop :=
  match e with
  | Message _ _ k' _ _ => k' = k
  | _ => False
  end.

(** The action that a message asks of the room it is addressed to, and
    the actions that a sequence of events asks of room [k]. *)
Definition message_action (uuid : string) (type payload : option json)
    : option action :=
  if type_is type "op" then Commit uuid <$> json_prop payload "op"
  else if type_is type "undo" then Some Undo
  else if type_is type "redo" then Some Redo
  else None.

Definition event_actions (k : string) (e : event) : list (Z * action) :=
  match e with
  | Message uuid now k' _ (Some j) =>
      if decide (k' = k) then
        match json_prop (Some j) "type", json_prop (Some j) "payload" with
        | Some type, Some payload =>
            match message_action uuid type payload with
            | Some a => [(now, a)]
            | None => []
            end
        | _, _ => []
        end
      else []
  | _ => []
  end.

Definition actions_on (k : string) (evs : list event) : list (Z * action) :=
  evs ≫= event_actions k.

(** The values of property [k] along the log and along the history. *)
Definition reads_of_log (k : string) (st : room * store) : list (option json) :=
  map (λ v, read st.2 v k) (log_of st.1 st.2).

Definition reads_of_history (k : string) (st : room * store) : list (option json) :=
  map (λ v, read st.2 v k) (history st.1 st.2).

(** What a run commits: for each accepted commit, in order, the value
    [f now uuid op] computed from the clock reading, the value of
    [uuidv4()] and the submitted operation. *)
Definition committed (f : Z → string → option json → option json)
    (evs : list (Z * action)) : list (option json) :=
  omap (λ e, match e.2 with
             | Commit uuid j => if nullish j then None else Some (f e.1 uuid j)
             | _ => None
             end) evs.

Definition commit_ids : list (Z * action) → list (option json) :=
  committed (λ _ uuid j, assigned_id uuid j).

Definition commit_ts : list (Z * action) → list (option json) :=
  committed (λ now _ j, assigned_ts now j).

Definition is_commit (e : Z * action) : Prop :=
  match e.2 with
  | Commit _ _ => True
  | _ => False
  end.

(** A submitted operation that leaves its timestamp to the server: an
    object (or array) whose [ts] is absent or falsy. *)
Definition unstamped (j : option json) : Prop :=
  match j with
  | Some (JObj kvs) => truthy (kvs !! "ts") = false
  | Some (JArr _) => True
  | _ => False
  end.

Definition server_stamped (e : Z * action) : Prop :=
  match e.2 with
  | Commit _ j => nullish j = false → unstamped j
  | _ => True
  end.

(** ** Presence *)

(** The entry of a connection in the user list: its public metadata. *)
Definition user_entry (s : socket) : json :=
  obj [("userId", Some (JStr (userId s)));
       ("username", Some (username s));
       ("color", Some (color s))].

(** The members of the room registered under [k], in the order in which
    they joined; none when no room is registered under [k]. *)
Definition members (k : string) (w : world) : list ws :=
  match rooms w !! k with
  | Some r => clients r
  | None => []
  end.

(** A connection object after more calls of [send]: the same but for a
    longer [sent]. *)
Definition sent_more (s s' : socket) : Prop :=
  userId s' = userId s ∧ username s' = username s ∧ color s' = color s ∧
  readyState s' = readyState s ∧ sent s `prefix_of` sent s'.

Definition socks_grow (ss ss' : gmap ws socket) : Prop :=
  ∀ c, option_Forall2 sent_more (ss !! c) (ss' !! c).

(** A connection object [c] before and after a message of [client] was
    handled: the same but for a longer [sent] and, when it is [client]
    itself, its name and colour. *)
Definition after_message (client c : ws) (s s' : socket) : Prop :=
  userId s' = userId s ∧ readyState s' = readyState s ∧
  sent s `prefix_of` sent s' ∧
  (c ≠ client → username s' = username s ∧ color s' = color s).

(** A room before and after a message was handled: the same but for its
    [undoneStack], which a commit replaces. *)
Definition same_members (r r' : room) : Prop :=
  room_id r' = room_id r ∧ clients r' = clients r ∧ opLog r' = opLog r.

(** The room and the connection of an event. *)
Definition event_room (e : event) : option string :=
  match e with
  | Connection _ _ _ room _ _ => Some room
  | Message _ _ room _ _ => Some room
  | Close room _ => Some room
  | ReadyState _ _ => None
  end.

Definition event_client (e : event) : ws :=
  match e with
  | Connection client _ _ _ _ _ => client
  | Message _ _ _ client _ => client
  | Close _ client => client
  | ReadyState client _ => client
  end.

(** The message types that [handleMessage] knows. *)
Definition message_types : list string :=
  ["ping"; "meta"; "stroke-part"; "op"; "undo"; "redo"; "cursor"; "request-state"].

(** ** The upgrade of a connection *)





(** ** A room of the server and the room state machine *)

(** Two entries, each in its heap, that print and read alike. *)
Definition alike (h1 : store) (v1 : value) (h2 : store) (v2 : value) : Prop :=
  stringify h1 v1 = stringify h2 v2 ∧ ∀ key, read h1 v1 key = read h2 v2 key.

(** Two rooms, each in its heap, that cannot be told apart by what their
    logs and stacks print and read as, position by position. *)
Definition same_view (st1 st2 : room * store) : Prop :=
  Forall2 (λ v1 v2, alike st1.2 v1 st2.2 v2)
          (log_of st1.1 st1.2) (log_of st2.1 st2.2) ∧
  Forall2 (λ v1 v2, alike st1.2 v1 st2.2 v2)
          (stack_of st1.1 st1.2) (stack_of st2.1 st2.2).

(** Every message of [evs] arrives on a connection object that exists
    when it arrives, the events being handled from state [w] on.  In the
    source the ['message'] listener is registered by the ['connection']
    listener, on the connection object it was given. *)
Fixpoint heard (w : world) (evs : list event) : Prop :=
  match evs with
  | [] => True
  | e :: evs' =>
      match e with
      | Message _ _ _ client _ => is_Some (socks w !! client)
      | _ => True
      end ∧ heard (step w e) evs'
  end.

(** The commits of a list of actions that [pushOp] accepts, with the clock
    reading and the value of [uuidv4()] of each. *)
Definition accepted (acts : list (Z * action)) : list submission :=
  omap (λ e, match e.2 with
             | Commit uuid j =>
                 if nullish j then None else Some (Submission e.1 uuid j)
             | _ => None
             end) acts.

(** What property [key] of the operation of a submission reads as once
    [pushOp] has run on it. *)
Definition finalized_prop (c : submission) (key : string) : option json :=
  match body c with
  | Some (JObj kvs) =>
      props (finalize (fresh_uuid c) (at_time c) (Cell kvs None)) !! key
  | Some (JArr xs) =>
      props (finalize (fresh_uuid c) (at_time c) (Cell ∅ (Some xs))) !! key
  | _ => None
  end.

(** The text of the operation of a submission once [pushOp] has run on
    it. *)
Definition submission_text (c : submission) : json :=
  default JNull (finalized_text (fresh_uuid c) (at_time c) (body c)).

(** An entry of a log or of a stack that is the operation of submission
    [c] as [pushOp] left it. *)
Definition committed_as (h : store) (v : value) (c : submission) : Prop :=
  stringify h v = finalized_text (fresh_uuid c) (at_time c) (body c) ∧
  ∀ key, read h v key = finalized_prop c key.

(** An operation object that has an id, a timestamp and a type. *)
Definition stamped (h : store) (v : value) : Prop :=
  match v with
  | VRef _ =>
      truthy (read h v "opId") = true ∧ truthy (read h v "ts") = true ∧
      truthy (read h v "type") = true
  | _ => True
  end.

(** A commit for which [Date.now()] is not 0 and [uuidv4()] is not the
    empty string. *)
Definition sound_oracles (e : Z * action) : Prop :=
  match e.2 with
  | Commit uuid _ => e.1 ≠ 0 ∧ uuid ≠ EmptyString
  | _ => True
  end.

(** ** Example states *)

(** Two participants have joined room ["r1"], and in [one_closing] the
    library has since marked the connection of the second as [CLOSING];
    its ['close'] listener has not run yet. *)
Definition two_clients : world :=
  serve [Connection 0%nat OPEN "s_a" "r1" "ann" EmptyString;
         Connection 1%nat OPEN "s_b" "r1" "bob" EmptyString].

Definition one_closing : world :=
  serve [Connection 0%nat OPEN "s_a" "r1" "ann" EmptyString;
         Connection 1%nat OPEN "s_b" "r1" "bob" EmptyString;
         ReadyState 1%nat 2%nat].

(** The room object of ["r1"] in these states, and after one commit. *)
Definition room_r1 : room := Room "r1" [0%nat; 1%nat] 0%nat 1%nat.
Definition room_r1' : room := Room "r1" [0%nat; 1%nat] 0%nat 4%nat.

Definition socket_of (w : world) (c : ws) : socket :=
  default (Socket EmptyString JNull JNull 0%nat []) (socks w !! c).

(** Messages of a client. *)
Definition op_message (op : json) : option json := Some (JObj {["op" := op]}).
Definition blob_op : json := JObj {["type" := JStr "blob"]}.
Definition red_op : json :=
  JObj {["opId" := JStr "o1"; "type" := JStr "stroke"; "color" := JStr "red"]}.

(** The two participants have each sent one operation, neither with a
    timestamp; the room object of ["r1"] after that. *)
Definition two_messages : list event :=
  [Connection 0%nat OPEN "s_a" "r1" "ann" EmptyString;
   Connection 1%nat OPEN "s_b" "r1" "bob" EmptyString;
   Message "uuid-1" 1000 "r1" 0%nat
     (Some (JObj {["type" := JStr "op"; "payload" := JObj {["op" := red_op]}]}));
   Message "uuid-2" 1001 "r1" 1%nat
     (Some (JObj {["type" := JStr "op"; "payload" := JObj {["op" := blob_op]}]}))].

Definition room_r1'' : room := Room "r1" [0%nat; 1%nat] 0%nat 5%nat.

(** A room after two commits, and the same room after one undo. *)
Definition two_commits : room * store :=
  run [(1000, Commit "uuid-1" (Some red_op)); (1001, Commit "uuid-2" (Some blob_op))]
      (createRoom "r1" empty_store).

Definition one_undone : room * store := act 1002 Undo two_commits.


(** The two connections of [two_clients], and the two operations that
    follow them in [two_messages]. *)
Definition two_connections : list event :=
  [Connection 0%nat OPEN "s_a" "r1" "ann" EmptyString;
   Connection 1%nat OPEN "s_b" "r1" "bob" EmptyString].


(** [two_messages] followed by an undo of the second participant. *)
Definition one_undo : list event :=
  two_messages ++
  [Message "uuid-3" 1002 "r1" 1%nat
     (Some (JObj {["type" := JStr "undo"; "payload" := JObj ∅]}))].

(** What may follow [two_messages]: a third participant joins another room
    and commits there, the second participant of ["r1"] pings, renames
    itself and leaves. *)
Definition elsewhere : list event :=
  [Connection 2%nat OPEN "s_c" "r2" "cat" "#ff0000";
   Message "uuid-3" 1002 "r2" 2%nat
     (Some (JObj {["type" := JStr "op"; "payload" := JObj {["op" := blob_op]}]}));
   Message "uuid-4" 1003 "r1" 1%nat
     (Some (JObj {["type" := JStr "ping"; "payload" := JObj {["ts" := JNum 7]}]}));
   Message "uuid-5" 1004 "r1" 1%nat
     (Some (JObj {["type" := JStr "meta";
                   "payload" := JObj {["username" := JStr "rob"]}]}));
   ReadyState 1%nat 3%nat;
   Close "r1" 1%nat].

(** What may follow [two_connections]: a commit, an undo and a redo in
    ["r1"], with a connection and a commit in another room in between. *)
Definition busy : list event :=
  [Message "uuid-1" 1000 "r1" 0%nat
     (Some (JObj {["type" := JStr "op"; "payload" := JObj {["op" := red_op]}]}));
   Connection 2%nat OPEN "s_c" "r2" "cat" "#ff0000";
   Message "uuid-2" 1001 "r1" 1%nat
     (Some (JObj {["type" := JStr "undo"; "payload" := JObj ∅]}));
   Message "uuid-3" 1002 "r2" 2%nat
     (Some (JObj {["type" := JStr "op"; "payload" := JObj {["op" := blob_op]}]}));
   Message "uuid-4" 1003 "r1" 0%nat
     (Some (JObj {["type" := JStr "redo"; "payload" := JObj ∅]}))].

(** Both participants of ["r1"] leave. *)
Definition both_leave : list event := [Close "r1" 0%nat; Close "r1" 1%nat].

(** * Proofs *)

(** ** The heap *)

Section heap.
Implicit Types (h : store) (l : loc) (xs : list value) (v : value).

Lemma arr_set_arr_eq l xs h : arr (set_arr l xs h) l = xs.
Proof. unfold arr, set_arr; simpl. by rewrite lookup_insert_eq. Qed.

Lemma arr_set_arr_ne l l' xs h : l ≠ l' → arr (set_arr l xs h) l' = arr h l'.
Proof. intros Hne. unfold arr, set_arr; simpl. by rewrite lookup_insert_ne. Qed.

Lemma dom_set_arr l xs h : dom (arrs (set_arr l xs h)) = {[l]} ∪ dom (arrs h).
Proof. unfold set_arr; simpl. apply dom_insert_L. Qed.

Lemma alloc_arr_fresh xs h : (alloc_arr xs h).1 ∉ dom (arrs h).
Proof. unfold alloc_arr; simpl. apply is_fresh. Qed.

Lemma alloc_arr_eq xs h :
  alloc_arr xs h = ((alloc_arr xs h).1, set_arr (alloc_arr xs h).1 xs h).
Proof. reflexivity. Qed.

Lemma arr_alloc_old xs h l :
  l ∈ dom (arrs h) → arr (alloc_arr xs h).2 l = arr h l.
Proof.
  intros Hl. unfold alloc_arr; simpl. apply arr_set_arr_ne.
  intros Heq. rewrite <- Heq in Hl. by apply is_fresh in Hl.
Qed.

Lemma get_prop_nullish h v k :
  get_prop h v k = None ↔ nullish_value v = true.
Proof. destruct v; simpl; split; congruence. Qed.

Lemma set_prop_arrs h h' v k x : set_prop v k x h = Some h' → arrs h' = arrs h.
Proof. destruct v; simpl; intros [= <-]; reflexivity. Qed.

Lemma reify_arrs j h : arrs (reify j h).2 = arrs h.
Proof. destruct j as [[]|]; reflexivity. Qed.

Lemma reify_nullish j h : nullish_value (reify j h).1 = nullish j.
Proof. destruct j as [[]|]; reflexivity. Qed.

Lemma reify_objs_subseteq j h : objs h ⊆ objs (reify j h).2.
Proof.
  destruct j as [[]|]; simpl; try done;
    apply insert_subseteq, not_elem_of_dom, is_fresh.
Qed.

(** A value made by [reify] is a primitive or a reference that the heap
    did not have. *)
Lemma reify_ref_fresh j h l : (reify j h).1 = VRef l → l ∉ dom (objs h).
Proof.
  destruct j as [[]|]; simpl; try discriminate; intros [= <-]; apply is_fresh.
Qed.

Lemma get_cell_insert l c o a : get_cell (Store (<[l:=c]> o) a) l = c.
Proof. unfold get_cell; simpl. by rewrite lookup_insert_eq. Qed.

End heap.

(** ** [pushOp] *)

Section pushOp.
Context (uuid : string) (now : Z).
Implicit Types (r : room) (h : store) (op : value).

Lemma pushOp_throws op r h :
  nullish_value op = true → pushOp uuid now op r h = None.
Proof. destruct op; try discriminate; reflexivity. Qed.

Lemma pushOp_returns op r h :
  nullish_value op = false →
  pushOp uuid now op r h =
    Some (Room (room_id r) (clients r) (opLog r) (fresh (dom (pushed_arrs op r h))),
          Store (pushed_objs uuid now op h)
                (<[fresh (dom (pushed_arrs op r h)) := []]> (pushed_arrs op r h))).
Proof.
  destruct op as [| | b | n | s | l]; simpl; try discriminate; intros _;
    try reflexivity.
  unfold pushOp, get_prop, set_prop. cbn [mbind option_bind].
  repeat (progress (cbn [objs arrs props items]; rewrite ?get_cell_insert)).
  rewrite !insert_insert_eq. unfold finalize.
  destruct (truthy _) eqn:E; cbn [mbind option_bind];
    repeat (progress (cbn [objs arrs props items]; rewrite ?get_cell_insert));
    rewrite ?insert_insert_eq; reflexivity.
Qed.

Lemma pushOp_is_Some op r h :
  is_Some (pushOp uuid now op r h) ↔ nullish_value op = false.
Proof.
  split.
  - intros [st Hst]. destruct (nullish_value op) eqn:E; [|done].
    by rewrite pushOp_throws in Hst.
  - intros H. rewrite pushOp_returns; eauto.
Qed.

Section returns.
Context (op : value) (r r1 : room) (h h1 : store).
Hypothesis Hpush : pushOp uuid now op r h = Some (r1, h1).

Lemma pushOp_value : nullish_value op = false.
Proof. apply (proj1 (pushOp_is_Some op r h)). eauto. Qed.

Lemma pushOp_room :
  room_id r1 = room_id r ∧ clients r1 = clients r ∧ opLog r1 = opLog r.
Proof.
  rewrite (pushOp_returns _ _ _ pushOp_value) in Hpush.
  injection Hpush as <- <-. done.
Qed.

Lemma pushOp_objs : objs h1 = pushed_objs uuid now op h.
Proof.
  rewrite (pushOp_returns _ _ _ pushOp_value) in Hpush.
  injection Hpush as <- <-. done.
Qed.

Lemma pushOp_distinct : opLog r1 ≠ undoneStack r1.
Proof.
  rewrite (pushOp_returns _ _ _ pushOp_value) in Hpush.
  injection Hpush as <- <-. simpl. intros Heq.
  apply (is_fresh (dom (pushed_arrs op r h))). rewrite <- Heq.
  unfold pushed_arrs. rewrite dom_insert_L. set_solver.
Qed.

Lemma pushOp_log : log_of r1 h1 = log_of r h ++ [op].
Proof.
  pose proof pushOp_distinct as Hd.
  rewrite (pushOp_returns _ _ _ pushOp_value) in Hpush.
  injection Hpush as <- <-. simpl in *. unfold log_of, arr; simpl.
  rewrite lookup_insert_ne by done.
  unfold pushed_arrs. by rewrite lookup_insert_eq.
Qed.

Lemma pushOp_stack : stack_of r1 h1 = [].
Proof.
  rewrite (pushOp_returns _ _ _ pushOp_value) in Hpush.
  injection Hpush as <- <-. unfold stack_of, arr; simpl.
  by rewrite lookup_insert_eq.
Qed.

Lemma pushOp_dom_arrs :
  dom (arrs h1) = {[undoneStack r1]} ∪ ({[opLog r]} ∪ dom (arrs h)).
Proof.
  rewrite (pushOp_returns _ _ _ pushOp_value) in Hpush.
  injection Hpush as <- <-. simpl.
  rewrite dom_insert_L. unfold pushed_arrs. by rewrite dom_insert_L.
Qed.

Lemma pushOp_stack_fresh : undoneStack r1 ∉ dom (arrs h).
Proof.
  rewrite (pushOp_returns _ _ _ pushOp_value) in Hpush.
  injection Hpush as <- <-. simpl. intros Hin.
  apply (is_fresh (dom (pushed_arrs op r h))).
  unfold pushed_arrs at 2. rewrite dom_insert_L. set_solver.
Qed.

Lemma pushOp_dom_objs : dom (objs h) ⊆ dom (objs h1).
Proof.
  rewrite pushOp_objs. destruct op; simpl; try done.
  rewrite dom_insert_L. set_solver.
Qed.

(** Reading another object is not affected. *)
Lemma pushOp_read_other v k : v ≠ op → read h1 v k = read h v k.
Proof.
  intros Hne. unfold read, get_prop. destruct v; try done.
  unfold get_cell. rewrite pushOp_objs. destruct op; simpl; try done.
  rewrite lookup_insert_ne; [done | congruence].
Qed.

End returns.
End pushOp.

(** ** [undoLast] and [redoLast] *)

Section undo_redo.
Context (now : Z).
Implicit Types (r : room) (h : store) (x : value) (xs : list value).

Lemma undoLast_empty r h : log_of r h = [] → undoLast now r h = (Return None, h).
Proof. unfold log_of, undoLast. by intros ->. Qed.

Lemma undoLast_snoc r h xs x :
  log_of r h = xs ++ [x] →
  undoLast now r h =
    (match get_prop h x "opId" with
     | None => Throw
     | Some i => Return (Some (UndoInfo i now))
     end,
     set_arr (undoneStack r) (arr (set_arr (opLog r) xs h) (undoneStack r) ++ [x])
             (set_arr (opLog r) xs h)).
Proof.
  unfold log_of, undoLast. intros ->.
  rewrite reverse_snoc, reverse_involutive.
  change (get_prop (set_arr ?a ?b (set_arr ?c ?d h)) x "opId")
    with (get_prop h x "opId").
  by destruct (get_prop h x "opId").
Qed.

Lemma redoLast_empty r h : stack_of r h = [] → redoLast now r h = (None, h).
Proof. unfold stack_of, redoLast. by intros ->. Qed.

Lemma redoLast_snoc r h xs x :
  stack_of r h = xs ++ [x] →
  redoLast now r h =
    (Some (RedoInfo x now),
     set_arr (opLog r) (arr (set_arr (undoneStack r) xs h) (opLog r) ++ [x])
             (set_arr (undoneStack r) xs h)).
Proof.
  unfold stack_of, redoLast. intros ->.
  by rewrite reverse_snoc, reverse_involutive.
Qed.

Lemma list_empty_or_snoc {A} (l : list A) :
  l = [] ∨ ∃ (ys : list A) (y : A), l = ys ++ [y].
Proof.
  induction l as [|y ys _] using rev_ind; [by left | right; eauto].
Qed.

(** Neither method touches an object. *)
Lemma undoLast_objs r h : objs (undoLast now r h).2 = objs h.
Proof.
  destruct (list_empty_or_snoc (log_of r h)) as [E | (xs & x & E)].
  - by rewrite undoLast_empty.
  - by rewrite (undoLast_snoc _ _ _ _ E).
Qed.

Lemma redoLast_objs r h : objs (redoLast now r h).2 = objs h.
Proof.
  destruct (list_empty_or_snoc (stack_of r h)) as [E | (xs & x & E)].
  - by rewrite redoLast_empty.
  - by rewrite (redoLast_snoc _ _ _ _ E).
Qed.

Lemma undoLast_dom_arrs r h :
  opLog r ∈ dom (arrs h) → undoneStack r ∈ dom (arrs h) →
  dom (arrs (undoLast now r h).2) = dom (arrs h).
Proof.
  intros Hlog Hstk.
  destruct (list_empty_or_snoc (log_of r h)) as [E | (xs & x & E)].
  - by rewrite undoLast_empty.
  - rewrite (undoLast_snoc _ _ _ _ E); simpl.
    rewrite !dom_insert_L. apply set_eq. intros l.
    rewrite !elem_of_union, !elem_of_singleton.
    split; [intros [->|[->|?]]; done | auto].
Qed.

Lemma redoLast_dom_arrs r h :
  opLog r ∈ dom (arrs h) → undoneStack r ∈ dom (arrs h) →
  dom (arrs (redoLast now r h).2) = dom (arrs h).
Proof.
  intros Hlog Hstk.
  destruct (list_empty_or_snoc (stack_of r h)) as [E | (xs & x & E)].
  - by rewrite redoLast_empty.
  - rewrite (redoLast_snoc _ _ _ _ E); simpl.
    rewrite !dom_insert_L. apply set_eq. intros l.
    rewrite !elem_of_union, !elem_of_singleton.
    split; [intros [->|[->|?]]; done | auto].
Qed.

(** With two distinct arrays, [undoLast] moves the last element of the log
    to the top of the stack. *)
Lemma undoLast_moves r h xs x :
  opLog r ≠ undoneStack r → log_of r h = xs ++ [x] →
  log_of r (undoLast now r h).2 = xs ∧
  stack_of r (undoLast now r h).2 = stack_of r h ++ [x].
Proof.
  intros Hd E. rewrite (undoLast_snoc _ _ _ _ E); simpl.
  unfold log_of, stack_of.
  rewrite arr_set_arr_eq, (arr_set_arr_ne (undoneStack r)) by done.
  by rewrite arr_set_arr_eq, arr_set_arr_ne.
Qed.

Lemma redoLast_moves r h xs x :
  opLog r ≠ undoneStack r → stack_of r h = xs ++ [x] →
  stack_of r (redoLast now r h).2 = xs ∧
  log_of r (redoLast now r h).2 = log_of r h ++ [x].
Proof.
  intros Hd E. rewrite (redoLast_snoc _ _ _ _ E); simpl.
  unfold log_of, stack_of.
  rewrite arr_set_arr_eq, (arr_set_arr_ne (opLog r)) by done.
  by rewrite arr_set_arr_eq, arr_set_arr_ne.
Qed.

(** Another array is left alone. *)
Lemma undoLast_arr_other r h l :
  l ≠ opLog r → l ≠ undoneStack r → arr (undoLast now r h).2 l = arr h l.
Proof.
  intros H1 H2.
  destruct (list_empty_or_snoc (log_of r h)) as [E | (xs & x & E)].
  - by rewrite undoLast_empty.
  - rewrite (undoLast_snoc _ _ _ _ E); simpl.
    by rewrite !arr_set_arr_ne.
Qed.

Lemma redoLast_arr_other r h l :
  l ≠ opLog r → l ≠ undoneStack r → arr (redoLast now r h).2 l = arr h l.
Proof.
  intros H1 H2.
  destruct (list_empty_or_snoc (stack_of r h)) as [E | (xs & x & E)].
  - by rewrite redoLast_empty.
  - rewrite (redoLast_snoc _ _ _ _ E); simpl.
    by rewrite !arr_set_arr_ne.
Qed.
End undo_redo.

(** ** Well-formed rooms stay well-formed *)

Section room_ok.
Implicit Types (r : room) (h : store) (v : value).

Lemma entry_ok_mono h h' v :
  dom (objs h) ⊆ dom (objs h') → entry_ok h v → entry_ok h' v.
Proof. intros Hsub. destruct v; simpl; try done. apply Hsub. Qed.

Lemma entry_ok_value h v : entry_ok h v → nullish_value v = false.
Proof. by destruct v. Qed.

Lemma createRoom_ok i h : room_ok (createRoom i h).1 (createRoom i h).2.
Proof.
  unfold createRoom. rewrite (alloc_arr_eq [] h).
  rewrite (alloc_arr_eq [] (set_arr _ _ _)). simpl.
  set (lg := fresh (dom (arrs h))).
  set (st := fresh (dom (<[lg:=[]]> (arrs h)))).
  assert (lg ≠ st) as Hne.
  { intros Heq. apply (is_fresh (dom (<[lg:=[]]> (arrs h)))).
    fold st. rewrite <- Heq, dom_insert_L. set_solver. }
  split; unfold log_of, stack_of; simpl.
  - rewrite !dom_insert_L. set_solver.
  - rewrite !dom_insert_L. set_solver.
  - done.
  - unfold arr; simpl. rewrite lookup_insert_ne, lookup_insert_eq by done.
    constructor.
  - unfold arr; simpl. rewrite lookup_insert_eq. constructor.
Qed.

Lemma createRoom_empty i h :
  log_of (createRoom i h).1 (createRoom i h).2 = [] ∧
  stack_of (createRoom i h).1 (createRoom i h).2 = [].
Proof.
  pose proof (createRoom_ok i h) as [_ _ Hne _ _]. revert Hne.
  unfold createRoom, log_of, stack_of, alloc_arr, arr, set_arr; simpl.
  intros Hne. by rewrite lookup_insert_ne, !lookup_insert_eq.
Qed.

(** A change of the heap that keeps the two arrays and loses no object
    keeps the room well-formed. *)
Lemma room_ok_frame r h h' :
  room_ok r h →
  dom (arrs h) ⊆ dom (arrs h') →
  arr h' (opLog r) = arr h (opLog r) →
  arr h' (undoneStack r) = arr h (undoneStack r) →
  dom (objs h) ⊆ dom (objs h') →
  room_ok r h'.
Proof.
  intros [H1 H2 H3 H4 H5] Ha Hl Hs Ho. unfold log_of, stack_of in *.
  split; unfold log_of, stack_of; [by apply Ha | by apply Ha | done | |].
  - rewrite Hl. eapply Forall_impl; [done|]. intros v. by apply entry_ok_mono.
  - rewrite Hs. eapply Forall_impl; [done|]. intros v. by apply entry_ok_mono.
Qed.

Lemma reify_room_ok j r h : room_ok r h → room_ok r (reify j h).2.
Proof.
  intros Hok. apply (room_ok_frame r h); [done | | | |].
  - by rewrite reify_arrs.
  - unfold arr. by rewrite reify_arrs.
  - unfold arr. by rewrite reify_arrs.
  - apply subseteq_dom, reify_objs_subseteq.
Qed.

Lemma reify_entry_ok j h : nullish j = false → entry_ok (reify j h).2 (reify j h).1.
Proof.
  destruct j as [[]|]; simpl; try done; intros _;
    rewrite dom_insert_L; set_solver.
Qed.

Lemma getState_room_ok r h : room_ok r h → room_ok r (getState r h).2.
Proof.
  intros Hok. pose proof Hok as [H1 H2 _ _ _].
  apply (room_ok_frame r h); [done | | | | done].
  - unfold getState, alloc_arr; simpl. rewrite dom_insert_L. set_solver.
  - by apply arr_alloc_old.
  - by apply arr_alloc_old.
Qed.

Lemma pushOp_room_ok uuid now op r h r1 h1 :
  room_ok r h → entry_ok h op →
  pushOp uuid now op r h = Some (r1, h1) → room_ok r1 h1.
Proof.
  intros [H1 H2 H3 H4 H5] Hop Hpush.
  pose proof (pushOp_log _ _ _ _ _ _ _ Hpush) as Hlog.
  pose proof (pushOp_stack _ _ _ _ _ _ _ Hpush) as Hstk.
  pose proof (pushOp_dom_arrs _ _ _ _ _ _ _ Hpush) as Hdom.
  pose proof (pushOp_dom_objs _ _ _ _ _ _ _ Hpush) as Hobjs.
  pose proof (pushOp_room _ _ _ _ _ _ _ Hpush) as (_ & _ & Hl).
  split.
  - rewrite Hdom, Hl, !elem_of_union, !elem_of_singleton. auto.
  - rewrite Hdom, !elem_of_union, !elem_of_singleton. auto.
  - by eapply pushOp_distinct.
  - rewrite Hlog. apply Forall_app; split.
    + eapply Forall_impl; [done|]. intros v. by apply entry_ok_mono.
    + repeat constructor. by eapply entry_ok_mono.
  - rewrite Hstk. constructor.
Qed.

Lemma undoLast_room_ok now r h : room_ok r h → room_ok r (undoLast now r h).2.
Proof.
  intros [H1 H2 H3 H4 H5].
  destruct (list_empty_or_snoc (log_of r h)) as [E | (xs & x & E)].
  { rewrite undoLast_empty by done. by split. }
  destruct (undoLast_moves now r h xs x H3 E) as [Hl Hs].
  rewrite E in H4. apply Forall_app in H4 as [H4 H4'].
  split.
  - by rewrite undoLast_dom_arrs.
  - by rewrite undoLast_dom_arrs.
  - done.
  - rewrite Hl. eapply Forall_impl; [done|]. intros v.
    apply entry_ok_mono. by rewrite undoLast_objs.
  - rewrite Hs. apply Forall_app; split; (eapply Forall_impl; [done|]);
      intros v; apply entry_ok_mono; by rewrite undoLast_objs.
Qed.

Lemma redoLast_room_ok now r h : room_ok r h → room_ok r (redoLast now r h).2.
Proof.
  intros [H1 H2 H3 H4 H5].
  destruct (list_empty_or_snoc (stack_of r h)) as [E | (xs & x & E)].
  { rewrite redoLast_empty by done. by split. }
  destruct (redoLast_moves now r h xs x H3 E) as [Hs Hl].
  rewrite E in H5. apply Forall_app in H5 as [H5 H5'].
  split.
  - by rewrite redoLast_dom_arrs.
  - by rewrite redoLast_dom_arrs.
  - done.
  - rewrite Hl. apply Forall_app; split; (eapply Forall_impl; [done|]);
      intros v; apply entry_ok_mono; by rewrite redoLast_objs.
  - rewrite Hs. eapply Forall_impl; [done|]. intros v.
    apply entry_ok_mono. by rewrite redoLast_objs.
Qed.

Lemma act_room_ok now a st : room_ok st.1 st.2 → room_ok (act now a st).1 (act now a st).2.
Proof.
  destruct st as [r h]; simpl. intros Hok. destruct a as [uuid j | |]; simpl.
  - pose proof (reify_room_ok j r h Hok) as Hok0.
    pose proof (reify_entry_ok j h) as Hop.
    pose proof (reify_nullish j h) as Hnull.
    destruct (reify j h) as [op h0]; simpl in *.
    destruct (pushOp uuid now op r h0) as [[r1 h1]|] eqn:Ep; simpl; [|done].
    eapply pushOp_room_ok; [done | | done].
    apply Hop. rewrite <- Hnull. by eapply pushOp_value.
  - by apply undoLast_room_ok.
  - by apply redoLast_room_ok.
Qed.

Lemma run_room_ok evs st : room_ok st.1 st.2 → room_ok (run evs st).1 (run evs st).2.
Proof.
  revert st. induction evs as [|[now a] evs IH]; intros st Hok; [done|].
  simpl. apply IH. by apply act_room_ok.
Qed.
End room_ok.

(** ** [broadcast] *)

Section broadcast.
Context (exceptWs : option ws) (msg : json).
Implicit Types (ss : gmap ws socket) (c : ws) (cs : list ws) (s : socket).

Lemma deliver_lookup_ne ss c c' : c ≠ c' → deliver exceptWs msg ss c' !! c = ss !! c.
Proof.
  intros Hne. unfold deliver, send. case_decide; [done|].
  destruct (ss !! c') as [s'|]; [|done].
  case_decide; [|done]. by rewrite lookup_alter_ne.
Qed.

Lemma deliver_lookup_eq ss c s :
  ss !! c = Some s →
  deliver exceptWs msg ss c !! c =
    Some (if decide (exceptWs ≠ Some c ∧ readyState s = OPEN)
          then push_sent msg s else s).
Proof.
  intros Hs. unfold deliver, send. rewrite Hs.
  repeat case_decide; try tauto; try done.
  by rewrite lookup_alter_eq, Hs.
Qed.

Lemma foldl_deliver_notin cs ss c :
  c ∉ cs → foldl (deliver exceptWs msg) ss cs !! c = ss !! c.
Proof.
  revert ss. induction cs as [|c' cs IH]; intros ss Hc; [done|].
  apply not_elem_of_cons in Hc as [Hne Hc]. simpl.
  rewrite IH by done. by apply deliver_lookup_ne.
Qed.

(** A member that is not excepted and whose connection is open is sent
    the message, once. *)
Lemma foldl_deliver_open cs ss c s :
  NoDup cs → c ∈ cs → ss !! c = Some s →
  exceptWs ≠ Some c → readyState s = OPEN →
  foldl (deliver exceptWs msg) ss cs !! c = Some (push_sent msg s).
Proof.
  revert ss. induction cs as [|c' cs IH]; intros ss Hnd Hc Hs Hex Hopen.
  { by apply elem_of_nil in Hc. }
  apply NoDup_cons in Hnd as [Hc' Hnd]. simpl.
  destruct (decide (c = c')) as [<-|Hne].
  - rewrite foldl_deliver_notin by done.
    rewrite (deliver_lookup_eq _ _ _ Hs). by rewrite decide_True.
  - apply elem_of_cons in Hc as [?|Hc]; [done|].
    apply IH; try done. by rewrite deliver_lookup_ne.
Qed.

(** Nobody else is sent anything: not the excepted connection, not a
    connection that is not open, not a connection outside the list. *)
Lemma foldl_deliver_skip cs ss c s :
  ss !! c = Some s →
  c ∉ cs ∨ exceptWs = Some c ∨ readyState s ≠ OPEN →
  foldl (deliver exceptWs msg) ss cs !! c = Some s.
Proof.
  revert ss. induction cs as [|c' cs IH]; intros ss Hs Hwhy; [done|].
  simpl. apply IH.
  - destruct (decide (c = c')) as [<-|Hne].
    + rewrite (deliver_lookup_eq _ _ _ Hs). rewrite decide_False; [done|].
      destruct Hwhy as [Hc | [Hex | Hst]]; [|tauto|tauto].
      exfalso. apply Hc. by left.
    + by rewrite deliver_lookup_ne.
  - destruct Hwhy as [Hc | Hwhy]; [|by right].
    left. by apply not_elem_of_cons in Hc as [_ Hc].
Qed.

Lemma broadcast_rooms roomId w : rooms (broadcast roomId msg exceptWs w) = rooms w.
Proof. unfold broadcast. by destruct (rooms w !! roomId). Qed.

Lemma broadcast_heap roomId w : heap (broadcast roomId msg exceptWs w) = heap w.
Proof. unfold broadcast. by destruct (rooms w !! roomId). Qed.

End broadcast.

(** ** [handleMessage] *)

Lemma world_eta (w : world) : World (rooms w) (socks w) (heap w) = w.
Proof. by destruct w. Qed.

Section handleMessage.
Context (uuid : string) (now : Z) (roomObj : string) (client : ws).
Context (w : world) (r : room) (s : socket).
Hypothesis Hsession : session_ok w roomObj client r s.

(** The text of the operation that an ['op'] message broadcasts. *)
Lemma stringify_finalized j h r1 h1 :
  nullish j = false →
  pushOp uuid now (reify j h).1 r (reify j h).2 = Some (r1, h1) →
  stringify h1 (reify j h).1 = finalized_text uuid now j.
Proof.
  intros Hj Hpush. pose proof (pushOp_objs _ _ _ _ _ _ _ Hpush) as Hobjs.
  destruct j as [[| b | n | str | xs | kvs]|]; try done; simpl in *;
    unfold get_cell; rewrite Hobjs, lookup_insert_eq; simpl;
    unfold get_cell; simpl; rewrite lookup_insert_eq; done.
Qed.

Lemma handleMessage_op_throws payload :
  json_prop payload "op" = None ∨
  (∃ j, json_prop payload "op" = Some j ∧ nullish j = true) →
  handleMessage uuid now roomObj client (Some (JStr "op")) payload w = (Throw, w).
Proof.
  destruct Hsession as [Hr _ _ Hs]. unfold handleMessage. rewrite Hr, Hs. simpl.
  intros [-> | (j & -> & Hj)]; [done|].
  destruct j as [[]|]; try done; simpl; by rewrite world_eta.
Qed.

Lemma handleMessage_op_returns payload j :
  json_prop payload "op" = Some j → nullish j = false →
  ∃ r1 h1,
    pushOp uuid now (reify j (heap w)).1 r (reify j (heap w)).2 = Some (r1, h1) ∧
    handleMessage uuid now roomObj client (Some (JStr "op")) payload w =
      (Return (),
       World (<[roomObj := r1]> (rooms w))
             (foldl (deliver None
                       (envelope "op" (Some (obj [("op", finalized_text uuid now j)]))))
                    (socks w) (clients r))
             h1).
Proof.
  intros Hp Hj. destruct Hsession as [Hr Hid _ Hs].
  destruct (pushOp uuid now (reify j (heap w)).1 r (reify j (heap w)).2)
    as [[r1 h1]|] eqn:Hpush.
  2:{ apply eq_None_not_Some in Hpush. exfalso. apply Hpush.
      apply pushOp_is_Some. by rewrite reify_nullish. }
  exists r1, h1. split; [done|].
  pose proof (stringify_finalized j (heap w) r1 h1 Hj Hpush) as Htext.
  pose proof (pushOp_room _ _ _ _ _ _ _ Hpush) as (Hid1 & Hcl1 & _).
  unfold handleMessage. rewrite Hr, Hs. simpl. rewrite Hp.
  destruct (reify j (heap w)) as [op h0]; simpl in *. rewrite Hpush.
  f_equal. unfold broadcast, put_room; simpl.
  rewrite Hid1, Hid, lookup_insert_eq, Htext, Hcl1. done.
Qed.

Lemma handleMessage_undo payload :
  handleMessage uuid now roomObj client (Some (JStr "undo")) payload w =
    match undoLast now r (heap w) with
    | (Throw, h1) => (Throw, World (rooms w) (socks w) h1)
    | (Return None, h1) => (Return (), World (rooms w) (socks w) h1)
    | (Return (Some undoInfo), h1) =>
        (Return (),
         World (rooms w)
           (foldl (deliver None
              (envelope "op"
                (Some (obj [("op",
                   Some (obj [("type", Some (JStr "undo"));
                              ("targetOpId", targetOpId undoInfo);
                              ("ts", Some (JNum (undo_ts undoInfo)))]))]))))
              (foldl (deliver None
                 (envelope "undo"
                    (Some (obj [("targetOpId", targetOpId undoInfo);
                                ("ts", Some (JNum (undo_ts undoInfo)))]))))
                 (socks w) (clients r))
              (clients r))
           h1)
    end.
Proof.
  destruct Hsession as [Hr Hid _ Hs].
  unfold handleMessage. rewrite Hr, Hs. simpl.
  destruct (undoLast now r (heap w)) as [[[info|]|] h1]; try done.
  unfold broadcast; simpl. rewrite Hid, Hr. simpl. by rewrite Hr.
Qed.

Lemma handleMessage_redo payload :
  handleMessage uuid now roomObj client (Some (JStr "redo")) payload w =
    match redoLast now r (heap w) with
    | (None, h1) => (Return (), World (rooms w) (socks w) h1)
    | (Some redoInfo, h1) =>
        (Return (),
         World (rooms w)
           (foldl (deliver None
              (envelope "op"
                (Some (obj [("op",
                   Some (obj [("type", Some (JStr "redo"));
                              ("stroke", stringify h1 (stroke redoInfo));
                              ("ts", Some (JNum (redo_ts redoInfo)))]))]))))
              (foldl (deliver None
                 (envelope "redo"
                    (Some (obj [("stroke", stringify h1 (stroke redoInfo));
                                ("ts", Some (JNum (redo_ts redoInfo)))]))))
                 (socks w) (clients r))
              (clients r))
           h1)
    end.
Proof.
  destruct Hsession as [Hr Hid _ Hs].
  unfold handleMessage. rewrite Hr, Hs. simpl.
  destruct (redoLast now r (heap w)) as [[info|] h1]; try done.
  unfold broadcast; simpl. rewrite Hid, Hr. simpl. by rewrite Hr.
Qed.

Lemma handleMessage_stroke_part payload :
  handleMessage uuid now roomObj client (Some (JStr "stroke-part")) payload w =
    (Return (),
     World (rooms w)
           (foldl (deliver (Some client) (envelope "stroke-part" payload))
                  (socks w) (clients r))
           (heap w)).
Proof.
  destruct Hsession as [Hr Hid _ Hs].
  unfold handleMessage. rewrite Hr, Hs. simpl.
  unfold broadcast, put_room; simpl.
  rewrite Hid, lookup_insert_eq. by rewrite insert_id.
Qed.

Lemma handleMessage_request_state payload :
  handleMessage uuid now roomObj client (Some (JStr "request-state")) payload w =
    (Return (),
     World (rooms w)
           (send client (envelope "state" (Some (log_text r (heap w)))) (socks w))
           (getState r (heap w)).2).
Proof.
  destruct Hsession as [Hr Hid _ Hs].
  unfold handleMessage. rewrite Hr, Hs. simpl.
  unfold getState, alloc_arr; simpl. rewrite arr_set_arr_eq.
  reflexivity.
Qed.
End handleMessage.

(** ** Every state the server reaches is well-formed *)

Section world_ok.
Implicit Types (w : world) (r : room) (h : store) (ss : gmap ws socket).

Lemma room_arrays_in r l : l ∈ room_arrays r ↔ l = opLog r ∨ l = undoneStack r.
Proof.
  unfold room_arrays. rewrite elem_of_cons, list_elem_of_singleton. done.
Qed.

Lemma send_dom c text ss : dom (send c text ss) = dom ss.
Proof. unfold send. apply dom_alter_L. Qed.

Lemma deliver_dom ex text ss c : dom (deliver ex text ss c) = dom ss.
Proof.
  unfold deliver. case_decide; [done|].
  destruct (ss !! c); [|done]. case_decide; [apply send_dom | done].
Qed.

Lemma foldl_deliver_dom ex text cs ss : dom (foldl (deliver ex text) ss cs) = dom ss.
Proof.
  revert ss. induction cs as [|c cs IH]; intros ss; [done|].
  simpl. by rewrite IH, deliver_dom.
Qed.

Lemma broadcast_dom roomId msg ex w :
  dom (socks (broadcast roomId msg ex w)) = dom (socks w).
Proof.
  unfold broadcast. destruct (rooms w !! roomId); [|done].
  simpl. apply foldl_deliver_dom.
Qed.

(** A change of the connection objects that loses none keeps the world
    well-formed. *)
Lemma world_ok_socks w ss :
  world_ok w → dom (socks w) ⊆ dom ss → world_ok (World (rooms w) ss (heap w)).
Proof.
  intros [H1 H2 H3 H4 H5] Hdom. split; simpl; try done.
  intros k r c Hr Hc. apply elem_of_dom, Hdom. apply elem_of_dom.
  by apply (H3 k r).
Qed.

Lemma world_ok_broadcast roomId msg ex w :
  world_ok w → world_ok (broadcast roomId msg ex w).
Proof.
  intros Hok. rewrite <- (world_eta (broadcast roomId msg ex w)).
  rewrite broadcast_rooms, broadcast_heap.
  apply world_ok_socks; [done|]. by rewrite broadcast_dom.
Qed.

(** The room registered under [k] is replaced (or a room is registered
    under a free [k]): the new room is well-formed in the new heap, its
    arrays are those of the old room or new ones, and the arrays of the
    other rooms are as they were. *)
Lemma world_ok_update w k r1 ss1 h1 :
  let old := match rooms w !! k with Some r => room_arrays r | None => [] end in
  world_ok w →
  room_id r1 = k → NoDup (clients r1) →
  (∀ c, c ∈ clients r1 → is_Some (ss1 !! c)) →
  dom (socks w) ⊆ dom ss1 →
  room_ok r1 h1 →
  (∀ l, l ∈ room_arrays r1 → l ∈ old ∨ l ∉ dom (arrs (heap w))) →
  dom (arrs (heap w)) ⊆ dom (arrs h1) →
  dom (objs (heap w)) ⊆ dom (objs h1) →
  (∀ l, l ∈ dom (arrs (heap w)) → l ∉ old → arr h1 l = arr (heap w) l) →
  world_ok (World (<[k := r1]> (rooms w)) ss1 h1).
Proof.
  intros old [H1 H2 H3 H4 H5] Hid Hnd Hlive Hss Hok1 Harrs Hda Hdo Hframe.
  assert (∀ k' r' l, k' ≠ k → rooms w !! k' = Some r' →
            l ∈ room_arrays r' → l ∈ dom (arrs (heap w)) ∧ l ∉ old) as Hother.
  { intros k' r' l Hne Hr' Hl. split.
    - destruct (H4 k' r' Hr') as [Ha Hb _ _ _].
      apply room_arrays_in in Hl as [-> | ->]; done.
    - subst old. destruct (rooms w !! k) as [r|] eqn:Hr; [|apply not_elem_of_nil].
      by apply (H5 k' k r' r). }
  split; simpl.
  - intros k' r'. destruct (decide (k' = k)) as [-> | Hne].
    + rewrite lookup_insert_eq. by intros [= <-].
    + rewrite lookup_insert_ne by done. apply H1.
  - intros k' r'. destruct (decide (k' = k)) as [-> | Hne].
    + rewrite lookup_insert_eq. by intros [= <-].
    + rewrite lookup_insert_ne by done. apply H2.
  - intros k' r' c. destruct (decide (k' = k)) as [-> | Hne].
    + rewrite lookup_insert_eq. intros [= <-]. apply Hlive.
    + rewrite lookup_insert_ne by done. intros Hr' Hc.
      apply elem_of_dom, Hss. apply elem_of_dom. by apply (H3 k' r').
  - intros k' r'. destruct (decide (k' = k)) as [-> | Hne].
    + rewrite lookup_insert_eq. by intros [= <-].
    + rewrite lookup_insert_ne by done. intros Hr'.
      apply (room_ok_frame r' (heap w)); [by apply (H4 k') | done | | | done].
      * apply Hframe; apply (Hother k' r'); try done;
          apply room_arrays_in; by left.
      * apply Hframe; apply (Hother k' r'); try done;
          apply room_arrays_in; by right.
  - intros k1 k2 r1' r2' l Hne.
    destruct (decide (k1 = k)) as [-> | Hne1];
      destruct (decide (k2 = k)) as [-> | Hne2]; try done.
    + rewrite lookup_insert_eq, lookup_insert_ne by done.
      intros [= <-] Hr2 Hl Hl2.
      destruct (Hother k2 r2' l Hne2 Hr2 Hl2) as [Hin Hnot].
      destruct (Harrs l Hl); done.
    + rewrite lookup_insert_ne, lookup_insert_eq by done.
      intros Hr1 [= <-] Hl Hl2.
      destruct (Hother k1 r1' l Hne1 Hr1 Hl) as [Hin Hnot].
      destruct (Harrs l Hl2); done.
    + rewrite !lookup_insert_ne by done. by apply H5.
Qed.

(** What an action does to the heap outside the room it acts on. *)
Lemma act_frame now a r h :
  room_ok r h →
  let st' := act now a (r, h) in
  room_id st'.1 = room_id r ∧ clients st'.1 = clients r ∧
  room_ok st'.1 st'.2 ∧
  (∀ l, l ∈ room_arrays st'.1 → l ∈ room_arrays r ∨ l ∉ dom (arrs h)) ∧
  dom (arrs h) ⊆ dom (arrs st'.2) ∧
  dom (objs h) ⊆ dom (objs st'.2) ∧
  (∀ l, l ∈ dom (arrs h) → l ∉ room_arrays r → arr st'.2 l = arr h l).
Proof.
  intros Hok st'. pose proof (act_room_ok now a (r, h) Hok) as Hok'.
  fold st' in Hok'. subst st'.
  destruct a as [uuid j | |]; simpl in *.
  - pose proof (reify_arrs j h) as Harrs.
    pose proof (reify_objs_subseteq j h) as Hobjs. apply subseteq_dom in Hobjs.
    destruct (reify j h) as [op h0]; simpl in *.
    destruct (pushOp uuid now op r h0) as [[r1 h1]|] eqn:Hpush; simpl in *.
    + pose proof (pushOp_room _ _ _ _ _ _ _ Hpush) as (Hid & Hcl & Hl).
      pose proof (pushOp_stack_fresh _ _ _ _ _ _ _ Hpush) as Hfresh.
      pose proof (pushOp_dom_arrs _ _ _ _ _ _ _ Hpush) as Hdom.
      pose proof (pushOp_dom_objs _ _ _ _ _ _ _ Hpush) as Hdo.
      rewrite Harrs in Hfresh, Hdom.
      split_and!; [done | done | done | | | by etrans |].
      * intros l [-> | ->]%room_arrays_in.
        -- left. rewrite Hl. apply room_arrays_in. by left.
        -- by right.
      * rewrite Hdom. intros l Hin. rewrite !elem_of_union. auto.
      * intros l Hin Hnot.
        rewrite (pushOp_returns _ _ _ _ _ (pushOp_value _ _ _ _ _ _ _ Hpush)) in Hpush.
        injection Hpush as <- <-. simpl in *. unfold arr; simpl.
        rewrite lookup_insert_ne by (intros Heq; by rewrite <- Heq in Hin).
        unfold pushed_arrs. rewrite lookup_insert_ne, Harrs; [done|].
        intros <-. apply Hnot, room_arrays_in. by left.
    + split_and!; try done.
      * intros l Hl. by left.
      * by rewrite Harrs.
      * intros l _ _. unfold arr. by rewrite Harrs.
  - pose proof Hok as [H1 H2 _ _ _].
    split_and!; try done.
    + intros l Hl. by left.
    + by rewrite undoLast_dom_arrs.
    + by rewrite undoLast_objs.
    + intros l _ Hnot. apply undoLast_arr_other.
      * intros ->. apply Hnot, room_arrays_in. by left.
      * intros ->. apply Hnot, room_arrays_in. by right.
  - pose proof Hok as [H1 H2 _ _ _].
    split_and!; try done.
    + intros l Hl. by left.
    + by rewrite redoLast_dom_arrs.
    + by rewrite redoLast_objs.
    + intros l _ Hnot. apply redoLast_arr_other.
      * intros ->. apply Hnot, room_arrays_in. by left.
      * intros ->. apply Hnot, room_arrays_in. by right.
Qed.

(** An action on a registered room keeps the world well-formed. *)
Lemma world_ok_act now a w k r :
  world_ok w → rooms w !! k = Some r →
  world_ok (World (<[k := (act now a (r, heap w)).1]> (rooms w)) (socks w)
                  (act now a (r, heap w)).2).
Proof.
  intros Hok Hr. pose proof Hok as [H1 H2 H3 H4 H5].
  destruct (act_frame now a r (heap w) (H4 k r Hr))
    as (Hid & Hcl & Hok' & Harrs & Hda & Hdo & Hframe).
  apply world_ok_update; try done.
  - rewrite Hid. by apply H1.
  - rewrite Hcl. by apply (H2 k).
  - rewrite Hcl. intros c. by apply (H3 k).
  - by rewrite Hr.
  - by rewrite Hr.
Qed.

Lemma world_ok_same_room w k r ss h :
  world_ok w → rooms w !! k = Some r →
  dom (socks w) ⊆ dom ss →
  room_ok r h →
  dom (arrs (heap w)) ⊆ dom (arrs h) →
  dom (objs (heap w)) ⊆ dom (objs h) →
  (∀ l, l ∈ dom (arrs (heap w)) → l ∉ room_arrays r → arr h l = arr (heap w) l) →
  world_ok (World (rooms w) ss h).
Proof.
  intros Hok Hr Hss Hrok Hda Hdo Hframe. pose proof Hok as [H1 H2 H3 H4 H5].
  rewrite <- (insert_id (rooms w) k r Hr).
  apply world_ok_update; try done.
  - by apply H1.
  - by apply (H2 k).
  - intros c Hc. apply elem_of_dom, Hss. apply elem_of_dom. by apply (H3 k r).
  - rewrite Hr. intros l Hl. by left.
  - by rewrite Hr.
Qed.

Lemma handleMessage_world_ok uuid now k client type payload w :
  world_ok w → world_ok (handleMessage uuid now k client type payload w).2.
Proof.
  intros Hok. pose proof Hok as [H1 H2 H3 H4 H5]. unfold handleMessage.
  destruct (rooms w !! k) as [r|] eqn:Hr; [|done].
  destruct (socks w !! client) as [s|] eqn:Hs; [|done].
  destruct (type_is type "ping").
  { destruct (json_prop payload "ts"); [|done]. simpl.
    apply world_ok_socks; [done|]. by rewrite send_dom. }
  destruct (type_is type "meta").
  { destruct (json_prop payload "username"); [|done].
    destruct (json_prop payload "color"); [|done]. simpl.
    apply world_ok_broadcast, world_ok_socks; [done|].
    rewrite dom_insert_L. apply union_subseteq_r. }
  destruct (type_is type "stroke-part").
  { simpl. apply world_ok_broadcast. unfold put_room.
    rewrite insert_id by done. by rewrite world_eta. }
  destruct (type_is type "op").
  { destruct (json_prop payload "op") as [j|]; [|done].
    pose proof (world_ok_act now (Commit uuid j) w k r Hok Hr) as Hact.
    simpl in Hact. destruct (reify j (heap w)) as [op h0].
    destruct (pushOp uuid now op r h0) as [[r1 h1]|]; simpl in *.
    - by apply world_ok_broadcast.
    - by rewrite insert_id in Hact. }
  destruct (type_is type "undo").
  { pose proof (world_ok_act now Undo w k r Hok Hr) as Hact.
    simpl in Hact. rewrite insert_id in Hact by done.
    destruct (undoLast now r (heap w)) as [[[info|]|] h1]; simpl in *; try done.
    by do 2 apply world_ok_broadcast. }
  destruct (type_is type "redo").
  { pose proof (world_ok_act now Redo w k r Hok Hr) as Hact.
    simpl in Hact. rewrite insert_id in Hact by done.
    destruct (redoLast now r (heap w)) as [[info|] h1]; simpl in *; try done.
    by do 2 apply world_ok_broadcast. }
  destruct (type_is type "cursor").
  { destruct (json_prop payload "x"); [|done].
    destruct (json_prop payload "y"); [|done]. simpl.
    by apply world_ok_broadcast. }
  destruct (type_is type "request-state"); [|done].
  pose proof (H4 k r Hr) as Hrok. pose proof Hrok as [Hl Hst _ _ _].
  simpl. apply (world_ok_same_room w k r _ _ Hok Hr).
  - by rewrite send_dom.
  - by apply (getState_room_ok r (heap w)).
  - rewrite dom_set_arr. apply union_subseteq_r.
  - done.
  - intros l Hin _. by apply (arr_alloc_old _ (heap w)).
Qed.

Lemma on_message_world_ok uuid now k client msg w :
  world_ok w → world_ok (on_message uuid now k client msg w).
Proof.
  intros Hok. unfold on_message. destruct msg as [j|]; [|done].
  destruct (json_prop (Some j) "type"); [|done].
  destruct (json_prop (Some j) "payload"); [|done].
  by apply handleMessage_world_ok.
Qed.

Lemma on_close_world_ok k client w : world_ok w → world_ok (on_close k client w).
Proof.
  intros Hok. pose proof Hok as [H1 H2 H3 H4 H5]. unfold on_close.
  destruct (rooms w !! k) as [r|] eqn:Hr; [|done].
  destruct (socks w !! client) as [s|] eqn:Hs; [|done].
  do 2 apply world_ok_broadcast.
  apply world_ok_update; simpl; try done.
  - by apply H1.
  - apply NoDup_filter. by apply (H2 k).
  - intros c [_ Hc]%list_elem_of_filter. by apply (H3 k r).
  - destruct (H4 k r Hr). by split.
  - rewrite Hr. intros l Hl. by left.
Qed.

Lemma getOrCreate_world_ok k w :
  world_ok w →
  world_ok (getOrCreate k w).2 ∧
  rooms (getOrCreate k w).2 !! k = Some (getOrCreate k w).1 ∧
  socks (getOrCreate k w).2 = socks w.
Proof.
  intros Hok. unfold getOrCreate.
  destruct (rooms w !! k) as [r|] eqn:Hr; [done|].
  pose proof (createRoom_ok k (heap w)) as Hrok.
  pose proof (createRoom_empty k (heap w)) as [Hlog Hstk].
  destruct (createRoom k (heap w)) as [r h] eqn:Hc. simpl in *.
  split_and!; [| by rewrite lookup_insert_eq | done].
  unfold createRoom, alloc_arr in Hc. simpl in Hc. injection Hc as <- <-.
  set (lg := fresh (dom (arrs (heap w)))) in *.
  set (st := fresh (dom (arrs (set_arr lg [] (heap w))))) in *.
  assert (lg ∉ dom (arrs (heap w))) as Hlg by apply is_fresh.
  assert (st ∉ dom (arrs (heap w))) as Hst.
  { intros Hin. apply (is_fresh (dom (arrs (set_arr lg [] (heap w))))).
    fold st. rewrite dom_set_arr, elem_of_union. by right. }
  apply world_ok_update; simpl; try done.
  - constructor.
  - intros c Hc. by apply elem_of_nil in Hc.
  - intros l [-> | ->]%room_arrays_in; by right.
  - rewrite !dom_insert_L. intros l Hin. rewrite !elem_of_union. auto.
  - intros l Hin _. unfold arr; simpl.
    rewrite !lookup_insert_ne; [done | |]; intros <-; done.
Qed.

Lemma join_facts client r ss r1 ss1 :
  join client r ss = (r1, ss1) →
  room_id r1 = room_id r ∧ opLog r1 = opLog r ∧ undoneStack r1 = undoneStack r ∧
  (∀ c, c ∈ clients r1 → c ∈ clients r ∨ c = client) ∧
  (NoDup (clients r) → NoDup (clients r1)) ∧
  dom ss1 = dom ss.
Proof.
  unfold join. intros [= <- <-]. simpl. split_and!; try done.
  - intros c Hc. case_decide; [by left|].
    apply elem_of_app in Hc as [?|?%list_elem_of_singleton]; auto.
  - intros Hnd. case_decide; [done|].
    apply NoDup_app. split_and!; [done | | apply NoDup_singleton].
    intros c Hc ->%list_elem_of_singleton. done.
  - apply foldl_deliver_dom.
Qed.

Lemma on_connection_world_ok client state uid k uname ucolor w :
  world_ok w → world_ok (on_connection client state uid k uname ucolor w).
Proof.
  intros Hok. unfold on_connection.
  destruct (getOrCreate_world_ok k w Hok) as (Hok1 & Hr & Hss).
  destruct (getOrCreate k w) as [r w1]. simpl in Hok1, Hr, Hss.
  pose proof Hok1 as [H1 H2 H3 H4 H5].
  set (s := Socket uid _ _ state []).
  destruct (join client r (<[client:=s]> (socks w1))) as [r1 ss] eqn:Hjoin.
  destruct (join_facts _ _ _ _ _ Hjoin) as (Hid & Hlg & Hst & Hcl & Hnd & Hdss).
  assert (dom (socks w1) ⊆ dom ss) as Hdom.
  { rewrite Hdss, dom_insert_L. apply union_subseteq_r. }
  assert (room_ok r1 (heap w1)) as Hrok.
  { destruct (H4 k r Hr). split; unfold log_of, stack_of in *;
      rewrite ?Hlg, ?Hst; done. }
  assert (world_ok (World (<[k := r1]> (rooms w1)) ss (heap w1))) as Hok2.
  { apply world_ok_update; simpl; try done.
    - rewrite Hid. by apply H1.
    - by apply Hnd, (H2 k).
    - intros c Hc. apply elem_of_dom.
      destruct (Hcl c Hc) as [Hin | ->].
      + apply Hdom. apply elem_of_dom. by apply (H3 k r).
      + rewrite Hdss, dom_insert_L, elem_of_union. left.
        by apply elem_of_singleton.
    - rewrite Hr. intros l [-> | ->]%room_arrays_in; left;
        apply room_arrays_in; rewrite ?Hlg, ?Hst; auto. }
  case_decide; [|done].
  destruct (getState r1 (heap w1)) as [snap h1] eqn:Hg.
  assert (h1 = (getState r1 (heap w1)).2) as -> by by rewrite Hg.
  apply (world_ok_same_room (World (<[k:=r1]> (rooms w1)) ss (heap w1)) k r1 _ _ Hok2);
    simpl.
  - by rewrite lookup_insert_eq.
  - by rewrite !send_dom.
  - by apply (getState_room_ok r1 (heap w1)).
  - rewrite dom_insert_L. apply union_subseteq_r.
  - done.
  - intros l Hin _. by apply (arr_alloc_old _ (heap w1)).
Qed.

Lemma empty_world_ok : world_ok empty_world.
Proof. split; simpl; intros *; by rewrite ?lookup_empty. Qed.

Lemma step_world_ok w e : world_ok w → world_ok (step w e).
Proof.
  intros Hok. destruct e; simpl.
  - by apply on_connection_world_ok.
  - by apply on_message_world_ok.
  - by apply on_close_world_ok.
  - apply world_ok_socks; [done|]. unfold set_readyState. by rewrite dom_alter_L.
Qed.

(** Every state that the server reaches is well-formed.  So the hypotheses
    [room_ok] and [session_ok] under which the claims are proved hold of
    every room and of every connection object of such a state. *)
Lemma serve_world_ok evs : world_ok (serve evs).
Proof.
  unfold serve. induction evs as [|e evs IH] using rev_ind.
  - apply empty_world_ok.
  - rewrite foldl_app. simpl. by apply step_world_ok.
Qed.


End world_ok.

(** ** Runs *)

Section runs.
Implicit Types (r : room) (h : store) (st : room * store) (evs : list (Z * action)).

Lemma run_app evs1 evs2 st : run (evs1 ++ evs2) st = run evs2 (run evs1 st).
Proof. unfold run. apply foldl_app. Qed.

Lemma run_snoc evs e st : run (evs ++ [e]) st = act e.1 e.2 (run evs st).
Proof. by rewrite run_app. Qed.

Lemma run_commit_snoc (cs : list submission) (c : submission) st :
  run (commit_of <$> cs ++ [c]) st =
    act (at_time c) (Commit (fresh_uuid c) (body c)) (run (commit_of <$> cs) st).
Proof. by rewrite fmap_app, run_app. Qed.

Lemma stringify_objs h h' v : objs h = objs h' → stringify h v = stringify h' v.
Proof. intros Ho. destruct v; try done. unfold stringify, get_cell. by rewrite Ho. Qed.

Lemma read_objs h h' v k : objs h = objs h' → read h v k = read h' v k.
Proof.
  intros Ho. destruct v; try done. unfold read, get_prop, get_cell. by rewrite Ho.
Qed.

(** What an accepted commit leaves: the operation at the end of the log,
    an empty stack, two distinct arrays. *)
Lemma act_commit_accepted now uuid j st :
  nullish j = false →
  let st' := act now (Commit uuid j) st in
  pushOp uuid now (reify j st.2).1 st.1 (reify j st.2).2 = Some st' ∧
  log_of st'.1 st'.2 = log_of st.1 st.2 ++ [(reify j st.2).1] ∧
  stack_of st'.1 st'.2 = [] ∧
  opLog st'.1 ≠ undoneStack st'.1 ∧
  nullish_value (reify j st.2).1 = false.
Proof.
  intros Hj. destruct st as [r h]; simpl.
  pose proof (reify_nullish j h) as Hnull. rewrite Hj in Hnull.
  pose proof (reify_arrs j h) as Harrs.
  destruct (reify j h) as [op h0]; simpl in *.
  destruct (pushOp uuid now op r h0) as [[r1 h1]|] eqn:Hpush.
  2:{ apply eq_None_not_Some in Hpush. exfalso. apply Hpush.
      by apply pushOp_is_Some. }
  simpl. split_and!; [done | | | | done].
  - rewrite (pushOp_log _ _ _ _ _ _ _ Hpush). unfold log_of, arr.
    by rewrite Harrs.
  - by eapply pushOp_stack.
  - by eapply pushOp_distinct.
Qed.

Lemma act_commit_rejected now uuid j st :
  nullish j = true → act now (Commit uuid j) st = st.
Proof. destruct st as [r h]. by destruct j as [[]|]. Qed.
End runs.

(** ** One room at a time *)

Section one_room.
Implicit Types (w : world) (r : room) (h : store).

(** What a message does to the rooms and to the heap: the action it asks
    of the room it is addressed to, nothing, or the allocation of a
    snapshot. *)
Lemma handleMessage_effect uuid now k client type payload w r s :
  rooms w !! k = Some r → socks w !! client = Some s →
  let w' := (handleMessage uuid now k client type payload w).2 in
  (∃ a, message_action uuid type payload = Some a ∧
        rooms w' = <[k := (act now a (r, heap w)).1]> (rooms w) ∧
        heap w' = (act now a (r, heap w)).2) ∨
  (rooms w' = rooms w ∧ heap w' = heap w) ∨
  (rooms w' = rooms w ∧ heap w' = (getState r (heap w)).2).
Proof.
  intros Hr Hs. unfold handleMessage, message_action. rewrite Hr, Hs.
  destruct (type_is type "ping").
  { destruct (json_prop payload "ts"); right; left; done. }
  destruct (type_is type "meta").
  { right; left. destruct (json_prop payload "username"); [|done].
    destruct (json_prop payload "color"); [|done]. simpl.
    by rewrite broadcast_rooms, broadcast_heap. }
  destruct (type_is type "stroke-part").
  { right; left. simpl. rewrite broadcast_rooms, broadcast_heap. simpl.
    by rewrite insert_id. }
  destruct (type_is type "op").
  { destruct (json_prop payload "op") as [j|]; [|right; left; done].
    left. exists (Commit uuid j). split; [done|]. simpl.
    destruct (reify j (heap w)) as [op h0].
    destruct (pushOp uuid now op r h0) as [[r1 h1]|]; simpl.
    - by rewrite broadcast_rooms, broadcast_heap.
    - by rewrite insert_id. }
  destruct (type_is type "undo").
  { left. exists Undo. split; [done|]. simpl. rewrite insert_id by done.
    destruct (undoLast now r (heap w)) as [[[info|]|] h1]; simpl; try done.
    by rewrite !broadcast_rooms, !broadcast_heap. }
  destruct (type_is type "redo").
  { left. exists Redo. split; [done|]. simpl. rewrite insert_id by done.
    destruct (redoLast now r (heap w)) as [[info|] h1]; simpl; try done.
    by rewrite !broadcast_rooms, !broadcast_heap. }
  destruct (type_is type "cursor").
  { right; left. destruct (json_prop payload "x"); [|done].
    destruct (json_prop payload "y"); [|done]. simpl.
    by rewrite broadcast_rooms, broadcast_heap. }
  destruct (type_is type "request-state"); [|right; left; done].
  right; right. done.
Qed.

(** A heap that differs from another by new arrays only. *)
Lemma allocs_refl h : allocs h h.
Proof. by split. Qed.

Lemma allocs_trans h1 h2 h3 : allocs h1 h2 → allocs h2 h3 → allocs h1 h3.
Proof.
  intros (Ho1 & Hd1 & Ha1) (Ho2 & Hd2 & Ha2). split_and!.
  - by rewrite Ho2.
  - by etrans.
  - intros l Hl. rewrite Ha2 by by apply Hd1. by apply Ha1.
Qed.

Lemma allocs_alloc_arr xs h : allocs h (alloc_arr xs h).2.
Proof.
  split_and!; [done | |].
  - unfold alloc_arr; simpl. rewrite dom_insert_L. apply union_subseteq_r.
  - intros l Hl. by apply arr_alloc_old.
Qed.

Lemma allocs_createRoom i h : allocs h (createRoom i h).2.
Proof.
  unfold createRoom. rewrite (alloc_arr_eq [] h).
  rewrite (alloc_arr_eq [] (set_arr _ _ _)). simpl.
  eapply allocs_trans; [apply (allocs_alloc_arr [] h)|].
  apply (allocs_alloc_arr [] (alloc_arr [] h).2).
Qed.

Lemma same_room_allocs r r' h h' :
  room_ok r h → opLog r' = opLog r → undoneStack r' = undoneStack r →
  allocs h h' → same_room r h r' h'.
Proof.
  intros [Hl Hs _ _ _] Hlg Hst (Ho & Hd & Ha).
  split_and!; [done | done | | |].
  - unfold log_of. rewrite Hlg. by apply Ha.
  - unfold stack_of. rewrite Hst. by apply Ha.
  - intros v _. split; [by apply stringify_objs | intros key; by apply read_objs].
Qed.

(** An object that is there before an action is the same after it. *)
Lemma act_objs_stable now a st l :
  l ∈ dom (objs st.2) → objs (act now a st).2 !! l = objs st.2 !! l.
Proof.
  destruct st as [r h]; simpl. intros Hl. destruct a as [uuid j | |]; simpl.
  - pose proof (reify_objs_subseteq j h) as Hsub.
    pose proof (reify_ref_fresh j h) as Hfresh.
    apply elem_of_dom in Hl as [c Hc].
    pose proof (lookup_weaken _ _ _ _ Hc Hsub) as Hc0.
    destruct (reify j h) as [op h0]; simpl in *.
    destruct (pushOp uuid now op r h0) as [[r1 h1]|] eqn:Hpush; simpl;
      [|by rewrite Hc, Hc0].
    rewrite (pushOp_objs _ _ _ _ _ _ _ Hpush), Hc, <- Hc0.
    destruct op as [| | | | | l0]; try done. simpl.
    apply lookup_insert_ne. intros <-. apply (Hfresh l0 eq_refl).
    apply elem_of_dom. eauto.
  - by rewrite undoLast_objs.
  - by rewrite redoLast_objs.
Qed.

(** An action on a room is not seen from a room that shares no array
    with it. *)
Lemma same_room_act now a r2 r h :
  room_ok r h → room_ok r2 h →
  (∀ l, l ∈ room_arrays r → l ∉ room_arrays r2) →
  same_room r h r (act now a (r2, h)).2.
Proof.
  intros Hok Hok2 Hapart. pose proof Hok as [Hl Hs _ _ _].
  destruct (act_frame now a r2 h Hok2) as (_ & _ & _ & _ & _ & _ & Hframe).
  split_and!; [done | done | | |].
  - apply Hframe; [done|]. apply Hapart, room_arrays_in. by left.
  - apply Hframe; [done|]. apply Hapart, room_arrays_in. by right.
  - intros v Hv.
    assert (∀ l, v = VRef l →
              objs (act now a (r2, h)).2 !! l = objs h !! l) as Hsame.
    { intros l ->. by apply (act_objs_stable now a (r2, h)). }
    destruct v as [| | | | | l]; try done.
    unfold stringify, read, get_prop, get_cell. by rewrite (Hsame l eq_refl).
Qed.

Lemma on_connection_effect client state uid k' uname ucolor w k r :
  rooms w !! k = Some r →
  let w' := on_connection client state uid k' uname ucolor w in
  allocs (heap w) (heap w') ∧
  ∃ r', rooms w' !! k = Some r' ∧
        opLog r' = opLog r ∧ undoneStack r' = undoneStack r.
Proof.
  intros Hr. unfold on_connection.
  assert (allocs (heap w) (heap (getOrCreate k' w).2) ∧
          rooms (getOrCreate k' w).2 !! k' = Some (getOrCreate k' w).1 ∧
          rooms (getOrCreate k' w).2 !! k = Some r) as (Ha & Hk' & Hk).
  { unfold getOrCreate. destruct (rooms w !! k') as [r0|] eqn:Hr0.
    - split_and!; [apply allocs_refl | done | done].
    - pose proof (allocs_createRoom k' (heap w)) as Hal.
      destruct (createRoom k' (heap w)) as [r0 h0]. simpl in *.
      split_and!; [done | by rewrite lookup_insert_eq |].
      rewrite lookup_insert_ne; [done|]. intros ->. congruence. }
  destruct (getOrCreate k' w) as [r0 w1]. simpl in Ha, Hk', Hk.
  set (s := Socket uid _ _ state []).
  destruct (join client r0 (<[client:=s]> (socks w1))) as [r1 ss] eqn:Hjoin.
  destruct (join_facts _ _ _ _ _ Hjoin) as (_ & Hlg & Hst & _).
  assert (∃ r', <[k':=r1]> (rooms w1) !! k = Some r' ∧
                opLog r' = opLog r ∧ undoneStack r' = undoneStack r) as Hroom.
  { destruct (decide (k' = k)) as [-> | Hne].
    - rewrite lookup_insert_eq. exists r1. split; [done|].
      rewrite Hk in Hk'. injection Hk' as <-. done.
    - rewrite lookup_insert_ne by done. eauto. }
  case_decide; [|done].
  pose proof (allocs_alloc_arr (arr (heap w1) (opLog r1)) (heap w1)) as Hal.
  unfold getState. destruct (alloc_arr _ (heap w1)) as [snap h1]. simpl in *.
  split; [by eapply allocs_trans | done].
Qed.

(** An event that is not a message addressed to room [k] leaves the log
    and the stack of [k], and what their entries read and print as, as
    they are.  So the log of a room changes only by the messages that are
    addressed to it, and on these [handleMessage] is [act]. *)
Lemma step_keeps_room w e k r :
  world_ok w → rooms w !! k = Some r → ¬ addressed_to k e →
  ∃ r', rooms (step w e) !! k = Some r' ∧
        same_room r (heap w) r' (heap (step w e)).
Proof.
  intros Hok Hr Hnot. pose proof Hok as [H1 H2 H3 H4 H5].
  pose proof (H4 k r Hr) as Hrok.
  assert (same_room r (heap w) r (heap w)) as Hsame.
  { apply same_room_allocs; [done | done | done | apply allocs_refl]. }
  destruct e as [client state uid k' uname ucolor | uuid now k' client msg
                | k' client | client state]; simpl in *.
  - destruct (on_connection_effect client state uid k' uname ucolor w k r Hr)
      as (Ha & r' & Hr' & Hlg & Hst).
    exists r'. split; [done|]. by apply same_room_allocs.
  - assert (k' ≠ k) as Hne by (intros ->; by apply Hnot).
    unfold on_message. exists r.
    destruct msg as [j|]; [|done].
    destruct (json_prop (Some j) "type") as [type|]; [|done].
    destruct (json_prop (Some j) "payload") as [payload|]; [|done].
    destruct (rooms w !! k') as [r2|] eqn:Hr2;
      [|unfold handleMessage; by rewrite Hr2].
    destruct (socks w !! client) as [s|] eqn:Hs;
      [|unfold handleMessage; by rewrite Hr2, Hs].
    destruct (handleMessage_effect uuid now k' client type payload w r2 s Hr2 Hs)
      as [(a & _ & -> & ->) | [(-> & ->) | (-> & ->)]].
    + rewrite lookup_insert_ne by done. split; [done|].
      apply same_room_act; [done | by apply (H4 k') |].
      intros l. by apply (H5 k k' r r2).
    + done.
    + split; [done|].
      apply same_room_allocs; [done | done | done | apply allocs_alloc_arr].
  - unfold on_close.
    destruct (rooms w !! k') as [r2|] eqn:Hr2; [|eauto].
    destruct (socks w !! client) as [s|] eqn:Hs; [|eauto].
    rewrite !broadcast_rooms, !broadcast_heap. simpl.
    destruct (decide (k' = k)) as [-> | Hne].
    + rewrite lookup_insert_eq. eexists. split; [done|].
      rewrite Hr in Hr2. injection Hr2 as <-.
      apply same_room_allocs; [done | done | done | apply allocs_refl].
    + rewrite lookup_insert_ne by done. eauto.
  - eauto.
Qed.
End one_room.

(** On the room and the heap, the handler of a log-changing message does
    what [act] does. *)
Lemma handleMessage_act (uuid : string) (now : Z) (roomObj : string) (client : ws)
    (w : world) (r : room) (s : socket) (a : action) (type payload : option json) :
  session_ok w roomObj client r s →
  match a with
  | Commit u j =>
      u = uuid ∧ type = Some (JStr "op") ∧ json_prop payload "op" = Some j
  | Undo => type = Some (JStr "undo")
  | Redo => type = Some (JStr "redo")
  end →
  let w' := (handleMessage uuid now roomObj client type payload w).2 in
  rooms w' !! roomObj = Some (act now a (r, heap w)).1 ∧
  heap w' = (act now a (r, heap w)).2.
Proof.
  intros Hsession. destruct a as [u j | |].
  - intros (-> & -> & Hp). destruct (nullish j) eqn:Hj.
    + rewrite (handleMessage_op_throws _ _ _ _ _ r s) by eauto.
      rewrite act_commit_rejected by done. by destruct Hsession.
    + destruct (handleMessage_op_returns uuid now roomObj client w r s Hsession
                  payload j Hp Hj) as (r1 & h1 & Hpush & ->).
      simpl. destruct (reify j (heap w)) as [op h0]; simpl in *.
      rewrite Hpush. simpl. by rewrite lookup_insert_eq.
  - intros ->. rewrite (handleMessage_undo _ _ _ _ _ r s) by done. simpl.
    destruct Hsession as [Hr _ _ _].
    by destruct (undoLast now r (heap w)) as [[[info|]|] h1].
  - intros ->. rewrite (handleMessage_redo _ _ _ _ _ r s) by done. simpl.
    destruct Hsession as [Hr _ _ _].
    by destruct (redoLast now r (heap w)) as [[info|] h1].
Qed.

(** ** The claims about undo and redo *)

(** C2.  From any room state, after N >= 1 accepted commits, one undo
    followed by one redo gives back the log as it was after the commits:
    the same operation objects in the same order, with the same content
    (no object of the heap is changed, so the text of the log is the
    same).  The undo does return the last operation's id and the redo does
    return that operation. *)
Theorem C2_undo_redo_round_trip (r : room) (h : store) (cs : list submission)
    (now1 now2 : Z) :
  cs ≠ [] →
  Forall (λ c, nullish (body c) = false) cs →
  let st := run (commit_of <$> cs) (r, h) in
  ∃ xs op h2 h3,
    log_of st.1 st.2 = xs ++ [op] ∧
    undoLast now1 st.1 st.2 = (Return (Some (UndoInfo (read st.2 op "opId") now1)), h2) ∧
    log_of st.1 h2 = xs ∧
    redoLast now2 st.1 h2 = (Some (RedoInfo op now2), h3) ∧
    log_of st.1 h3 = log_of st.1 st.2 ∧
    objs h3 = objs st.2 ∧
    log_text st.1 h3 = log_text st.1 st.2.
Proof.
  intros Hne Hall st.
  destruct (list_empty_or_snoc cs) as [-> | (cs' & c & ->)]; [done|].
  apply Forall_app in Hall as [_ Hc]. rewrite Forall_singleton in Hc.
  subst st. rewrite run_commit_snoc.
  set (st0 := run (commit_of <$> cs') (r, h)).
  destruct (act_commit_accepted (at_time c) (fresh_uuid c) (body c) st0 Hc)
    as (_ & Hlog & Hstk & Hd & Hv).
  set (st1 := act (at_time c) (Commit (fresh_uuid c) (body c)) st0) in *.
  set (op := (reify (body c) st0.2).1) in *.
  destruct (undoLast_moves now1 st1.1 st1.2 _ _ Hd Hlog) as [Hl2 Hs2].
  pose proof (undoLast_snoc now1 st1.1 st1.2 _ _ Hlog) as Hundo.
  set (h2 := (undoLast now1 st1.1 st1.2).2) in *.
  rewrite Hstk in Hs2. simpl in Hs2.
  destruct (redoLast_moves now2 st1.1 h2 [] op Hd Hs2) as [Hs3 Hl3].
  pose proof (redoLast_snoc now2 st1.1 h2 [] op Hs2) as Hredo.
  set (h3 := (redoLast now2 st1.1 h2).2) in *.
  assert (objs h3 = objs st1.2) as Hobjs.
  { unfold h3, h2. by rewrite redoLast_objs, undoLast_objs. }
  exists (log_of st0.1 st0.2), op, h2, h3. split_and!.
  - done.
  - unfold h2. rewrite Hundo. simpl. unfold read.
    destruct (get_prop st1.2 op "opId") eqn:E; [done|].
    apply get_prop_nullish in E. congruence.
  - done.
  - unfold h3. by rewrite Hredo.
  - by rewrite Hl3, Hl2.
  - done.
  - unfold log_text, stringify_array. rewrite Hl3, Hl2, <- Hlog. f_equal.
    apply map_ext. intros v. f_equal. by apply stringify_objs.
Qed.

(** C3.  An accepted commit leaves the undo/redo stack empty, whatever it
    held.  So a commit made after an undo is followed by a [redoLast] that
    returns [null] and changes nothing, and the ['redo'] message it came in
    is answered with no broadcast: the state of the server, the sent
    messages included, is the same after as before. *)
Theorem C3_commit_invalidates_redo (st : room * store) (now0 now1 now2 : Z)
    (uuid : string) (j : option json) :
  nullish j = false →
  let st1 := act now0 Undo st in
  let st2 := act now1 (Commit uuid j) st1 in
  stack_of (act now1 (Commit uuid j) st).1 (act now1 (Commit uuid j) st).2 = [] ∧
  stack_of st2.1 st2.2 = [] ∧
  redoLast now2 st2.1 st2.2 = (None, st2.2) ∧
  ∀ (w : world) (roomObj : string) (client : ws) (s : socket) (u : string)
    (payload : option json),
    session_ok w roomObj client st2.1 s → heap w = st2.2 →
    handleMessage u now2 roomObj client (Some (JStr "redo")) payload w = (Return (), w).
Proof.
  intros Hj st1 st2.
  destruct (act_commit_accepted now1 uuid j st Hj) as (_ & _ & Hs0 & _).
  destruct (act_commit_accepted now1 uuid j st1 Hj) as (_ & _ & Hs & _).
  fold st2 in Hs. split_and!; [done | done | by apply redoLast_empty |].
  intros w roomObj client s u payload Hsess Hheap.
  rewrite (handleMessage_redo u now2 roomObj client w st2.1 s Hsess).
  rewrite Hheap, redoLast_empty by done. rewrite <- Hheap. by rewrite world_eta.
Qed.

Lemma undoLast_ok_returns now r h :
  room_ok r h →
  ∃ res, undoLast now r h = (Return res, (undoLast now r h).2).
Proof.
  intros [_ _ _ Hent _].
  destruct (list_empty_or_snoc (log_of r h)) as [E | (xs & x & E)].
  - rewrite undoLast_empty by done. eauto.
  - rewrite (undoLast_snoc _ _ _ _ _ E). simpl.
    rewrite E in Hent. apply Forall_app in Hent as [_ Hx].
    rewrite Forall_singleton in Hx. apply entry_ok_value in Hx.
    destruct (get_prop h x "opId") eqn:Eg; [eauto|].
    apply get_prop_nullish in Eg. congruence.
Qed.

Lemma undo_times_spec nows r h :
  room_ok r h →
  (undo_times nows r h).1 = false ∧
  room_ok r (undo_times nows r h).2 ∧
  log_of r (undo_times nows r h).2 =
    take (length (log_of r h) - length nows) (log_of r h).
Proof.
  revert h. induction nows as [|now nows IH]; intros h Hok; simpl.
  { split_and!; [done | done |]. rewrite Nat.sub_0_r. by rewrite firstn_all. }
  destruct (undoLast_ok_returns now r h Hok) as [res Hres].
  pose proof (undoLast_room_ok now r h Hok) as Hok1.
  rewrite Hres. destruct (IH _ Hok1) as (H1 & H2 & H3).
  split_and!; [done | done |]. rewrite H3.
  destruct (list_empty_or_snoc (log_of r h)) as [E | (xs & x & E)].
  - rewrite undoLast_empty by done. simpl. by rewrite E.
  - pose proof Hok as [_ _ Hd _ _].
    destruct (undoLast_moves now r h xs x Hd E) as [-> _].
    rewrite E, length_app. simpl.
    replace (length xs + 1 - S (length nows))%nat
      with (length xs - length nows)%nat by lia.
    rewrite take_app_le by lia. done.
Qed.

(** C5.  In a well-formed room, as is every room of every state that the
    server reaches, calls of undo never throw, however many there are:
    each call on a non-empty log returns the id of the last operation and
    removes exactly that operation, a call on an empty log returns [null]
    and changes nothing, and after [n] calls the log is what is left of it
    without its last [n] operations, the empty log when [n] is its length
    or more.  An ['undo'] message that finds the log empty is
    answered with no broadcast: the state of the server is unchanged. *)
Theorem C5_undo_is_bounded (r : room) (h : store) (nows : list Z) (now : Z) :
  room_ok r h →
  (undo_times nows r h).1 = false ∧
  log_of r (undo_times nows r h).2 =
    take (length (log_of r h) - length nows) (log_of r h) ∧
  (length (log_of r h) ≤ length nows → log_of r (undo_times nows r h).2 = [])%nat ∧
  (∀ xs x, log_of r h = xs ++ [x] →
     undoLast now r h =
       (Return (Some (UndoInfo (read h x "opId") now)), (undoLast now r h).2) ∧
     log_of r (undoLast now r h).2 = xs) ∧
  (log_of r h = [] →
     undoLast now r h = (Return None, h) ∧
     ∀ (w : world) (roomObj : string) (client : ws) (s : socket) (u : string)
       (payload : option json),
       session_ok w roomObj client r s → heap w = h →
       handleMessage u now roomObj client (Some (JStr "undo")) payload w
         = (Return (), w)).
Proof.
  intros Hok. destruct (undo_times_spec nows r h Hok) as (H1 & _ & H3).
  split_and!; [done | done | | |].
  - intros Hle. rewrite H3.
    replace (length (log_of r h) - length nows)%nat with 0%nat by lia. done.
  - intros xs x E. pose proof Hok as [_ _ Hd Hent _].
    destruct (undoLast_moves now r h xs x Hd E) as [Hl _]. split; [|done].
    rewrite (undoLast_snoc _ _ _ _ _ E). simpl. unfold read.
    rewrite E in Hent. apply Forall_app in Hent as [_ Hx].
    rewrite Forall_singleton in Hx. apply entry_ok_value in Hx.
    destruct (get_prop h x "opId") eqn:Eg; [done|].
    apply get_prop_nullish in Eg. congruence.
  - intros E. split; [by apply undoLast_empty|].
    intros w roomObj client s u payload Hsess Hheap.
    rewrite (handleMessage_undo u now roomObj client w r s Hsess).
    rewrite Hheap, undoLast_empty by done. rewrite <- Hheap. by rewrite world_eta.
Qed.

(** C10.  In a well-formed room, as is every room of every state that the
    server reaches, undo and redo conserve the operations:
    the log and the stack taken together hold the same operations before
    and after (as a multiset, hence the same number), no object of the heap
    is created, changed or lost, a successful undo moves exactly the last
    operation of the log to the top of the stack, a successful redo moves
    exactly the top of the stack to the end of the log, and an undo on an
    empty log or a redo on an empty stack changes nothing. *)
Theorem C10_undo_redo_conserve (now : Z) (r : room) (h : store) :
  room_ok r h →
  let hu := (undoLast now r h).2 in
  let hr := (redoLast now r h).2 in
  log_of r hu ++ stack_of r hu ≡ₚ log_of r h ++ stack_of r h ∧
  log_of r hr ++ stack_of r hr ≡ₚ log_of r h ++ stack_of r h ∧
  (length (log_of r hu) + length (stack_of r hu) =
     length (log_of r h) + length (stack_of r h))%nat ∧
  (length (log_of r hr) + length (stack_of r hr) =
     length (log_of r h) + length (stack_of r h))%nat ∧
  objs hu = objs h ∧ objs hr = objs h ∧
  (∀ xs x, log_of r h = xs ++ [x] →
     log_of r hu = xs ∧ stack_of r hu = stack_of r h ++ [x]) ∧
  (∀ xs x, stack_of r h = xs ++ [x] →
     stack_of r hr = xs ∧ log_of r hr = log_of r h ++ [x]) ∧
  (log_of r h = [] → hu = h) ∧
  (stack_of r h = [] → hr = h).
Proof.
  intros [_ _ Hd _ _] hu hr.
  assert (log_of r hu ++ stack_of r hu ≡ₚ log_of r h ++ stack_of r h) as Hpu.
  { subst hu. destruct (list_empty_or_snoc (log_of r h)) as [E | (xs & x & E)].
    - by rewrite undoLast_empty.
    - destruct (undoLast_moves now r h xs x Hd E) as [-> ->]. rewrite E.
      rewrite <- !(assoc_L (++)). f_equiv. apply Permutation_app_comm. }
  assert (log_of r hr ++ stack_of r hr ≡ₚ log_of r h ++ stack_of r h) as Hpr.
  { subst hr. destruct (list_empty_or_snoc (stack_of r h)) as [E | (xs & x & E)].
    - by rewrite redoLast_empty.
    - destruct (redoLast_moves now r h xs x Hd E) as [-> ->]. rewrite E.
      rewrite <- !(assoc_L (++)). f_equiv. apply Permutation_app_comm. }
  split_and!; try done.
  - rewrite <- !length_app. by apply Permutation_length.
  - rewrite <- !length_app. by apply Permutation_length.
  - apply undoLast_objs.
  - apply redoLast_objs.
  - intros xs x E. by apply undoLast_moves.
  - intros xs x E. by apply redoLast_moves.
  - intros E. subst hu. by rewrite undoLast_empty.
  - intros E. subst hr. by rewrite redoLast_empty.
Qed.

(** ** The claims about commits and broadcasts *)

Section finalize.
Context (uuid : string) (now : Z).

Lemma finalize_opId c :
  props (finalize uuid now c) !! "opId" =
    Some (or_default (props c !! "opId") (JStr uuid)).
Proof.
  unfold finalize; simpl. destruct (truthy _); simpl;
    rewrite ?(lookup_insert_ne _ "type" "opId") by done;
    rewrite (lookup_insert_ne _ "ts" "opId") by done;
    by rewrite lookup_insert_eq.
Qed.

Lemma finalize_ts c :
  props (finalize uuid now c) !! "ts" =
    Some (or_default (props c !! "ts") (JNum now)).
Proof.
  unfold finalize; simpl. destruct (truthy _); simpl;
    rewrite ?(lookup_insert_ne _ "type" "ts") by done;
    rewrite lookup_insert_eq;
    by rewrite (lookup_insert_ne _ "opId" "ts") by done.
Qed.

Lemma finalize_type c :
  props (finalize uuid now c) !! "type" =
    Some (or_default (props c !! "type") (JStr "stroke")).
Proof.
  unfold finalize; simpl.
  rewrite (lookup_insert_ne _ "ts" "type"), (lookup_insert_ne _ "opId" "type") by done.
  destruct (truthy (props c !! "type")) eqn:Ht.
  - rewrite (lookup_insert_ne _ "ts" "type"), (lookup_insert_ne _ "opId" "type") by done.
    destruct (props c !! "type") as [j|] eqn:E; [|done].
    unfold or_default. by rewrite Ht.
  - rewrite lookup_insert_eq. unfold or_default.
    destruct (props c !! "type"); [by rewrite Ht | done].
Qed.

(** What the committed operation reads as. *)
Lemma read_committed j h r r1 h1 k :
  nullish j = false →
  pushOp uuid now (reify j h).1 r (reify j h).2 = Some (r1, h1) →
  read h1 (reify j h).1 k =
    match j with
    | Some (JObj kvs) => props (finalize uuid now (Cell kvs None)) !! k
    | Some (JArr xs) => props (finalize uuid now (Cell ∅ (Some xs))) !! k
    | _ => None
    end.
Proof.
  intros Hj Hpush. pose proof (pushOp_objs _ _ _ _ _ _ _ Hpush) as Hobjs.
  destruct j as [[| b | n | str | xs | kvs]|]; try done; simpl in *;
    unfold read, get_prop, get_cell; rewrite Hobjs, lookup_insert_eq; simpl;
    unfold get_cell; simpl; by rewrite lookup_insert_eq.
Qed.

Lemma read_committed_opId j h r r1 h1 :
  nullish j = false →
  pushOp uuid now (reify j h).1 r (reify j h).2 = Some (r1, h1) →
  read h1 (reify j h).1 "opId" = assigned_id uuid j.
Proof.
  intros Hj Hpush. rewrite (read_committed j h r r1 h1 "opId" Hj Hpush).
  destruct j as [[| b | n | str | xs | kvs]|]; try done;
    by rewrite finalize_opId.
Qed.

Lemma read_committed_ts j h r r1 h1 :
  nullish j = false →
  pushOp uuid now (reify j h).1 r (reify j h).2 = Some (r1, h1) →
  read h1 (reify j h).1 "ts" = assigned_ts now j.
Proof.
  intros Hj Hpush. rewrite (read_committed j h r r1 h1 "ts" Hj Hpush).
  destruct j as [[| b | n | str | xs | kvs]|]; try done;
    by rewrite finalize_ts.
Qed.
End finalize.

(** C1, as stated, fails.  An operation whose [type] is ["blob"], which is
    neither ["stroke"] nor ["shape"], is committed like any other: the
    handler returns, the log of the room goes from empty to one entry whose
    [type] is still ["blob"], and the ['op'] message with the finalized
    operation is sent to the members. *)
Lemma C1_unrecognised_kind_is_committed :
  let res := handleMessage "uuid-1" 1000 "r1" 0%nat (Some (JStr "op"))
               (op_message blob_op) two_clients in
  rooms two_clients !! "r1" = Some room_r1 ∧
  log_of room_r1 (heap two_clients) = [] ∧
  res.1 = Return () ∧
  rooms res.2 !! "r1" = Some room_r1' ∧
  log_of room_r1' (heap res.2) = [VRef 0%nat] ∧
  read (heap res.2) (VRef 0%nat) "type" = Some (JStr "blob") ∧
  (λ s, last (sent s)) <$> socks res.2 !! 1%nat =
    Some (Some (envelope "op" (Some (obj [("op",
      Some (JObj {["opId" := JStr "uuid-1"; "ts" := JNum 1000;
                   "type" := JStr "blob"]}))])))).
Proof. vm_compute. repeat split. Qed.

(** C1, amended.  [pushOp] does not look at the kind.  In every state
    that the server reaches, an ['op'] message that arrives on a connection
    of a room and whose [payload.op] is anything but [undefined] and [null]
    is committed,
    whatever its [type]: the handler returns, the operation is the new last
    element of the log, the stack is empty, a falsy [type] of an object is
    replaced by ["stroke"] and any other is kept, and the finalized
    operation is sent to every member whose connection is open.  The commit
    fails only when [payload] or [payload.op] is [undefined] or [null]:
    the handler throws a [TypeError] and the state of the server is left
    as it was, so nothing is appended and nothing is sent. *)
Theorem C1_commit_accepts_any_kind (uuid : string) (now : Z) (roomObj : string)
    (client : ws) (w : world) (r : room) (s : socket) (payload : option json) :
  session_ok w roomObj client r s →
  (∀ j, json_prop payload "op" = Some j → nullish j = false →
     ∃ r1 w',
       handleMessage uuid now roomObj client (Some (JStr "op")) payload w
         = (Return (), w') ∧
       rooms w' !! roomObj = Some r1 ∧
       log_of r1 (heap w') = log_of r (heap w) ++ [(reify j (heap w)).1] ∧
       stack_of r1 (heap w') = [] ∧
       (∀ kvs, j = Some (JObj kvs) →
          read (heap w') (reify j (heap w)).1 "type"
            = Some (or_default (kvs !! "type") (JStr "stroke"))) ∧
       (∀ c sc, c ∈ clients r → socks w !! c = Some sc → readyState sc = OPEN →
          socks w' !! c =
            Some (push_sent
                    (envelope "op" (Some (obj [("op", finalized_text uuid now j)])))
                    sc))) ∧
  (json_prop payload "op" = None ∨
   (∃ j, json_prop payload "op" = Some j ∧ nullish j = true) →
   handleMessage uuid now roomObj client (Some (JStr "op")) payload w = (Throw, w)).
Proof.
  intros Hsess. split; [|by apply (handleMessage_op_throws _ _ _ _ _ r s)].
  intros j Hp Hj.
  destruct (handleMessage_op_returns uuid now roomObj client w r s Hsess payload j Hp Hj)
    as (r1 & h1 & Hpush & Hres).
  destruct Hsess as [Hr Hid Hnd Hs].
  eexists r1, _. split; [exact Hres|]. simpl. split_and!.
  - by rewrite lookup_insert_eq.
  - rewrite (pushOp_log _ _ _ _ _ _ _ Hpush). unfold log_of, arr.
    by rewrite reify_arrs.
  - by eapply pushOp_stack.
  - intros kvs ->.
    rewrite (read_committed uuid now _ _ _ _ _ "type" Hj Hpush).
    by rewrite finalize_type.
  - intros c sc Hc Hsc Hopen. by apply foldl_deliver_open.
Qed.

(** C7, as stated, fails.  In [one_closing] the second member of room
    ["r1"] has a connection that is no longer open.  A commit by the first
    member succeeds, and the second member is sent nothing: the calls of
    [send] on its connection are the same before and after. *)
Lemma C7_closing_member_is_not_sent_the_op :
  let res := handleMessage "uuid-1" 1000 "r1" 0%nat (Some (JStr "op"))
               (op_message red_op) one_closing in
  rooms one_closing !! "r1" = Some room_r1 ∧
  1%nat ∈ clients room_r1 ∧
  res.1 = Return () ∧
  log_of room_r1' (heap res.2) = [VRef 0%nat] ∧
  sent <$> socks res.2 !! 1%nat = sent <$> socks one_closing !! 1%nat.
Proof.
  split_and!; [by vm_compute | | by vm_compute | by vm_compute | by vm_compute].
  unfold room_r1; simpl. apply list_elem_of_further, list_elem_of_here.
Qed.

(** C7, amended.  When a commit succeeds, the finalized operation is sent
    as an ['op'] message, once, to every member of the room whose
    connection is open, and the author is one of them: [broadcast] is
    called with no connection to except.  A member whose connection is not
    open, and a connection that is not a member, are sent nothing. *)
Theorem C7_op_is_sent_to_open_members (uuid : string) (now : Z) (roomObj : string)
    (client : ws) (w : world) (r : room) (s : socket)
    (payload j : option json) :
  session_ok w roomObj client r s →
  json_prop payload "op" = Some j → nullish j = false →
  let msg := envelope "op" (Some (obj [("op", finalized_text uuid now j)])) in
  ∃ w',
    handleMessage uuid now roomObj client (Some (JStr "op")) payload w
      = (Return (), w') ∧
    (∀ c sc, c ∈ clients r → socks w !! c = Some sc → readyState sc = OPEN →
       socks w' !! c = Some (push_sent msg sc)) ∧
    (client ∈ clients r → readyState s = OPEN →
       socks w' !! client = Some (push_sent msg s)) ∧
    (∀ c sc, socks w !! c = Some sc → c ∉ clients r ∨ readyState sc ≠ OPEN →
       socks w' !! c = Some sc).
Proof.
  intros Hsess Hp Hj msg.
  destruct (handleMessage_op_returns uuid now roomObj client w r s Hsess payload j Hp Hj)
    as (r1 & h1 & Hpush & Hres).
  destruct Hsess as [Hr Hid Hnd Hs].
  eexists. split; [exact Hres|]. simpl. split_and!.
  - intros c sc Hc Hsc Hopen. by apply foldl_deliver_open.
  - intros Hc Hopen. by apply foldl_deliver_open.
  - intros c sc Hsc Hwhy. apply foldl_deliver_skip; [done|].
    destruct Hwhy; auto.
Qed.

(** C8, as stated, fails.  In [one_closing] a stroke part relayed by the
    first member is not sent to the second, which is another member of the
    room, because its connection is not open. *)
Lemma C8_closing_member_is_not_sent_the_part :
  let part := Some (JObj {["opId" := JStr "o1"; "finalize" := JBool false]}) in
  let res := handleMessage "uuid-1" 1000 "r1" 0%nat (Some (JStr "stroke-part"))
               part one_closing in
  rooms one_closing !! "r1" = Some room_r1 ∧
  1%nat ∈ clients room_r1 ∧
  res.1 = Return () ∧
  sent <$> socks res.2 !! 1%nat = sent <$> socks one_closing !! 1%nat.
Proof.
  split_and!; [by vm_compute | | by vm_compute | by vm_compute].
  unfold room_r1; simpl. apply list_elem_of_further, list_elem_of_here.
Qed.

(** C8, amended.  A ['stroke-part'] message is relayed as it came, once, to
    every other member of the sender's room whose connection is open.
    Nothing is sent to the sender, to a member whose connection is not
    open, or outside the room; and nothing is stored: the rooms, their logs
    and stacks and the whole heap are unchanged. *)
Theorem C8_stroke_part_is_relayed_to_open_others (uuid : string) (now : Z)
    (roomObj : string) (client : ws) (w : world) (r : room) (s : socket)
    (payload : option json) :
  session_ok w roomObj client r s →
  let msg := envelope "stroke-part" payload in
  ∃ w',
    handleMessage uuid now roomObj client (Some (JStr "stroke-part")) payload w
      = (Return (), w') ∧
    (∀ c sc, c ∈ clients r → c ≠ client → socks w !! c = Some sc →
       readyState sc = OPEN → socks w' !! c = Some (push_sent msg sc)) ∧
    socks w' !! client = Some s ∧
    (∀ c sc, socks w !! c = Some sc → c ∉ clients r ∨ readyState sc ≠ OPEN →
       socks w' !! c = Some sc) ∧
    rooms w' = rooms w ∧ heap w' = heap w ∧
    log_of r (heap w') = log_of r (heap w) ∧
    stack_of r (heap w') = stack_of r (heap w).
Proof.
  intros Hsess msg.
  rewrite (handleMessage_stroke_part uuid now roomObj client w r s Hsess).
  destruct Hsess as [Hr Hid Hnd Hs].
  eexists. split; [reflexivity|]. simpl. split_and!; try done.
  - intros c sc Hc Hne Hsc Hopen. apply foldl_deliver_open; try done.
    congruence.
  - apply foldl_deliver_skip; auto.
  - intros c sc Hsc Hwhy. apply foldl_deliver_skip; [done|].
    destruct Hwhy; auto.
Qed.

(** ** The claim about snapshots *)

(** C6, as stated, fails.  After one commit, the array returned by
    [getState] holds the very object that the log holds.  A caller that
    writes the [color] of the first element of the returned array changes
    the operation in the room's log: the log reads ["blue"] where it read
    ["red"], and its text is not what it was. *)
Lemma C6_snapshot_shares_the_operations :
  let w1 := (handleMessage "uuid-1" 1000 "r1" 0%nat (Some (JStr "op"))
               (op_message red_op) two_clients).2 in
  let snap := (getState room_r1' (heap w1)).1 in
  let h1 := (getState room_r1' (heap w1)).2 in
  rooms w1 !! "r1" = Some room_r1' ∧
  arr h1 snap !! 0%nat = Some (VRef 0%nat) ∧
  log_of room_r1' h1 !! 0%nat = Some (VRef 0%nat) ∧
  read h1 (VRef 0%nat) "color" = Some (JStr "red") ∧
  ∃ h2, set_prop (VRef 0%nat) "color" (JStr "blue") h1 = Some h2 ∧
        log_of room_r1' h2 !! 0%nat = Some (VRef 0%nat) ∧
        read h2 (VRef 0%nat) "color" = Some (JStr "blue") ∧
        log_text room_r1' h2 ≠ log_text room_r1' h1.
Proof.
  split_and!; [by vm_compute | by vm_compute | by vm_compute | by vm_compute |].
  eexists. split; [reflexivity|].
  split_and!; [by vm_compute | by vm_compute |].
  intros Heq. vm_compute in Heq. congruence.
Qed.

(** C6, amended.  In a well-formed room, as is every room of every state
    that the server reaches, [getState] returns a new array that holds the
    elements of the log in log order, and leaves the log, the stack and
    every object as they are.  Whatever the caller then stores in the returned array,
    the room's log and its text are unchanged.  The elements are the
    operation objects of the log themselves, not copies: a property that
    the caller writes through an element of the returned array is written
    to the operation at the same position of the log.  The handler of
    ['request-state'] only serialises the array: it sends the text of the
    log to the requester and changes no room, log or object. *)
Theorem C6_getState_is_a_shallow_copy (r : room) (h : store) :
  room_ok r h →
  let snap := (getState r h).1 in
  let h1 := (getState r h).2 in
  (snap ∉ dom (arrs h)) ∧ snap ≠ opLog r ∧ snap ≠ undoneStack r ∧
  arr h1 snap = log_of r h ∧
  log_of r h1 = log_of r h ∧ stack_of r h1 = stack_of r h ∧ objs h1 = objs h ∧
  (∀ xs, log_of r (set_arr snap xs h1) = log_of r h ∧
         log_text r (set_arr snap xs h1) = log_text r h) ∧
  (∀ i v k x h2, arr h1 snap !! i = Some v → set_prop v k x h1 = Some h2 →
     log_of r h2 = log_of r h ∧ log_of r h2 !! i = Some v ∧
     ∀ l, v = VRef l → read h2 v k = Some x) ∧
  (∀ (w : world) (roomObj : string) (client : ws) (s : socket) (u : string)
     (now : Z) (payload : option json),
     session_ok w roomObj client r s → heap w = h →
     ∃ w',
       handleMessage u now roomObj client (Some (JStr "request-state")) payload w
         = (Return (), w') ∧
       rooms w' = rooms w ∧ objs (heap w') = objs h ∧
       log_of r (heap w') = log_of r h ∧
       socks w' !! client =
         Some (push_sent (envelope "state" (Some (log_text r h))) s)).
Proof.
  intros [Hlog Hstk _ _ _] snap h1.
  assert (snap ∉ dom (arrs h)) as Hfresh by apply alloc_arr_fresh.
  assert (snap ≠ opLog r) as Hne1 by (intros Heq; by rewrite Heq in Hfresh).
  assert (snap ≠ undoneStack r) as Hne2 by (intros Heq; by rewrite Heq in Hfresh).
  assert (arr h1 snap = log_of r h) as Hsnap by apply arr_set_arr_eq.
  assert (log_of r h1 = log_of r h) as Hl1.
  { by apply arr_set_arr_ne. }
  split_and!; try done.
  - by apply arr_set_arr_ne.
  - intros xs. assert (log_of r (set_arr snap xs h1) = log_of r h) as Hl.
    { unfold log_of. rewrite arr_set_arr_ne by done. exact Hl1. }
    split; [done|]. unfold log_text. by rewrite Hl.
  - intros i v k x h2 Hi Hset.
    assert (log_of r h2 = log_of r h) as Hl2.
    { unfold log_of, arr. rewrite (set_prop_arrs _ _ _ _ _ Hset). exact Hl1. }
    split_and!; [done | by rewrite Hl2, <- Hsnap |].
    intros l ->. simpl in Hset. injection Hset as <-.
    unfold read, get_prop. rewrite get_cell_insert. simpl.
    by rewrite lookup_insert_eq.
  - intros w roomObj client s u now payload Hsess Hheap.
    rewrite (handleMessage_request_state u now roomObj client w r s Hsess).
    destruct Hsess as [Hr Hid Hnd Hs].
    eexists. split; [reflexivity|]. simpl. rewrite Hheap.
    split_and!; [done | done | done |].
    unfold send. by rewrite lookup_alter_eq, Hs.
Qed.

(** ** What the log of a run holds *)

Section log_of_run.
Implicit Types (r : room) (h : store) (st : room * store) (v : value).

Lemma read_reify_stable j h v k :
  entry_ok h v → read (reify j h).2 v k = read h v k.
Proof.
  destruct v as [| | | | | l]; try done. simpl. intros Hl.
  apply elem_of_dom in Hl as [c Hc].
  unfold read, get_prop, get_cell. rewrite Hc.
  by rewrite (lookup_weaken _ _ _ _ Hc (reify_objs_subseteq j h)).
Qed.

Lemma entry_ok_not_reified j h v l :
  entry_ok h v → (reify j h).1 = VRef l → v ≠ VRef l.
Proof.
  intros Hv Hop ->. simpl in Hv. by apply (reify_ref_fresh j h l).
Qed.

(** An entry that was there before an action reads the same after it. *)
Lemma act_read_stable now a st v k :
  entry_ok st.2 v → read (act now a st).2 v k = read st.2 v k.
Proof.
  destruct st as [r h]; simpl. intros Hv. destruct a as [uuid j | |]; simpl.
  - pose proof (read_reify_stable j h v k Hv) as Hre.
    pose proof (entry_ok_not_reified j h v) as Hne.
    destruct (reify j h) as [op h0]; simpl in *.
    destruct (pushOp uuid now op r h0) as [[r1 h1]|] eqn:Hpush; simpl; [|done].
    rewrite <- Hre. destruct v as [| | | | | l]; try done.
    apply (pushOp_read_other _ _ _ _ _ _ _ Hpush). intros <-. by apply (Hne l).
  - apply read_objs, undoLast_objs.
  - apply read_objs, redoLast_objs.
Qed.

Lemma map_read_stable now a st k (vs : list value) :
  Forall (entry_ok st.2) vs →
  map (λ v, read (act now a st).2 v k) vs = map (λ v, read st.2 v k) vs.
Proof.
  intros Hvs. apply map_ext_Forall. eapply Forall_impl; [done|].
  intros v Hv. by apply act_read_stable.
Qed.

(** Undo and redo keep the history; an accepted commit makes it the log
    followed by the new operation. *)
Lemma undo_history now st :
  room_ok st.1 st.2 →
  history (act now Undo st).1 (act now Undo st).2 = history st.1 st.2.
Proof.
  destruct st as [r h]; simpl. intros [_ _ Hd _ _]. unfold history.
  destruct (list_empty_or_snoc (log_of r h)) as [E | (xs & x & E)].
  - by rewrite undoLast_empty.
  - destruct (undoLast_moves now r h xs x Hd E) as [-> ->].
    by rewrite E, reverse_snoc, <- (assoc_L (++)).
Qed.

Lemma redo_history now st :
  room_ok st.1 st.2 →
  history (act now Redo st).1 (act now Redo st).2 = history st.1 st.2.
Proof.
  destruct st as [r h]; simpl. intros [_ _ Hd _ _]. unfold history.
  destruct (list_empty_or_snoc (stack_of r h)) as [E | (xs & x & E)].
  - by rewrite redoLast_empty.
  - destruct (redoLast_moves now r h xs x Hd E) as [-> ->].
    by rewrite E, reverse_snoc, <- (assoc_L (++)).
Qed.

Lemma history_entries st :
  room_ok st.1 st.2 → Forall (entry_ok st.2) (history st.1 st.2).
Proof.
  intros [_ _ _ Hl Hs]. unfold history. apply Forall_app. split; [done|].
  by apply Forall_reverse.
Qed.

Section key.
Context (k : string) (f : Z → string → option json → option json).
Hypothesis Hf : ∀ now uuid j r h r1 h1,
  nullish j = false →
  pushOp uuid now (reify j h).1 r (reify j h).2 = Some (r1, h1) →
  read h1 (reify j h).1 k = f now uuid j.

Lemma log_read_sublist st : reads_of_log k st `sublist_of` reads_of_history k st.
Proof.
  unfold reads_of_log, reads_of_history, history. rewrite map_app.
  apply sublist_inserts_r. done.
Qed.

Lemma commit_log_read now uuid j st :
  room_ok st.1 st.2 → nullish j = false →
  reads_of_log k (act now (Commit uuid j) st) = reads_of_log k st ++ [f now uuid j] ∧
  reads_of_history k (act now (Commit uuid j) st) = reads_of_log k st ++ [f now uuid j].
Proof.
  intros Hok Hj.
  destruct (act_commit_accepted now uuid j st Hj) as (Hpush & Hlog & Hstk & _).
  pose proof (map_read_stable now (Commit uuid j) st k (log_of st.1 st.2)) as Hold.
  specialize (Hold (ok_log_entries _ _ Hok)).
  set (st' := act now (Commit uuid j) st) in *.
  assert (reads_of_log k st' = reads_of_log k st ++ [f now uuid j]) as Hl.
  { unfold reads_of_log. rewrite Hlog, map_app, Hold. simpl. f_equal. f_equal.
    destruct st' as [r1 h1]. by eapply Hf. }
  split; [done|]. unfold reads_of_history, history. rewrite Hstk. simpl.
  rewrite app_nil_r. exact Hl.
Qed.

Lemma committed_snoc evs e :
  committed f (evs ++ [e]) =
    committed f evs ++
    match e.2 with
    | Commit uuid j => if nullish j then [] else [f e.1 uuid j]
    | _ => []
    end.
Proof.
  unfold committed. rewrite omap_app. f_equal. simpl.
  destruct e as [now [uuid j | |]]; simpl; try done. by destruct (nullish j).
Qed.

(** What an action adds to the values read along the history. *)
Lemma act_history_read now a st :
  room_ok st.1 st.2 →
  reads_of_history k (act now a st)
    `sublist_of` reads_of_history k st ++ committed f [(now, a)].
Proof.
  intros Hok. change [(now, a)] with ([] ++ [(now, a)]).
  rewrite committed_snoc. change (committed f []) with (@nil (option json)).
  destruct a as [uuid j | |]; cbn [fst snd app].
  - destruct (nullish j) eqn:Hj.
    + rewrite act_commit_rejected, app_nil_r by done. done.
    + destruct (commit_log_read now uuid j st Hok Hj) as [_ ->].
      apply sublist_app; [apply log_read_sublist | done].
  - rewrite app_nil_r. unfold reads_of_history.
    rewrite (undo_history now st Hok).
    rewrite (map_read_stable now Undo st k); [done|].
    by apply history_entries.
  - rewrite app_nil_r. unfold reads_of_history.
    rewrite (redo_history now st Hok).
    rewrite (map_read_stable now Redo st k); [done|].
    by apply history_entries.
Qed.

(** The values read along the history of a run from a new room are among
    the committed ones, in order. *)
Lemma run_history_read i h0 evs :
  let st := run evs (createRoom i h0) in
  room_ok st.1 st.2 ∧ reads_of_history k st `sublist_of` committed f evs.
Proof.
  induction evs as [|e evs IH] using rev_ind.
  { simpl. split; [apply createRoom_ok|].
    unfold reads_of_history, history.
    destruct (createRoom_empty i h0) as [-> ->]. done. }
  rewrite run_snoc, committed_snoc.
  simpl in IH. destruct IH as [Hok IH].
  set (st := run evs (createRoom i h0)) in *.
  split; [by apply act_room_ok|].
  destruct e as [now [uuid j | |]]; cbn [fst snd].
  - destruct (nullish j) eqn:Hj.
    + rewrite act_commit_rejected, app_nil_r by done. done.
    + destruct (commit_log_read now uuid j st Hok Hj) as [_ ->].
      apply sublist_app; [|done].
      etrans; [apply log_read_sublist | done].
  - rewrite app_nil_r. unfold reads_of_history.
    rewrite (undo_history now st Hok).
    rewrite (map_read_stable now Undo st k); [done|].
    by apply history_entries.
  - rewrite app_nil_r. unfold reads_of_history.
    rewrite (redo_history now st Hok).
    rewrite (map_read_stable now Redo st k); [done|].
    by apply history_entries.
Qed.

Lemma run_log_read i h0 evs :
  reads_of_log k (run evs (createRoom i h0)) `sublist_of` committed f evs.
Proof.
  etrans; [apply log_read_sublist | apply run_history_read].
Qed.

(** Without undo and redo they are exactly the committed ones. *)
Lemma run_commits_log_read i h0 evs :
  Forall is_commit evs →
  reads_of_log k (run evs (createRoom i h0)) = committed f evs.
Proof.
  induction evs as [|e evs IH] using rev_ind; intros Hall.
  { unfold reads_of_log. change (run [] (createRoom i h0)) with (createRoom i h0).
    by destruct (createRoom_empty i h0) as [-> _]. }
  apply Forall_app in Hall as [Hall He]. rewrite Forall_singleton in He.
  rewrite run_snoc, committed_snoc. specialize (IH Hall).
  destruct (run_history_read i h0 evs) as [Hok _]. simpl in Hok.
  set (st := run evs (createRoom i h0)) in *.
  destruct e as [now [uuid j | |]]; cbn [fst snd]; try done.
  destruct (nullish j) eqn:Hj.
  - rewrite act_commit_rejected, app_nil_r by done. done.
  - destruct (commit_log_read now uuid j st Hok Hj) as [-> _]. by rewrite IH.
Qed.
End key.
End log_of_run.

(** ** What the log of a room of the server holds *)

Section log_of_server.
Context (k : string) (f : Z → string → option json → option json).
Hypothesis Hf : ∀ now uuid j r h r1 h1,
  nullish j = false →
  pushOp uuid now (reify j h).1 r (reify j h).2 = Some (r1, h1) →
  read h1 (reify j h).1 k = f now uuid j.

Lemma same_room_history_read r h r' h' :
  room_ok r h → same_room r h r' h' →
  reads_of_history k (r', h') = reads_of_history k (r, h).
Proof.
  intros Hok (_ & _ & Hl & Hs & Hv). unfold reads_of_history, history. simpl.
  rewrite Hl, Hs. apply map_ext_Forall.
  eapply Forall_impl; [by apply (history_entries (r, h))|].
  intros v Hvok. by apply Hv.
Qed.

(** A room that an event brings into being has an empty log and an empty
    stack. *)
Lemma step_new_room w e kk r' :
  rooms w !! kk = None → rooms (step w e) !! kk = Some r' →
  log_of r' (heap (step w e)) = [] ∧ stack_of r' (heap (step w e)) = [].
Proof.
  intros Hnone.
  destruct e as [client state uid k' uname ucolor | uuid now k' client msg
                | k' client | client state]; simpl.
  - unfold on_connection.
    assert (k' ≠ kk → rooms (getOrCreate k' w).2 !! kk = None) as Hother.
    { intros Hne. unfold getOrCreate. destruct (rooms w !! k'); [done|].
      destruct (createRoom k' (heap w)). simpl. by rewrite lookup_insert_ne. }
    assert (k' = kk →
            room_ok (getOrCreate k' w).1 (heap (getOrCreate k' w).2) ∧
            log_of (getOrCreate k' w).1 (heap (getOrCreate k' w).2) = [] ∧
            stack_of (getOrCreate k' w).1 (heap (getOrCreate k' w).2) = [])
      as Hnew.
    { intros ->. unfold getOrCreate. rewrite Hnone.
      pose proof (createRoom_ok kk (heap w)) as Hok.
      pose proof (createRoom_empty kk (heap w)) as [Hl Hs].
      by destruct (createRoom kk (heap w)). }
    destruct (getOrCreate k' w) as [r0 w1]. simpl in Hother, Hnew.
    set (s := Socket uid _ _ state []).
    destruct (join client r0 (<[client:=s]> (socks w1))) as [r1 ss] eqn:Hjoin.
    destruct (join_facts _ _ _ _ _ Hjoin) as (_ & Hlg & Hst & _).
    assert (rooms (World (<[k':=r1]> (rooms w1)) ss (heap w1)) !! kk = Some r' →
            k' = kk ∧ r' = r1) as Hkk.
    { simpl. destruct (decide (k' = kk)) as [-> | Hne].
      - rewrite lookup_insert_eq. by intros [= <-].
      - rewrite lookup_insert_ne, Hother by done. done. }
    case_decide.
    + unfold getState.
      pose proof (allocs_alloc_arr (arr (heap w1) (opLog r1)) (heap w1))
        as (_ & _ & Hal).
      destruct (alloc_arr _ (heap w1)) as [snap h1]. simpl in *.
      intros Hr'. destruct (Hkk Hr') as [Heq ->].
      destruct (Hnew Heq) as ([Hd1 Hd2 _ _ _] & Hl & Hs).
      unfold log_of, stack_of in *. rewrite Hlg, Hst.
      by rewrite !Hal.
    + intros Hr'. destruct (Hkk Hr') as [Heq ->].
      destruct (Hnew Heq) as (_ & Hl & Hs).
      unfold log_of, stack_of in *. simpl. by rewrite Hlg, Hst.
  - unfold on_message. destruct msg as [j|]; [|by rewrite Hnone].
    destruct (json_prop (Some j) "type") as [type|]; [|by rewrite Hnone].
    destruct (json_prop (Some j) "payload") as [payload|]; [|by rewrite Hnone].
    destruct (rooms w !! k') as [r2|] eqn:Hr2;
      [|unfold handleMessage; rewrite Hr2; simpl; by rewrite Hnone].
    destruct (socks w !! client) as [s|] eqn:Hs;
      [|unfold handleMessage; rewrite Hr2, Hs; simpl; by rewrite Hnone].
    assert (k' ≠ kk) as Hne by (intros ->; congruence).
    destruct (handleMessage_effect uuid now k' client type payload w r2 s Hr2 Hs)
      as [(a & _ & -> & _) | [(-> & _) | (-> & _)]].
    + by rewrite lookup_insert_ne, Hnone.
    + by rewrite Hnone.
    + by rewrite Hnone.
  - unfold on_close. destruct (rooms w !! k') as [r2|] eqn:Hr2; [|by rewrite Hnone].
    destruct (socks w !! client) as [s|]; [|by rewrite Hnone].
    rewrite !broadcast_rooms. simpl.
    rewrite lookup_insert_ne, Hnone; [done|]. intros ->. congruence.
  - by rewrite Hnone.
Qed.

(** In every state the server reaches, the values read along the history
    of a room are among those committed by the messages addressed to the
    room, in order. *)
Lemma serve_history_read evs kk r :
  rooms (serve evs) !! kk = Some r →
  reads_of_history k (r, heap (serve evs))
    `sublist_of` committed f (actions_on kk evs).
Proof.
  revert r. induction evs as [|e evs IH] using rev_ind; intros r'.
  { unfold serve. simpl. by rewrite lookup_empty. }
  unfold serve, actions_on. rewrite foldl_app, bind_app. simpl.
  rewrite app_nil_r. fold (serve evs). fold (actions_on kk evs).
  unfold committed. rewrite omap_app. fold (committed f (actions_on kk evs)).
  fold (committed f (event_actions kk e)).
  pose proof (serve_world_ok evs) as Hok. set (w := serve evs) in *.
  intros Hr'. destruct (rooms w !! kk) as [r|] eqn:Hr.
  2:{ destruct (step_new_room w e kk r' Hr Hr') as [Hl Hs].
      unfold reads_of_history, history. simpl. rewrite Hl, Hs. simpl.
      apply sublist_nil_l. }
  specialize (IH r eq_refl).
  pose proof (wok_room _ Hok kk r Hr) as Hrok.
  assert (∀ r1 h1 more, same_room r (heap w) r1 h1 →
            reads_of_history k (r1, h1)
              `sublist_of` committed f (actions_on kk evs) ++ more) as Hsame.
  { intros r1 h1 more Hs.
    rewrite (same_room_history_read r (heap w) r1 h1 Hrok Hs).
    etrans; [exact IH|]. by apply sublist_inserts_r. }
  assert (same_room r (heap w) r (heap w)) as Hrefl.
  { apply same_room_allocs; [done | done | done | apply allocs_refl]. }
  assert (addressed_to kk e ∨ ¬ addressed_to kk e) as [Haddr | Hnot].
  { destruct e as [| ? ? k' ? ? | |]; simpl; try (right; tauto).
    destruct (decide (k' = kk)); auto. }
  2:{ destruct (step_keeps_room w e kk r Hok Hr Hnot) as (r1 & Hr1 & Hs).
      rewrite Hr1 in Hr'. injection Hr' as <-. by apply Hsame. }
  destruct e as [| uuid now k' client msg | |]; try done.
  simpl in Haddr. subst k'. unfold step, event_actions, on_message in *.
  destruct msg as [j|]; [|rewrite Hr in Hr'; injection Hr' as <-; by apply Hsame].
  rewrite decide_True by done.
  destruct (json_prop (Some j) "type") as [type|];
    [|rewrite Hr in Hr'; injection Hr' as <-; by apply Hsame].
  destruct (json_prop (Some j) "payload") as [payload|];
    [|rewrite Hr in Hr'; injection Hr' as <-; by apply Hsame].
  destruct (socks w !! client) as [s|] eqn:Hs.
  2:{ unfold handleMessage in Hr' |- *. rewrite Hr, Hs in Hr' |- *. simpl in *.
      rewrite Hr in Hr'. injection Hr' as <-. by apply Hsame. }
  destruct (handleMessage_effect uuid now kk client type payload w r s Hr Hs)
    as [(a & Ha & Hrooms & Hheap) | [(Hrooms & Hheap) | (Hrooms & Hheap)]];
    rewrite Hrooms in Hr'; rewrite Hheap.
  - rewrite lookup_insert_eq in Hr'. injection Hr' as <-. rewrite Ha.
    rewrite <- surjective_pairing.
    etrans; [by apply (act_history_read k f Hf now a (r, heap w))|].
    by apply sublist_app.
  - rewrite Hr in Hr'. injection Hr' as <-. by apply Hsame.
  - rewrite Hr in Hr'. injection Hr' as <-. apply Hsame.
    apply same_room_allocs; [done | done | done | apply allocs_alloc_arr].
Qed.

Lemma serve_log_read evs kk r :
  rooms (serve evs) !! kk = Some r →
  reads_of_log k (r, heap (serve evs))
    `sublist_of` committed f (actions_on kk evs).
Proof.
  intros Hr. etrans; [apply log_read_sublist | by apply serve_history_read].
Qed.
End log_of_server.

(** ** The claims about ids and timestamps *)

Lemma sublist_StronglySorted {A} (R : relation A) (l1 l2 : list A) :
  l1 `sublist_of` l2 → StronglySorted R l2 → StronglySorted R l1.
Proof.
  induction 1 as [| x l1 l2 Hsub IH | x l1 l2 Hsub IH]; intros Hs; [done | |].
  - apply StronglySorted_cons in Hs as [Hx Hs].
    apply StronglySorted_cons. split; [|by apply IH].
    apply Forall_forall. intros y Hy. rewrite Forall_forall in Hx.
    apply Hx. by eapply elem_of_sublist.
  - apply StronglySorted_cons in Hs as [_ Hs]. by apply IH.
Qed.

Lemma log_ids_reads st : log_ids st.1 st.2 = reads_of_log "opId" st.
Proof. reflexivity. Qed.

Lemma log_ts_reads st : log_ts st.1 st.2 = reads_of_log "ts" st.
Proof. reflexivity. Qed.

(** When every accepted commit leaves its timestamp to the server, the
    committed timestamps are the clock readings of the accepted commits. *)
Lemma commit_ts_server_stamped evs :
  Forall server_stamped evs →
  commit_ts evs =
    map (λ e, Some (JNum e.1)) (filter (λ e, appends e = true) evs).
Proof.
  induction evs as [|[now a] evs IH]; intros Hall; [done|].
  apply Forall_cons in Hall as [He Hall]. specialize (IH Hall).
  unfold commit_ts, committed in *. rewrite filter_cons.
  destruct a as [uuid j | |]; [destruct (nullish j) eqn:Hj | |].
  - rewrite decide_False by (unfold appends; simpl; by rewrite Hj).
    simpl. rewrite Hj. exact IH.
  - rewrite decide_True by (unfold appends; simpl; by rewrite Hj).
    simpl. rewrite Hj. f_equal; [|exact IH]. f_equal.
    unfold server_stamped in He; simpl in He. specialize (He Hj).
    destruct j as [[| | | | xs | kvs]|]; try done. simpl in *.
    unfold or_default. destruct (kvs !! "ts"); [by rewrite He | done].
  - rewrite decide_False by done. exact IH.
  - rewrite decide_False by done. exact IH.
Qed.

Lemma StronglySorted_clock (evs : list (Z * action)) :
  StronglySorted Z.le (map fst evs) →
  StronglySorted ts_le (map (λ e, Some (JNum e.1)) evs).
Proof.
  induction evs as [|e evs IH]; simpl; intros Hs; [constructor|].
  apply StronglySorted_cons in Hs as [Hx Hs].
  apply StronglySorted_cons. split; [|by apply IH].
  rewrite Forall_map in Hx. rewrite Forall_map.
  eapply Forall_impl; [done|]. by intros e'.
Qed.

(** C4, as stated, fails.  Two members each submit an operation whose
    [opId] is ["o1"].  Both are committed with the id they came with, and
    the log of the room holds the id ["o1"] twice. *)
Lemma C4_submitted_id_can_repeat :
  let w1 := (handleMessage "uuid-1" 1000 "r1" 0%nat (Some (JStr "op"))
               (op_message red_op) two_clients).2 in
  let r1 := default room_r1 (rooms w1 !! "r1") in
  let w2 := (handleMessage "uuid-2" 1001 "r1" 1%nat (Some (JStr "op"))
               (op_message (JObj {["opId" := JStr "o1"]})) w1).2 in
  let r2 := default room_r1 (rooms w2 !! "r1") in
  log_of r2 (heap w2) = [VRef 0%nat; VRef 1%nat] ∧
  log_ids r2 (heap w2) = [Some (JStr "o1"); Some (JStr "o1")] ∧
  ¬ NoDup (log_ids r2 (heap w2)).
Proof.
  intros w1 r1 w2 r2.
  assert (log_ids r2 (heap w2) = [Some (JStr "o1"); Some (JStr "o1")]) as E.
  { by vm_compute. }
  split_and!; [by vm_compute | done |].
  rewrite E. intros Hnd. apply NoDup_cons in Hnd as [Hin _].
  apply Hin. by left.
Qed.

(** C4, amended.  An operation that is submitted without an id (an [opId]
    that is absent or falsy) is given the id that [uuidv4()] returns; a
    submitted id is kept as it is, and is not compared with the ids in the
    log.  In a room, the ids of the operations in the log are, in log
    order, among the ids so given to the commits of the room, and are
    exactly those when no undo or redo happened.  So the log has no id
    twice whenever the ids given to the commits are pairwise distinct,
    which is for the submitting sessions and for [uuidv4()] to ensure.
    This holds of a room taken alone, from its creation, and of every room
    of every state that the server reaches, the commits of the room being
    those of the messages addressed to it. *)
Theorem C4_log_ids_are_the_committed_ids (i : string) (h0 : store)
    (acts : list (Z * action)) (evs : list event) (k : string) (r : room) :
  let st := run acts (createRoom i h0) in
  (log_ids st.1 st.2 `sublist_of` commit_ids acts ∧
   (Forall is_commit acts → log_ids st.1 st.2 = commit_ids acts) ∧
   (NoDup (commit_ids acts) → NoDup (log_ids st.1 st.2))) ∧
  (rooms (serve evs) !! k = Some r →
   log_ids r (heap (serve evs)) `sublist_of` commit_ids (actions_on k evs) ∧
   (NoDup (commit_ids (actions_on k evs)) → NoDup (log_ids r (heap (serve evs))))) ∧
  (∀ uuid kvs, truthy (kvs !! "opId") = false →
     assigned_id uuid (Some (JObj kvs)) = Some (JStr uuid)) ∧
  (∀ uuid kvs x, kvs !! "opId" = Some x → truthy (Some x) = true →
     assigned_id uuid (Some (JObj kvs)) = Some x).
Proof.
  intros st.
  assert (∀ (now : Z) uuid j r h r1 h1,
            nullish j = false →
            pushOp uuid now (reify j h).1 r (reify j h).2 = Some (r1, h1) →
            read h1 (reify j h).1 "opId" = assigned_id uuid j) as Hf.
  { intros now uuid j r0 h r1 h1. apply read_committed_opId. }
  assert (log_ids st.1 st.2 `sublist_of` commit_ids acts) as Hsub.
  { rewrite log_ids_reads. by apply run_log_read. }
  split_and!; [done | | | | |].
  - intros Hall. rewrite log_ids_reads. by apply run_commits_log_read.
  - intros Hnd. by eapply sublist_NoDup.
  - intros Hr.
    assert (log_ids r (heap (serve evs)) `sublist_of` commit_ids (actions_on k evs))
      as Hsub'.
    { by apply (serve_log_read "opId" (λ _ uuid j, assigned_id uuid j)). }
    split; [done|]. intros Hnd. by eapply sublist_NoDup.
  - intros uuid kvs Ht. unfold assigned_id, or_default.
    destruct (kvs !! "opId"); [by rewrite Ht | done].
  - intros uuid kvs x Hx Ht. unfold assigned_id, or_default.
    by rewrite Hx, Ht.
Qed.

(** C9, as stated, fails.  The first member submits an operation stamped
    2000 and the second one stamped 1000, at server times 5000 and 5001.
    Both stamps are kept: the log holds the timestamps 2000 and 1000 in
    that order, neither is the server's, and the second is smaller than the
    first. *)
Lemma C9_submitted_timestamp_is_kept :
  let w1 := (handleMessage "uuid-1" 5000 "r1" 0%nat (Some (JStr "op"))
               (op_message (JObj {["opId" := JStr "o1"; "ts" := JNum 2000]}))
               two_clients).2 in
  let w2 := (handleMessage "uuid-2" 5001 "r1" 1%nat (Some (JStr "op"))
               (op_message (JObj {["opId" := JStr "o2"; "ts" := JNum 1000]}))
               w1).2 in
  let r2 := default room_r1 (rooms w2 !! "r1") in
  log_ids r2 (heap w2) = [Some (JStr "o1"); Some (JStr "o2")] ∧
  log_ts r2 (heap w2) = [Some (JNum 2000); Some (JNum 1000)] ∧
  ¬ StronglySorted ts_le (log_ts r2 (heap w2)).
Proof.
  intros w1 w2 r2.
  assert (log_ts r2 (heap w2) = [Some (JNum 2000); Some (JNum 1000)]) as E.
  { by vm_compute. }
  split_and!; [by vm_compute | done |].
  rewrite E. intros Hs. apply StronglySorted_cons in Hs as [Hle _].
  apply Forall_cons in Hle as [Hle _]. simpl in Hle. lia.
Qed.

(** C9, amended.  The timestamp of a committed operation is the one it was
    submitted with when that is truthy, and the reading of the server's
    clock at the commit otherwise.  In a room, the timestamps of the
    operations in the log are, in log order, among the timestamps so given
    to the commits of the room.  When every commit leaves the timestamp to
    the server and the readings of the clock never decrease, the
    timestamps in the log are numbers and each is greater than or equal to
    those of all the operations before it.  This holds of a room taken
    alone, from its creation, and of every room of every state that the
    server reaches, the commits of the room being those of the messages
    addressed to it. *)
Theorem C9_server_timestamps_are_monotonic (i : string) (h0 : store)
    (acts : list (Z * action)) (evs : list event) (k : string) (r : room) :
  let st := run acts (createRoom i h0) in
  (log_ts st.1 st.2 `sublist_of` commit_ts acts ∧
   (Forall server_stamped acts → StronglySorted Z.le (map fst acts) →
      StronglySorted ts_le (log_ts st.1 st.2) ∧
      log_ts st.1 st.2 `sublist_of` map (λ e, Some (JNum e.1)) acts)) ∧
  (rooms (serve evs) !! k = Some r →
   log_ts r (heap (serve evs)) `sublist_of` commit_ts (actions_on k evs) ∧
   (Forall server_stamped (actions_on k evs) →
    StronglySorted Z.le (map fst (actions_on k evs)) →
      StronglySorted ts_le (log_ts r (heap (serve evs))))) ∧
  (∀ now kvs, truthy (kvs !! "ts") = false →
     assigned_ts now (Some (JObj kvs)) = Some (JNum now)) ∧
  (∀ now kvs x, kvs !! "ts" = Some x → truthy (Some x) = true →
     assigned_ts now (Some (JObj kvs)) = Some x).
Proof.
  intros st.
  assert (∀ now (uuid : string) j r h r1 h1,
            nullish j = false →
            pushOp uuid now (reify j h).1 r (reify j h).2 = Some (r1, h1) →
            read h1 (reify j h).1 "ts" = assigned_ts now j) as Hf.
  { intros now uuid j r0 h r1 h1. apply read_committed_ts. }
  assert (∀ (l : list (option json)) (es : list (Z * action)),
            l `sublist_of` commit_ts es →
            Forall server_stamped es → StronglySorted Z.le (map fst es) →
            StronglySorted ts_le l ∧
            l `sublist_of` map (λ e, Some (JNum e.1)) es) as Hsorted.
  { intros l es Hsub Hall Hclock.
    rewrite (commit_ts_server_stamped es Hall) in Hsub.
    assert (l `sublist_of` map (λ e, Some (JNum e.1)) es) as Hsub'.
    { etrans; [done|].
      apply (fmap_sublist (λ e, Some (JNum e.1))), sublist_filter. }
    split; [|done].
    eapply sublist_StronglySorted; [done|]. by apply StronglySorted_clock. }
  assert (log_ts st.1 st.2 `sublist_of` commit_ts acts) as Hsub.
  { rewrite log_ts_reads. by apply run_log_read. }
  split_and!; [done | | | |].
  - intros Hall Hclock. by apply Hsorted.
  - intros Hr.
    assert (log_ts r (heap (serve evs)) `sublist_of` commit_ts (actions_on k evs))
      as Hsub'.
    { by apply (serve_log_read "ts" (λ now _ j, assigned_ts now j)). }
    split; [done|]. intros Hall Hclock.
    by destruct (Hsorted _ _ Hsub' Hall Hclock).
  - intros now kvs Ht. unfold assigned_ts, or_default.
    destruct (kvs !! "ts"); [by rewrite Ht | done].
  - intros now kvs x Hx Ht. unfold assigned_ts, or_default.
    by rewrite Hx, Ht.
Qed.

(** ** Presence *)

Section presence.
Implicit Types (ss : gmap ws socket) (c : ws) (cs : list ws) (s : socket)
  (r : room) (w : world).

Lemma sent_more_refl s : sent_more s s.
Proof. by split_and!. Qed.

Lemma sent_more_trans s1 s2 s3 : sent_more s1 s2 → sent_more s2 s3 → sent_more s1 s3.
Proof.
  intros (A1 & A2 & A3 & A4 & A5) (B1 & B2 & B3 & B4 & B5).
  split_and!; [congruence.. | by etrans].
Qed.

Lemma sent_more_push msg s : sent_more s (push_sent msg s).
Proof. split_and!; try done. simpl. by apply prefix_app_r. Qed.

Lemma sent_more_user_entry s s' : sent_more s s' → user_entry s' = user_entry s.
Proof. intros (A1 & A2 & A3 & _). unfold user_entry. by rewrite A1, A2, A3. Qed.

Lemma socks_grow_refl ss : socks_grow ss ss.
Proof.
  intros c. destruct (ss !! c); constructor. apply sent_more_refl.
Qed.

Lemma socks_grow_trans ss1 ss2 ss3 :
  socks_grow ss1 ss2 → socks_grow ss2 ss3 → socks_grow ss1 ss3.
Proof.
  intros H1 H2 c. specialize (H1 c). specialize (H2 c).
  destruct H1 as [s1 s2 H1|]; inversion H2; subst; constructor.
  by eapply sent_more_trans.
Qed.

Lemma send_grow c msg ss : socks_grow ss (send c msg ss).
Proof.
  intros c'. unfold send. destruct (decide (c = c')) as [<-|Hne].
  - rewrite lookup_alter_eq. destruct (ss !! c); constructor. apply sent_more_push.
  - rewrite lookup_alter_ne by done. apply socks_grow_refl.
Qed.

Lemma deliver_grow ex msg ss c : socks_grow ss (deliver ex msg ss c).
Proof.
  unfold deliver. case_decide; [apply socks_grow_refl|].
  destruct (ss !! c); [|apply socks_grow_refl].
  case_decide; [apply send_grow | apply socks_grow_refl].
Qed.

Lemma foldl_deliver_grow ex msg cs ss : socks_grow ss (foldl (deliver ex msg) ss cs).
Proof.
  revert ss. induction cs as [|c cs IH]; intros ss; [apply socks_grow_refl|].
  simpl. eapply socks_grow_trans; [apply deliver_grow | apply IH].
Qed.

Lemma broadcast_grow k msg ex w : socks_grow (socks w) (socks (broadcast k msg ex w)).
Proof.
  unfold broadcast. destruct (rooms w !! k); [|apply socks_grow_refl].
  apply foldl_deliver_grow.
Qed.

Lemma userList_entries ss r :
  userList ss r = JArr (omap (λ c, user_entry <$> ss !! c) (clients r)).
Proof. reflexivity. Qed.

(** The user list does not depend on what was sent. *)
Lemma userList_grow ss ss' r : socks_grow ss ss' → userList ss' r = userList ss r.
Proof.
  intros Hg. rewrite !userList_entries. f_equal. apply list_omap_ext.
  apply Forall_Forall2_diag, Forall_forall. intros c _.
  destruct (Hg c) as [s s' Hs|]; [|done]. simpl. f_equal.
  by apply sent_more_user_entry.
Qed.

Lemma socks_grow_after client ss ss' :
  socks_grow ss ss' →
  ∀ c, option_Forall2 (after_message client c) (ss !! c) (ss' !! c).
Proof.
  intros Hg c. destruct (Hg c) as [s s' (H1 & H2 & H3 & H4 & H5)|]; constructor.
  by split_and!.
Qed.

Lemma broadcast_notin k msg ex w c :
  c ∉ members k w → socks (broadcast k msg ex w) !! c = socks w !! c.
Proof.
  unfold members, broadcast. destruct (rooms w !! k) as [r|]; [|done].
  intros Hc. simpl. by apply foldl_deliver_notin.
Qed.
End presence.

(** ** What a message leaves alone *)

Section frames.
Implicit Types (w : world) (r : room) (s : socket) (ss : gmap ws socket).

Lemma act_same_members now a (st : room * store) : same_members st.1 (act now a st).1.
Proof.
  destruct st as [r h]. destruct a as [uuid j | |]; simpl; try by split_and!.
  destruct (reify j h) as [op h0].
  destruct (pushOp uuid now op r h0) as [[r1 h1]|] eqn:Hpush; [|by split_and!].
  apply (pushOp_room _ _ _ _ _ _ _ Hpush).
Qed.

Lemma run_same_members acts : ∀ (st : room * store), same_members st.1 (run acts st).1.
Proof.
  induction acts as [|[now a] acts IH]; intros st; [by split_and!|].
  simpl. destruct (act_same_members now a st) as (H1 & H2 & H3).
  destruct (IH (act now a st)) as (H4 & H5 & H6).
  split_and!; congruence.
Qed.

Lemma handleMessage_rooms uuid now k client type payload w k' :
  option_Forall2 same_members (rooms w !! k')
    (rooms (handleMessage uuid now k client type payload w).2 !! k').
Proof.
  assert (∀ m : gmap string room, option_Forall2 same_members (m !! k') (m !! k'))
    as Hrefl.
  { intros m. destruct (m !! k'); constructor. by split_and!. }
  destruct (rooms w !! k) as [r|] eqn:Hr;
    [|unfold handleMessage; rewrite Hr; apply Hrefl].
  destruct (socks w !! client) as [s|] eqn:Hs;
    [|unfold handleMessage; rewrite Hr, Hs; apply Hrefl].
  destruct (handleMessage_effect uuid now k client type payload w r s Hr Hs)
    as [(a & _ & -> & _) | [(-> & _) | (-> & _)]]; try apply Hrefl.
  destruct (decide (k = k')) as [<- | Hne].
  - rewrite lookup_insert_eq, Hr. constructor.
    apply (act_same_members now a (r, heap w)).
  - rewrite lookup_insert_ne by done. apply Hrefl.
Qed.

Lemma handleMessage_socks uuid now k client type payload w c :
  option_Forall2 (after_message client c) (socks w !! c)
    (socks (handleMessage uuid now k client type payload w).2 !! c).
Proof.
  assert (∀ ss', socks_grow (socks w) ss' →
            option_Forall2 (after_message client c) (socks w !! c) (ss' !! c))
    as Hgrow.
  { intros ss' Hg. by apply socks_grow_after. }
  unfold handleMessage.
  destruct (rooms w !! k) as [r|] eqn:Hr; [|apply Hgrow, socks_grow_refl].
  destruct (socks w !! client) as [s|] eqn:Hs; [|apply Hgrow, socks_grow_refl].
  destruct (type_is type "ping").
  { destruct (json_prop payload "ts"); [|apply Hgrow, socks_grow_refl].
    apply Hgrow. simpl. apply send_grow. }
  destruct (type_is type "meta").
  { destruct (json_prop payload "username") as [u|]; [|apply Hgrow, socks_grow_refl].
    destruct (json_prop payload "color") as [co|]; [|apply Hgrow, socks_grow_refl].
    simpl. set (s' := Socket _ _ _ _ _). set (ss := <[client:=s']> (socks w)).
    set (msg := envelope _ _).
    pose proof (broadcast_grow (room_id r) msg None (World (rooms w) ss (heap w)) c)
      as Hb. simpl in Hb.
    destruct (decide (c = client)) as [-> | Hne].
    - subst ss. rewrite lookup_insert_eq in Hb. rewrite Hs.
      inversion Hb as [? s2 (H1 & H2 & H3 & H4 & H5) |]; subst. constructor.
      by split_and!.
    - subst ss. rewrite lookup_insert_ne in Hb by done.
      destruct Hb as [s1 s2 (H1 & H2 & H3 & H4 & H5)|]; constructor.
      by split_and!. }
  destruct (type_is type "stroke-part").
  { simpl. apply Hgrow. apply (broadcast_grow _ _ _ (put_room k r (heap w) w)). }
  destruct (type_is type "op").
  { destruct (json_prop payload "op") as [j|]; [|apply Hgrow, socks_grow_refl].
    destruct (reify j (heap w)) as [op h0].
    destruct (pushOp uuid now op r h0) as [[r1 h1]|]; [|apply Hgrow, socks_grow_refl].
    simpl. apply Hgrow. apply (broadcast_grow _ _ _ (put_room k r1 h1 w)). }
  destruct (type_is type "undo").
  { destruct (undoLast now r (heap w)) as [[[info|]|] h1];
      try apply Hgrow, socks_grow_refl.
    simpl. apply Hgrow. eapply socks_grow_trans; [|apply broadcast_grow].
    apply (broadcast_grow _ _ _ (World (rooms w) (socks w) h1)). }
  destruct (type_is type "redo").
  { destruct (redoLast now r (heap w)) as [[info|] h1];
      try apply Hgrow, socks_grow_refl.
    simpl. apply Hgrow. eapply socks_grow_trans; [|apply broadcast_grow].
    apply (broadcast_grow _ _ _ (World (rooms w) (socks w) h1)). }
  destruct (type_is type "cursor").
  { destruct (json_prop payload "x"); [|apply Hgrow, socks_grow_refl].
    destruct (json_prop payload "y"); [|apply Hgrow, socks_grow_refl].
    simpl. apply Hgrow. apply broadcast_grow. }
  destruct (type_is type "request-state"); [|apply Hgrow, socks_grow_refl].
  destruct (getState r (heap w)) as [snap h1]. simpl. apply Hgrow. apply send_grow.
Qed.

Lemma on_message_rooms uuid now k client msg w k' :
  option_Forall2 same_members (rooms w !! k')
    (rooms (on_message uuid now k client msg w) !! k').
Proof.
  unfold on_message.
  assert (option_Forall2 same_members (rooms w !! k') (rooms w !! k')) as Hrefl.
  { destruct (rooms w !! k'); constructor. by split_and!. }
  destruct msg as [j|]; [|done].
  destruct (json_prop (Some j) "type") as [type|]; [|done].
  destruct (json_prop (Some j) "payload") as [payload|]; [|done].
  apply handleMessage_rooms.
Qed.

Lemma on_message_members uuid now k client msg w k' :
  members k' (on_message uuid now k client msg w) = members k' w.
Proof.
  unfold members.
  destruct (on_message_rooms uuid now k client msg w k') as [r r' (_ & Hcl & _)|];
    done.
Qed.

Lemma on_message_socks uuid now k client msg w c :
  option_Forall2 (after_message client c) (socks w !! c)
    (socks (on_message uuid now k client msg w) !! c).
Proof.
  unfold on_message.
  assert (option_Forall2 (after_message client c) (socks w !! c) (socks w !! c))
    as Hrefl.
  { destruct (socks w !! c); constructor. by split_and!. }
  destruct msg as [j|]; [|done].
  destruct (json_prop (Some j) "type") as [type|]; [|done].
  destruct (json_prop (Some j) "payload") as [payload|]; [|done].
  apply handleMessage_socks.
Qed.

(** A connection that is neither the sender nor a member of the sender's
    room is left alone by the handler. *)
Lemma handleMessage_other_socket uuid now k client type payload w c :
  world_ok w → c ≠ client → c ∉ members k w →
  socks (handleMessage uuid now k client type payload w).2 !! c = socks w !! c.
Proof.
  intros Hok Hne Hc. unfold handleMessage.
  destruct (rooms w !! k) as [r|] eqn:Hr; [|done].
  destruct (socks w !! client) as [s|] eqn:Hs; [|done].
  pose proof (wok_id _ Hok k r Hr) as Hid.
  assert (c ∉ clients r) as Hcr by (unfold members in Hc; by rewrite Hr in Hc).
  assert (∀ msg ex ss h,
            socks (broadcast (room_id r) msg ex (World (rooms w) ss h)) !! c = ss !! c)
    as Hb.
  { intros msg ex ss h. rewrite broadcast_notin; [done|].
    unfold members. simpl. by rewrite Hid, Hr. }
  assert (∀ msg ex r1 h, clients r1 = clients r → room_id r1 = room_id r →
            socks (broadcast (room_id r1) msg ex (put_room k r1 h w)) !! c
              = socks w !! c) as Hp.
  { intros msg ex r1 h Hcl Hid1. rewrite broadcast_notin; [done|].
    unfold members, put_room. simpl. by rewrite Hid1, Hid, lookup_insert_eq, Hcl. }
  destruct (type_is type "ping").
  { destruct (json_prop payload "ts"); [|done]. simpl.
    unfold send. by rewrite lookup_alter_ne. }
  destruct (type_is type "meta").
  { destruct (json_prop payload "username"); [|done].
    destruct (json_prop payload "color"); [|done]. simpl.
    rewrite Hb. by rewrite lookup_insert_ne. }
  destruct (type_is type "stroke-part").
  { simpl. by rewrite Hp. }
  destruct (type_is type "op").
  { destruct (json_prop payload "op") as [j|]; [|done].
    destruct (reify j (heap w)) as [op h0].
    destruct (pushOp uuid now op r h0) as [[r1 h1]|] eqn:Hpush; [|done].
    destruct (pushOp_room _ _ _ _ _ _ _ Hpush) as (Hid1 & Hcl1 & _).
    simpl. by rewrite Hp. }
  destruct (type_is type "undo").
  { destruct (undoLast now r (heap w)) as [[[info|]|] h1]; try done.
    simpl. rewrite broadcast_notin.
    - by rewrite Hb.
    - unfold members. rewrite broadcast_rooms. simpl. by rewrite Hid, Hr. }
  destruct (type_is type "redo").
  { destruct (redoLast now r (heap w)) as [[info|] h1]; try done.
    simpl. rewrite broadcast_notin.
    - by rewrite Hb.
    - unfold members. rewrite broadcast_rooms. simpl. by rewrite Hid, Hr. }
  destruct (type_is type "cursor").
  { destruct (json_prop payload "x"); [|done].
    destruct (json_prop payload "y"); [|done]. simpl.
    rewrite broadcast_notin; [done|]. unfold members. by rewrite Hid, Hr. }
  destruct (type_is type "request-state"); [|done].
  destruct (getState r (heap w)) as [snap h1]. simpl.
  unfold send. by rewrite lookup_alter_ne.
Qed.


End frames.

(** X1.  No message changes who is in which room: after a message is handled,
    whatever it is and whether or not the handler throws, every room is
    registered as before, with the same id, the same members in the same order
    and the same log array.  Of a connection object, a message changes neither
    the [userId] nor the [readyState]; what was sent to it is still there,
    followed by what the message made the server send; and the name and the
    colour change only on the connection that the message came on. *)
Theorem message_keeps_presence (uuid : string) (now : Z) (k : string)
    (client : ws) (msg : option json) (w : world) :
  let w' := on_message uuid now k client msg w in
  (∀ k', option_Forall2 same_members (rooms w !! k') (rooms w' !! k')) ∧
  (∀ k', members k' w' = members k' w) ∧
  (∀ c, option_Forall2 (after_message client c) (socks w !! c) (socks w' !! c)).
Proof.
  intros w'. split_and!.
  - apply on_message_rooms.
  - apply on_message_members.
  - apply on_message_socks.
Qed.

(** X2.  Rooms are isolated: in a well-formed state, whatever the event, a
    connection object that is not the one of the event and is not a member of
    the room of the event is as it was after the event.  Nothing is sent to it
    and none of its fields is written. *)
Theorem step_sends_only_within_the_room (w : world) (e : event) (c : ws) :
  world_ok w → c ≠ event_client e →
  (∀ k, event_room e = Some k → c ∉ members k w) →
  socks (step w e) !! c = socks w !! c.
Proof.
  intros Hok Hne Hroom.
  destruct e as [client state uid k uname ucolor | uuid now k client msg
                | k client | client state]; simpl in *.
  - specialize (Hroom k eq_refl). unfold on_connection.
    pose proof (getOrCreate_world_ok k w Hok) as (_ & Hreg & Hss).
    assert (clients (getOrCreate k w).1 = members k w) as Hcl.
    { unfold getOrCreate, members. by destruct (rooms w !! k) as [r0|]. }
    destruct (getOrCreate k w) as [r w1]. simpl in Hreg, Hss, Hcl.
    set (s0 := Socket uid _ _ state []).
    destruct (join client r (<[client:=s0]> (socks w1))) as [r1 ss1] eqn:Hjoin.
    destruct (join_facts _ _ _ _ _ Hjoin) as (_ & _ & _ & Hin & _ & _).
    assert (ss1 !! c = socks w !! c) as Hss1.
    { unfold join in Hjoin. injection Hjoin as <- <-.
      rewrite foldl_deliver_notin.
      - by rewrite lookup_insert_ne, Hss.
      - intros Hc. destruct (Hin c Hc) as [Hc'|Hc']; [|done].
        by rewrite Hcl in Hc'. }
    case_decide; [|done].
    destruct (getState r1 (heap w1)) as [snap h1]. simpl.
    unfold send. by rewrite !lookup_alter_ne.
  - specialize (Hroom k eq_refl). unfold on_message.
    destruct msg as [j|]; [|done].
    destruct (json_prop (Some j) "type") as [type|]; [|done].
    destruct (json_prop (Some j) "payload") as [payload|]; [|done].
    by apply handleMessage_other_socket.
  - specialize (Hroom k eq_refl). unfold on_close.
    destruct (rooms w !! k) as [r|] eqn:Hr; [|done].
    destruct (socks w !! client) as [s|] eqn:Hs; [|done].
    assert (c ∉ clients (leave client r)) as Hc.
    { unfold leave. simpl. rewrite list_elem_of_filter. intros [_ Hc].
      apply Hroom. unfold members. by rewrite Hr. }
    rewrite !broadcast_notin; [done | |].
    + unfold members. simpl. by rewrite lookup_insert_eq.
    + unfold members. rewrite broadcast_rooms. simpl. by rewrite lookup_insert_eq.
  - unfold set_readyState. by rewrite lookup_alter_ne.
Qed.


(** ** Rooms, connections and disconnections *)

Section manager.
Implicit Types (w : world) (r : room) (h : store) (s : socket).

Lemma createRoom_fresh i h :
  room_id (createRoom i h).1 = i ∧ clients (createRoom i h).1 = [] ∧
  (opLog (createRoom i h).1 ∉ dom (arrs h)) ∧
  (undoneStack (createRoom i h).1 ∉ dom (arrs h)).
Proof.
  unfold createRoom, alloc_arr. simpl.
  set (lg := fresh (dom (arrs h))).
  set (st := fresh (dom (arrs (set_arr lg [] h)))).
  split_and!; [done | done | apply is_fresh |].
  intros Hin. apply (is_fresh (dom (arrs (set_arr lg [] h)))).
  fold st. rewrite dom_set_arr, elem_of_union. by right.
Qed.

Lemma stringify_array_objs h h' xs :
  objs h = objs h' → stringify_array h xs = stringify_array h' xs.
Proof.
  intros Ho. unfold stringify_array. f_equal. apply map_ext. intros v.
  by rewrite (stringify_objs h h' v Ho).
Qed.

Lemma getState_text r h :
  stringify_array (getState r h).2 (arr (getState r h).2 (getState r h).1)
    = log_text r h.
Proof.
  unfold getState, alloc_arr; simpl. rewrite arr_set_arr_eq. reflexivity.
Qed.

(** The room that [getOrCreate] returns, as the ['connection'] listener
    finds it. *)
Lemma getOrCreate_room k w :
  world_ok w →
  let r := (getOrCreate k w).1 in
  let w1 := (getOrCreate k w).2 in
  rooms w1 !! k = Some r ∧ socks w1 = socks w ∧
  (∀ k', k' ≠ k → rooms w1 !! k' = rooms w !! k') ∧
  clients r = members k w ∧
  log_text r (heap w1) =
    match rooms w !! k with
    | Some r0 => log_text r0 (heap w)
    | None => JArr []
    end ∧
  objs (heap w1) = objs (heap w) ∧
  room_ok r (heap w1).
Proof.
  intros Hok r w1. subst r w1. unfold getOrCreate, members.
  destruct (rooms w !! k) as [r0|] eqn:Hr0.
  { split_and!; try done. by apply (wok_room _ Hok k). }
  pose proof (createRoom_ok k (heap w)) as Hrok.
  pose proof (createRoom_empty k (heap w)) as [Hlog _].
  pose proof (allocs_createRoom k (heap w)) as (Ho & _).
  pose proof (createRoom_fresh k (heap w)) as (_ & Hcl & _).
  destruct (createRoom k (heap w)) as [r h]. simpl in *.
  split_and!; try done.
  - by rewrite lookup_insert_eq.
  - intros k' Hne. by rewrite lookup_insert_ne.
  - unfold log_text. by rewrite Hlog.
Qed.
End manager.

(** X4.  [getOrCreate] registers a room once.  The room it returns is the one
    registered under the id afterwards, and a second call returns that same
    room and changes nothing.  A room that is already registered is returned
    as it is, and the state of the server is unchanged.  A room that is not is
    created with no member, an empty log and an empty stack, which are two
    new, distinct arrays; no object and no other array of the heap is touched.
    In both cases the other rooms and the connection objects are as they were.
    *)
Theorem getOrCreate_registers_once (k : string) (w : world) :
  let r := (getOrCreate k w).1 in
  let w1 := (getOrCreate k w).2 in
  rooms w1 !! k = Some r ∧
  getOrCreate k w1 = (r, w1) ∧
  socks w1 = socks w ∧
  (∀ k', k' ≠ k → rooms w1 !! k' = rooms w !! k') ∧
  (∀ r0, rooms w !! k = Some r0 → r = r0 ∧ w1 = w) ∧
  (rooms w !! k = None →
     room_id r = k ∧ clients r = [] ∧
     log_of r (heap w1) = [] ∧ stack_of r (heap w1) = [] ∧
     opLog r ≠ undoneStack r ∧
     (opLog r ∉ dom (arrs (heap w))) ∧ (undoneStack r ∉ dom (arrs (heap w))) ∧
     allocs (heap w) (heap w1)).
Proof.
  intros r w1.
  assert (rooms w1 !! k = Some r) as Hreg.
  { subst r w1. unfold getOrCreate. destruct (rooms w !! k) as [r0|] eqn:Hr; [done|].
    destruct (createRoom k (heap w)) as [r h]. simpl. by rewrite lookup_insert_eq. }
  split_and!; [done | | | | |].
  - unfold getOrCreate at 1. rewrite Hreg. done.
  - subst w1. unfold getOrCreate. destruct (rooms w !! k); [done|].
    by destruct (createRoom k (heap w)).
  - intros k' Hne. subst w1. unfold getOrCreate. destruct (rooms w !! k); [done|].
    destruct (createRoom k (heap w)). simpl. by rewrite lookup_insert_ne.
  - intros r0 Hr0. subst r w1. unfold getOrCreate. by rewrite Hr0.
  - intros Hnone. subst r w1. unfold getOrCreate. rewrite Hnone.
    pose proof (createRoom_ok k (heap w)) as [Hl Hs Hd _ _].
    pose proof (createRoom_empty k (heap w)) as [Hlog Hstk].
    pose proof (allocs_createRoom k (heap w)) as Hal.
    pose proof (createRoom_fresh k (heap w)) as (Hid & Hcl & Hf1 & Hf2).
    destruct (createRoom k (heap w)) as [r h]. simpl in *.
    split_and!; done.
Qed.

(** X5.  A new connection.  In a well-formed state, when a connection object
    that the server has not seen yet is accepted into room [k], the room is
    created if it is not there, the connection becomes its last member, and
    the log of the room is not touched.  Every member whose connection is
    open, the newcomer included, is sent the new user list by [join]; the
    newcomer, when its connection is open, is then sent the user list a second
    time and the text of the log of the room (an empty array for a new room),
    and nothing when its connection is not open.  No other room and no object
    of the heap changes, and nothing is sent outside the room. *)
Theorem on_connection_syncs_the_newcomer (client : ws) (state : nat)
    (uid k uname ucolor : string) (w : world) :
  world_ok w → socks w !! client = None →
  let w' := on_connection client state uid k uname ucolor w in
  let log := match rooms w !! k with
             | Some r => log_text r (heap w)
             | None => JArr []
             end in
  ∃ r' s',
    rooms w' !! k = Some r' ∧
    clients r' = members k w ++ [client] ∧
    log_text r' (heap w') = log ∧
    socks w' !! client = Some s' ∧
    userId s' = uid ∧
    username s' = JStr (if String.eqb uname EmptyString then "Anon" else uname) ∧
    color s' = JStr (if String.eqb ucolor EmptyString then "#000000" else ucolor) ∧
    readyState s' = state ∧
    let users := envelope "user-list" (Some (userList (socks w') r')) in
    sent s' = (if decide (state = OPEN)
               then [users; users; envelope "state" (Some log)] else []) ∧
    (∀ c sc, c ∈ members k w → socks w !! c = Some sc → readyState sc = OPEN →
       socks w' !! c = Some (push_sent users sc)) ∧
    (∀ c sc, socks w !! c = Some sc → c ∉ members k w ∨ readyState sc ≠ OPEN →
       socks w' !! c = Some sc) ∧
    (∀ k', k' ≠ k → rooms w' !! k' = rooms w !! k') ∧
    objs (heap w') = objs (heap w).
Proof.
  intros Hok Hfresh w' log.
  pose proof (getOrCreate_room k w Hok)
    as (Hreg & Hss & Hother & Hcl & Hlog & Hobjs & Hrok).
  simpl in Hreg, Hss, Hother, Hcl, Hlog, Hobjs, Hrok. fold log in Hlog.
  assert (client ∉ members k w) as Hnotin.
  { unfold members. destruct (rooms w !! k) as [r0|] eqn:Hr0; [|apply not_elem_of_nil].
    intros Hin. destruct (wok_live _ Hok k r0 client Hr0 Hin) as [s Hs]. congruence. }
  assert (NoDup (members k w)) as Hnd.
  { unfold members. destruct (rooms w !! k) as [r0|] eqn:Hr0; [|constructor].
    by apply (wok_members _ Hok k). }
  subst w'. unfold on_connection.
  destruct (getOrCreate k w) as [r w1].
  simpl in Hreg, Hss, Hother, Hcl, Hlog, Hobjs, Hrok.
  set (s0 := Socket uid _ _ state []).
  set (r1 := Room (room_id r) (members k w ++ [client]) (opLog r) (undoneStack r)).
  set (ss0 := <[client:=s0]> (socks w1)).
  set (txt := obj [("type", Some (JStr "user-list"));
                   ("payload", Some (userList ss0 r1))]).
  set (ss1 := foldl (deliver None txt) ss0 (clients r1)).
  assert (join client r ss0 = (r1, ss1)) as Hjoin.
  { unfold join. rewrite Hcl, decide_False by done. reflexivity. }
  rewrite Hjoin.
  assert (NoDup (clients r1)) as Hnd1.
  { simpl. apply NoDup_app. split_and!; [done | | apply NoDup_singleton].
    intros c Hc ->%list_elem_of_singleton. done. }
  assert (log_text r1 (heap w1) = log) as Hlog1 by done.
  assert (∀ ss, socks_grow ss0 ss →
            envelope "user-list" (Some (userList ss r1)) = txt) as Htxt.
  { intros ss Hg. unfold envelope. by rewrite (userList_grow ss0 ss r1 Hg). }
  assert (socks_grow ss0 ss1) as Hg1 by apply foldl_deliver_grow.
  assert (∀ c sc, c ∈ members k w → socks w !! c = Some sc → readyState sc = OPEN →
            ss1 !! c = Some (push_sent txt sc)) as Hopen.
  { intros c sc Hc Hsc Hop. apply foldl_deliver_open; try done.
    - simpl. apply elem_of_app. by left.
    - subst ss0. rewrite lookup_insert_ne, Hss; [done|]. intros <-. congruence. }
  assert (∀ c sc, socks w !! c = Some sc → c ∉ members k w ∨ readyState sc ≠ OPEN →
            ss1 !! c = Some sc) as Hskip.
  { intros c sc Hsc Hwhy. assert (c ≠ client) as Hne by (intros ->; congruence).
    apply foldl_deliver_skip.
    - subst ss0. by rewrite lookup_insert_ne, Hss.
    - destruct Hwhy as [Hc | Hst]; [left | by right; right].
      simpl. intros [?|?%list_elem_of_singleton]%elem_of_app; done. }
  assert (ss1 !! client = Some (if decide (state = OPEN) then push_sent txt s0 else s0))
    as Hclient.
  { case_decide.
    - apply foldl_deliver_open; try done.
      + simpl. apply elem_of_app. right. by apply list_elem_of_singleton.
      + subst ss0. by rewrite lookup_insert_eq.
    - apply foldl_deliver_skip; [subst ss0; by rewrite lookup_insert_eq|].
      right; right. done. }
  case_decide as Hstate.
  - destruct (getState r1 (heap w1)) as [snap h1] eqn:Hg.
    assert (stringify_array h1 (arr h1 snap) = log) as Hsnap.
    { pose proof (getState_text r1 (heap w1)) as Ht. rewrite Hg in Ht. simpl in Ht.
      by rewrite Ht. }
    assert (objs h1 = objs (heap w1)) as Ho1.
    { unfold getState, alloc_arr in Hg. by injection Hg as _ <-. }
    assert (log_text r1 h1 = log) as Hlog2.
    { pose proof (allocs_alloc_arr (arr (heap w1) (opLog r1)) (heap w1)) as (_ & _ & Ha).
      unfold getState in Hg. rewrite Hg in Ha. simpl in Ha.
      unfold log_text, log_of. rewrite Ha by (by destruct Hrok).
      rewrite <- Hlog1. unfold log_text, log_of. by apply stringify_array_objs. }
    rewrite Hsnap. rewrite (Htxt ss1 Hg1). simpl.
    assert (socks_grow ss0 (send client (envelope "state" (Some log))
                              (send client txt ss1))) as Hg2.
    { eapply socks_grow_trans; [exact Hg1|].
      eapply socks_grow_trans; apply send_grow. }
    eexists r1, _. split_and!.
    + by rewrite lookup_insert_eq.
    + done.
    + done.
    + unfold send. rewrite lookup_alter_eq, lookup_alter_eq, Hclient. reflexivity.
    + done.
    + done.
    + done.
    + done.
    + simpl. by rewrite Htxt.
    + intros c sc Hc Hsc Hop. assert (c ≠ client) as Hne by (intros ->; congruence).
      unfold send. rewrite !lookup_alter_ne by done.
      rewrite Htxt by done. by apply Hopen.
    + intros c sc Hsc Hwhy. assert (c ≠ client) as Hne by (intros ->; congruence).
      unfold send. rewrite !lookup_alter_ne by done. by apply Hskip.
    + intros k' Hne. rewrite lookup_insert_ne by done. by apply Hother.
    + by rewrite Ho1.
  - simpl. eexists r1, _. split_and!.
    + by rewrite lookup_insert_eq.
    + done.
    + done.
    + exact Hclient.
    + done.
    + done.
    + done.
    + done.
    + done.
    + intros c sc Hc Hsc Hop. rewrite (Htxt ss1 Hg1). by apply Hopen.
    + done.
    + intros k' Hne. rewrite lookup_insert_ne by done. by apply Hother.
    + done.
Qed.

(** X6.  A disconnection.  In a well-formed state, when the ['close'] listener
    of a connection of room [k] runs, the connection is removed from the
    members of the room and the other members keep their order; the room stays
    registered, with its log and its stack, even when no member is left.
    Every remaining member whose connection is open is sent two messages, in
    this order: the user list without the leaver, and ['user-left'] with the
    [userId] of the leaver.  Nothing is sent to the leaver, to a member whose
    connection is not open, or outside the room. *)
Theorem on_close_announces_the_leaver (k : string) (client : ws) (w : world)
    (r : room) (s : socket) :
  world_ok w → rooms w !! k = Some r → socks w !! client = Some s →
  let w' := on_close k client w in
  let users := envelope "user-list" (Some (userList (socks w') (leave client r))) in
  let gone := envelope "user-left" (Some (obj [("userId", Some (JStr (userId s)))])) in
  rooms w' !! k = Some (leave client r) ∧
  members k w' = filter (λ c, c ≠ client) (clients r) ∧
  (client ∉ members k w') ∧
  socks w' !! client = Some s ∧
  (∀ c sc, c ∈ clients r → c ≠ client → socks w !! c = Some sc →
     readyState sc = OPEN →
     socks w' !! c = Some (push_sent gone (push_sent users sc))) ∧
  (∀ c sc, socks w !! c = Some sc → c ∉ clients r ∨ readyState sc ≠ OPEN →
     socks w' !! c = Some sc) ∧
  (∀ k', k' ≠ k → rooms w' !! k' = rooms w !! k') ∧
  heap w' = heap w ∧
  log_of (leave client r) (heap w') = log_of r (heap w) ∧
  stack_of (leave client r) (heap w') = stack_of r (heap w).
Proof.
  intros Hok Hr Hs w' users gone.
  pose proof (wok_members _ Hok k r Hr) as Hnd.
  set (r1 := leave client r) in *.
  set (w1 := World (<[k:=r1]> (rooms w)) (socks w) (heap w)).
  set (txt := envelope "user-list" (Some (userList (socks w1) r1))).
  assert (w' = World (rooms w1)
                 (foldl (deliver None gone)
                    (foldl (deliver None txt) (socks w) (clients r1)) (clients r1))
                 (heap w)) as Hw'.
  { subst w'. unfold on_close. rewrite Hr, Hs. fold r1. fold w1. fold txt.
    unfold broadcast. simpl. rewrite !lookup_insert_eq. simpl.
    by rewrite lookup_insert_eq. }
  assert (NoDup (clients r1)) as Hnd1 by (by apply NoDup_filter).
  assert (∀ c, c ∈ clients r1 ↔ c ≠ client ∧ c ∈ clients r) as Hin.
  { intros c. subst r1. unfold leave. simpl. by rewrite list_elem_of_filter. }
  assert (users = txt) as Husers.
  { subst users txt. unfold envelope. rewrite Hw'. simpl.
    rewrite (userList_grow (socks w)); [done|].
    eapply socks_grow_trans; apply foldl_deliver_grow. }
  rewrite Husers. rewrite Hw'. simpl. split_and!.
  - by rewrite lookup_insert_eq.
  - unfold members. simpl. by rewrite lookup_insert_eq.
  - unfold members. simpl. rewrite lookup_insert_eq. intros [? _]%Hin. done.
  - apply foldl_deliver_skip; [|left; by intros [? _]%Hin].
    apply foldl_deliver_skip; [done|]. left; by intros [? _]%Hin.
  - intros c sc Hc Hne Hsc Hop.
    apply foldl_deliver_open; try done; [by apply Hin|].
    apply foldl_deliver_open; try done. by apply Hin.
  - intros c sc Hsc Hwhy.
    assert (c ∉ clients r1 ∨ None = Some c ∨ readyState sc ≠ OPEN) as Hwhy1.
    { destruct Hwhy as [Hc|Hst]; [left | by right; right].
      intros [_ ?]%Hin. done. }
    apply foldl_deliver_skip; [|done]. by apply foldl_deliver_skip.
  - intros k' Hne. by rewrite lookup_insert_ne.
  - done.
  - done.
  - done.
Qed.

(** ** The messages that are not commits *)

Section payloads.
Implicit Types (j : option json) (k : string).

Lemma json_prop_nullish j k : json_prop j k = None ↔ nullish j = true.
Proof. destruct j as [[]|]; simpl; split; done. Qed.

Lemma json_prop_not_nullish j k : nullish j = false → ∃ x, json_prop j k = Some x.
Proof. destruct j as [[]|]; simpl; intros; try done; eauto. Qed.

Lemma obj_singleton_prop k (x : option json) :
  json_prop (Some (obj [(k, x)])) k = Some x.
Proof.
  unfold obj. destruct x as [x|]; simpl.
  - by rewrite insert_empty, lookup_singleton_eq.
  - by rewrite lookup_empty.
Qed.

Lemma type_is_true (type : option json) (name : string) :
  type_is type name = true ↔ type = Some (JStr name).
Proof.
  destruct type as [[| | | str | |]|]; simpl; try (split; [done|congruence]).
  rewrite String.eqb_eq. split; [by intros ->|congruence].
Qed.

Lemma type_is_unknown (type : option json) :
  (∀ name, name ∈ message_types → type_is type name = false) →
  ∀ uuid now roomObj client payload w,
    handleMessage uuid now roomObj client type payload w = (Return (), w).
Proof.
  intros Hun uuid now roomObj client payload w. unfold handleMessage.
  destruct (rooms w !! roomObj); [|done]. destruct (socks w !! client); [|done].
  rewrite !Hun; [done|..]; unfold message_types;
    rewrite !elem_of_cons; auto 10.
Qed.
End payloads.

(** X7.  A ['ping'] is answered to its sender alone.  The sender is sent one
    ['pong'] message whose [payload.ts] reads as the [payload.ts] of the ping
    (both absent when the ping has none), whatever the [readyState] of its
    connection: the handler calls [send] without looking at it.  No other
    connection object, no room and nothing of the heap changes.  A ping whose
    payload is [undefined] or [null] makes the handler throw, and changes
    nothing. *)
Theorem ping_is_echoed_to_the_sender (uuid : string) (now : Z) (roomObj : string)
    (client : ws) (w : world) (r : room) (s : socket) (payload : option json) :
  session_ok w roomObj client r s →
  (nullish payload = true →
   handleMessage uuid now roomObj client (Some (JStr "ping")) payload w = (Throw, w)) ∧
  (nullish payload = false →
   ∃ w' echo,
     handleMessage uuid now roomObj client (Some (JStr "ping")) payload w
       = (Return (), w') ∧
     socks w' !! client = Some (push_sent (envelope "pong" (Some echo)) s) ∧
     json_prop (Some echo) "ts" = json_prop payload "ts" ∧
     (∀ c, c ≠ client → socks w' !! c = socks w !! c) ∧
     rooms w' = rooms w ∧ heap w' = heap w).
Proof.
  intros [Hr _ _ Hs]. split.
  - intros Hn%(json_prop_nullish _ "ts").
    unfold handleMessage. rewrite Hr, Hs. simpl. by rewrite Hn.
  - intros [ts Hts]%(json_prop_not_nullish _ "ts").
    unfold handleMessage. rewrite Hr, Hs. simpl. rewrite Hts.
    eexists _, _. split; [reflexivity|]. simpl. split_and!; try done.
    + unfold send. by rewrite lookup_alter_eq, Hs.
    + apply obj_singleton_prop.
    + intros c Hne. unfold send. by rewrite lookup_alter_ne.
Qed.

(** X8.  A ['meta'] message changes the name and the colour of its sender, and
    nothing else of it: each is replaced by the one of the payload when that
    is truthy and kept otherwise, and the [userId] stays.  The user list with
    the new name and colour is then sent, once, to every member of the room
    whose connection is open, the sender included when it is one.  No room and
    nothing of the heap changes.  A payload that is [undefined] or [null]
    makes the handler throw before anything is written. *)
Theorem meta_renames_the_sender (uuid : string) (now : Z) (roomObj : string)
    (client : ws) (w : world) (r : room) (s : socket) (payload : option json) :
  session_ok w roomObj client r s →
  (nullish payload = true →
   handleMessage uuid now roomObj client (Some (JStr "meta")) payload w = (Throw, w)) ∧
  (∀ u c, json_prop payload "username" = Some u → json_prop payload "color" = Some c →
   let s' := Socket (userId s) (or_default u (username s)) (or_default c (color s))
                    (readyState s) (sent s) in
   ∃ w',
     handleMessage uuid now roomObj client (Some (JStr "meta")) payload w
       = (Return (), w') ∧
     let users := envelope "user-list" (Some (userList (socks w') r)) in
     socks w' !! client =
       Some (if decide (client ∈ clients r ∧ readyState s = OPEN)
             then push_sent users s' else s') ∧
     (∀ c0 sc, c0 ∈ clients r → c0 ≠ client → socks w !! c0 = Some sc →
        readyState sc = OPEN → socks w' !! c0 = Some (push_sent users sc)) ∧
     (∀ c0 sc, c0 ≠ client → socks w !! c0 = Some sc →
        c0 ∉ clients r ∨ readyState sc ≠ OPEN → socks w' !! c0 = Some sc) ∧
     rooms w' = rooms w ∧ heap w' = heap w).
Proof.
  intros [Hr Hid Hnd Hs]. split.
  - intros Hn%(json_prop_nullish _ "username").
    unfold handleMessage. rewrite Hr, Hs. simpl. by rewrite Hn.
  - intros u c Hu Hc s'.
    unfold handleMessage. rewrite Hr, Hs. simpl. rewrite Hu, Hc. fold s'.
    set (ss := <[client:=s']> (socks w)).
    set (txt := envelope "user-list" (Some (userList ss r))).
    unfold broadcast. simpl. rewrite Hid, Hr.
    eexists. split; [reflexivity|]. simpl.
    assert (envelope "user-list"
              (Some (userList (foldl (deliver None txt) ss (clients r)) r)) = txt)
      as ->.
    { unfold txt, envelope. rewrite (userList_grow ss); [done|].
      apply foldl_deliver_grow. }
    split_and!; try done.
    + case_decide as Hd.
      * destruct Hd as [Hin Hop]. apply foldl_deliver_open; try done.
        subst ss. by rewrite lookup_insert_eq.
      * apply foldl_deliver_skip; [subst ss; by rewrite lookup_insert_eq|].
        destruct (decide (client ∈ clients r)); [|by left].
        right; right. simpl. tauto.
    + intros c0 sc Hin Hne Hsc Hop. apply foldl_deliver_open; try done.
      subst ss. by rewrite lookup_insert_ne.
    + intros c0 sc Hne Hsc Hwhy. apply foldl_deliver_skip.
      * subst ss. by rewrite lookup_insert_ne.
      * destruct Hwhy; auto.
Qed.

(** X9.  A ['cursor'] message is relayed under the identity that the server
    holds for its sender.  Every other member of the room whose connection is
    open is sent, once, a ['cursor'] message with the [x] and the [y] of the
    payload and with the [userId], the colour and the name of the sender's
    connection object; whatever else the payload holds, a [userId] of its own
    included, is ignored.  Nothing is sent to the sender, to a member whose
    connection is not open, or outside the room, and no room and nothing of
    the heap changes.  A payload that is [undefined] or [null] makes the
    handler throw, and changes nothing. *)
Theorem cursor_is_relayed_under_the_server_identity (uuid : string) (now : Z)
    (roomObj : string) (client : ws) (w : world) (r : room) (s : socket)
    (payload : option json) :
  session_ok w roomObj client r s →
  (nullish payload = true →
   handleMessage uuid now roomObj client (Some (JStr "cursor")) payload w = (Throw, w)) ∧
  (∀ x y, json_prop payload "x" = Some x → json_prop payload "y" = Some y →
   let msg := envelope "cursor"
                (Some (obj [("userId", Some (JStr (userId s))); ("x", x); ("y", y);
                            ("color", Some (color s));
                            ("username", Some (username s))])) in
   ∃ w',
     handleMessage uuid now roomObj client (Some (JStr "cursor")) payload w
       = (Return (), w') ∧
     (∀ c sc, c ∈ clients r → c ≠ client → socks w !! c = Some sc →
        readyState sc = OPEN → socks w' !! c = Some (push_sent msg sc)) ∧
     socks w' !! client = Some s ∧
     (∀ c sc, socks w !! c = Some sc → c ∉ clients r ∨ readyState sc ≠ OPEN →
        socks w' !! c = Some sc) ∧
     rooms w' = rooms w ∧ heap w' = heap w) ∧
  (∀ payload',
     json_prop payload' "x" = json_prop payload "x" →
     json_prop payload' "y" = json_prop payload "y" →
     handleMessage uuid now roomObj client (Some (JStr "cursor")) payload' w =
     handleMessage uuid now roomObj client (Some (JStr "cursor")) payload w).
Proof.
  intros [Hr Hid Hnd Hs]. split_and!.
  - intros Hn%(json_prop_nullish _ "x").
    unfold handleMessage. rewrite Hr, Hs. simpl. by rewrite Hn.
  - intros x y Hx Hy msg.
    unfold handleMessage. rewrite Hr, Hs. simpl. rewrite Hx, Hy. fold msg.
    unfold broadcast. rewrite Hid, Hr.
    eexists. split; [reflexivity|]. simpl. split_and!; try done.
    + intros c sc Hc Hne Hsc Hop. apply foldl_deliver_open; try done. congruence.
    + apply foldl_deliver_skip; auto.
    + intros c sc Hsc Hwhy. apply foldl_deliver_skip; [done|]. destruct Hwhy; auto.
  - intros payload' Hx Hy. unfold handleMessage. rewrite Hr, Hs. simpl.
    by rewrite Hx, Hy.
Qed.

(** X10.  An undo that removes an operation is announced twice.  In a
    well-formed room whose log is not empty, the handler of ['undo'] returns,
    moves the last operation of the log to the top of the stack without
    touching any object, and sends every member whose connection is open, the
    sender included, two messages, in this order:  ['undo'] with the [opId] of
    the removed operation as [targetOpId] and the clock reading, and an ['op']
    message that wraps the same two values in an operation of type ['undo'].
    Nothing is sent to a member whose connection is not open or outside the
    room. *)
Theorem undo_is_announced_to_open_members (uuid : string) (now : Z)
    (roomObj : string) (client : ws) (w : world) (r : room) (s : socket)
    (payload : option json) (xs : list value) (op : value) :
  session_ok w roomObj client r s → room_ok r (heap w) →
  log_of r (heap w) = xs ++ [op] →
  let target := read (heap w) op "opId" in
  let undo := envelope "undo"
                (Some (obj [("targetOpId", target); ("ts", Some (JNum now))])) in
  let wrapped := envelope "op"
                   (Some (obj [("op",
                      Some (obj [("type", Some (JStr "undo"));
                                 ("targetOpId", target);
                                 ("ts", Some (JNum now))]))])) in
  ∃ w',
    handleMessage uuid now roomObj client (Some (JStr "undo")) payload w
      = (Return (), w') ∧
    rooms w' = rooms w ∧ objs (heap w') = objs (heap w) ∧
    log_of r (heap w') = xs ∧
    stack_of r (heap w') = stack_of r (heap w) ++ [op] ∧
    (∀ c sc, c ∈ clients r → socks w !! c = Some sc → readyState sc = OPEN →
       socks w' !! c = Some (push_sent wrapped (push_sent undo sc))) ∧
    (∀ c sc, socks w !! c = Some sc → c ∉ clients r ∨ readyState sc ≠ OPEN →
       socks w' !! c = Some sc).
Proof.
  intros Hsess Hok E target undo wrapped.
  rewrite (handleMessage_undo uuid now roomObj client w r s Hsess).
  destruct Hsess as [Hr Hid Hnd Hs]. pose proof Hok as [_ _ Hd Hent _].
  destruct (undoLast_moves now r (heap w) xs op Hd E) as [Hlog Hstk].
  pose proof (undoLast_objs now r (heap w)) as Hobjs.
  assert (undoLast now r (heap w) =
            (Return (Some (UndoInfo target now)), (undoLast now r (heap w)).2)) as Hres.
  { rewrite (undoLast_snoc _ _ _ _ _ E). simpl. subst target. unfold read.
    rewrite E in Hent. apply Forall_app in Hent as [_ Hx].
    rewrite Forall_singleton in Hx. apply entry_ok_value in Hx.
    destruct (get_prop (heap w) op "opId") eqn:Eg; [done|].
    apply get_prop_nullish in Eg. congruence. }
  rewrite Hres in *. simpl in *. fold undo. fold wrapped.
  eexists. split; [reflexivity|]. simpl. split_and!; try done.
  - intros c sc Hc Hsc Hop. apply foldl_deliver_open; try done.
    by apply foldl_deliver_open.
  - intros c sc Hsc Hwhy.
    assert (c ∉ clients r ∨ None = Some c ∨ readyState sc ≠ OPEN) as Hwhy1.
    { destruct Hwhy; auto. }
    apply foldl_deliver_skip; [|done]. by apply foldl_deliver_skip.
Qed.

(** X11.  A redo that restores an operation is announced twice.  In a
    well-formed room whose stack is not empty, the handler of ['redo']
    returns, moves the top of the stack to the end of the log without touching
    any object, and sends every member whose connection is open, the sender
    included, two messages, in this order:  ['redo'] with the full text of the
    restored operation as [stroke] and the clock reading, and an ['op']
    message that wraps the same two values in an operation of type ['redo'].
    Nothing is sent to a member whose connection is not open or outside the
    room. *)
Theorem redo_is_announced_to_open_members (uuid : string) (now : Z)
    (roomObj : string) (client : ws) (w : world) (r : room) (s : socket)
    (payload : option json) (xs : list value) (op : value) :
  session_ok w roomObj client r s → room_ok r (heap w) →
  stack_of r (heap w) = xs ++ [op] →
  let text := stringify (heap w) op in
  let redo := envelope "redo"
                (Some (obj [("stroke", text); ("ts", Some (JNum now))])) in
  let wrapped := envelope "op"
                   (Some (obj [("op",
                      Some (obj [("type", Some (JStr "redo"));
                                 ("stroke", text);
                                 ("ts", Some (JNum now))]))])) in
  ∃ w',
    handleMessage uuid now roomObj client (Some (JStr "redo")) payload w
      = (Return (), w') ∧
    rooms w' = rooms w ∧ objs (heap w') = objs (heap w) ∧
    stack_of r (heap w') = xs ∧
    log_of r (heap w') = log_of r (heap w) ++ [op] ∧
    (∀ c sc, c ∈ clients r → socks w !! c = Some sc → readyState sc = OPEN →
       socks w' !! c = Some (push_sent wrapped (push_sent redo sc))) ∧
    (∀ c sc, socks w !! c = Some sc → c ∉ clients r ∨ readyState sc ≠ OPEN →
       socks w' !! c = Some sc).
Proof.
  intros Hsess Hok E text redo wrapped.
  rewrite (handleMessage_redo uuid now roomObj client w r s Hsess).
  destruct Hsess as [Hr Hid Hnd Hs]. pose proof Hok as [_ _ Hd _ _].
  destruct (redoLast_moves now r (heap w) xs op Hd E) as [Hstk Hlog].
  pose proof (redoLast_objs now r (heap w)) as Hobjs.
  assert (redoLast now r (heap w) =
            (Some (RedoInfo op now), (redoLast now r (heap w)).2)) as Hres.
  { by rewrite (redoLast_snoc _ _ _ _ _ E). }
  rewrite Hres in *. simpl in *.
  rewrite (stringify_objs _ (heap w) op Hobjs). fold text. fold redo. fold wrapped.
  eexists. split; [reflexivity|]. simpl. split_and!; try done.
  - intros c sc Hc Hsc Hop. apply foldl_deliver_open; try done.
    by apply foldl_deliver_open.
  - intros c sc Hsc Hwhy.
    assert (c ∉ clients r ∨ None = Some c ∨ readyState sc ≠ OPEN) as Hwhy1.
    { destruct Hwhy; auto. }
    apply foldl_deliver_skip; [|done]. by apply foldl_deliver_skip.
Qed.

(** ** Failures *)

(** A call that throws has changed nothing. *)
Lemma handleMessage_throw_unchanged (uuid : string) (now : Z) (roomObj : string)
    (client : ws) (w : world) (r : room) (s : socket) (type payload : option json) :
  session_ok w roomObj client r s → room_ok r (heap w) →
  (handleMessage uuid now roomObj client type payload w).1 = Throw →
  (handleMessage uuid now roomObj client type payload w).2 = w.
Proof.
  intros Hsess Hok.
  pose proof Hsess as [Hr Hid Hnd Hs]. unfold handleMessage.
  rewrite Hr, Hs.
  destruct (type_is type "ping").
  { by destruct (json_prop payload "ts"). }
  destruct (type_is type "meta").
  { destruct (json_prop payload "username"); [|done].
    by destruct (json_prop payload "color"). }
  destruct (type_is type "stroke-part"); [done|].
  destruct (type_is type "op").
  { destruct (json_prop payload "op") as [j|]; [|done].
    destruct (nullish j) eqn:Hj.
    - destruct j as [[]|]; try done; simpl; by rewrite world_eta.
    - pose proof (reify_nullish j (heap w)) as Hn. rewrite Hj in Hn.
      destruct (reify j (heap w)) as [op h0]. simpl in Hn.
      destruct (pushOp uuid now op r h0) as [[r1 h1]|] eqn:Hpush; [done|].
      apply eq_None_not_Some in Hpush. exfalso. apply Hpush.
      by apply pushOp_is_Some. }
  destruct (type_is type "undo").
  { destruct (undoLast_ok_returns now r (heap w) Hok) as [res Hres].
    rewrite Hres. by destruct res. }
  destruct (type_is type "redo").
  { by destruct (redoLast now r (heap w)) as [[info|] h1]. }
  destruct (type_is type "cursor").
  { destruct (json_prop payload "x"); [|done].
    by destruct (json_prop payload "y"). }
  by destruct (type_is type "request-state").
Qed.

(** X12.  When the handler throws.  For a connection of a well-formed room,
    [handleMessage] throws exactly on a ['ping'], a ['meta'] or a ['cursor']
    whose payload is [undefined] or [null], and on an ['op'] whose payload or
    whose [payload.op] is [undefined] or [null]; on every other message it
    returns, ['undo'] and ['redo'] included, whatever their payload.  A call
    that throws leaves the state of the server exactly as it was: no room, no
    connection object and nothing of the heap has changed, and nothing was
    sent.  A message whose type is none of the eight that the handler knows is
    ignored: the handler returns and the state is unchanged. *)
Theorem handleMessage_throws_exactly (uuid : string) (now : Z) (roomObj : string)
    (client : ws) (w : world) (r : room) (s : socket) (type payload : option json) :
  session_ok w roomObj client r s → room_ok r (heap w) →
  let res := handleMessage uuid now roomObj client type payload w in
  (res.1 = Throw ↔
     ((type_is type "ping" = true ∨ type_is type "meta" = true ∨
       type_is type "cursor" = true) ∧ nullish payload = true) ∨
     (type_is type "op" = true ∧
      ∀ j, json_prop payload "op" = Some j → nullish j = true)) ∧
  (res.1 = Throw → res.2 = w) ∧
  ((∀ name, name ∈ message_types → type_is type name = false) →
   res = (Return (), w)).
Proof.
  intros Hsess Hok res.
  split_and!; [| |intros Hun; by apply type_is_unknown].
  2:{ by apply (handleMessage_throw_unchanged _ _ _ _ _ r s). }
  subst res. pose proof Hsess as [Hr Hid Hnd Hs]. unfold handleMessage.
  rewrite Hr, Hs.
  destruct (type_is type "ping") eqn:E1.
  { apply type_is_true in E1 as ->. simpl.
    destruct (nullish payload) eqn:Hn.
    - apply (json_prop_nullish _ "ts") in Hn as ->. simpl.
      split; [intros _; left; auto | done].
    - destruct (json_prop_not_nullish payload "ts" Hn) as [x ->]. simpl.
      split; [done|]. intros [[_ ?]|[? _]]; done. }
  destruct (type_is type "meta") eqn:E2.
  { apply type_is_true in E2 as ->. simpl.
    destruct (nullish payload) eqn:Hn.
    - apply (json_prop_nullish _ "username") in Hn as ->. simpl.
      split; [intros _; left; auto | done].
    - destruct (json_prop_not_nullish payload "username" Hn) as [x ->].
      destruct (json_prop_not_nullish payload "color" Hn) as [y ->]. simpl.
      split; [done|]. intros [[_ ?]|[? _]]; done. }
  destruct (type_is type "stroke-part") eqn:E3.
  { apply type_is_true in E3 as ->. simpl.
    split; [done|]. intros [[[?|[?|?]] _]|[? _]]; done. }
  destruct (type_is type "op") eqn:E4.
  { apply type_is_true in E4 as ->. simpl.
    destruct (json_prop payload "op") as [j|] eqn:Hj.
    - destruct (nullish j) eqn:Hn.
      + assert ((let '(op, h0) := reify j (heap w) in
                 match pushOp uuid now op r h0 with
                 | Some (r1, h1) =>
                     (Return (),
                      broadcast (room_id r1)
                        (envelope "op" (Some (obj [("op", stringify h1 op)]))) None
                        (put_room roomObj r1 h1 w))
                 | None => (Throw, World (rooms w) (socks w) h0)
                 end).1 = Throw) as ->.
        { by destruct j as [[]|]. }
        split; [|done]. intros _. right. split; [done|]. by intros j' [= <-].
      + pose proof (reify_nullish j (heap w)) as Hn0. rewrite Hn in Hn0.
        destruct (reify j (heap w)) as [op h0]. simpl in Hn0.
        destruct (pushOp uuid now op r h0) as [[r1 h1]|] eqn:Hpush.
        * simpl. split; [done|]. intros [[[?|[?|?]] _]|[_ Hall]]; try done.
          specialize (Hall j eq_refl). congruence.
        * apply eq_None_not_Some in Hpush. exfalso. apply Hpush.
          by apply pushOp_is_Some.
    - simpl. split; [|done]. intros _. right. split; [done|]. done. }
  assert (((type_is type "cursor" = true) ∧ nullish payload = true) ↔
          ((false = true ∨ false = true ∨ type_is type "cursor" = true)
             ∧ nullish payload = true)
          ∨ false = true ∧ (∀ j, json_prop payload "op" = Some j → nullish j = true))
    as Hiff.
  { split; [intros [? ?]; left; auto|]. intros [[[?|[?|?]] ?]|[? _]]; done. }
  rewrite <- Hiff. clear Hiff.
  destruct (type_is type "undo") eqn:E5.
  { apply type_is_true in E5 as ->. simpl.
    destruct (undoLast_ok_returns now r (heap w) Hok) as [res Hres].
    rewrite Hres. destruct res; simpl; split; try done; by intros [? _]. }
  destruct (type_is type "redo") eqn:E6.
  { apply type_is_true in E6 as ->. simpl.
    destruct (redoLast now r (heap w)) as [[info|] h1]; simpl;
      split; try done; by intros [? _]. }
  destruct (type_is type "cursor") eqn:E7.
  { apply type_is_true in E7 as ->. simpl.
    destruct (nullish payload) eqn:Hn.
    - apply (json_prop_nullish _ "x") in Hn as ->. simpl. done.
    - destruct (json_prop_not_nullish payload "x" Hn) as [x ->].
      destruct (json_prop_not_nullish payload "y" Hn) as [y ->]. simpl.
      split; [done|]. by intros [_ ?]. }
  destruct (type_is type "request-state"); simpl; split; try done; by intros [? _].
Qed.

(** X13.  What the ['message'] listener cannot handle leaves no trace.  In a
    well-formed state, a message that cannot be parsed, or that parses to
    [null], changes nothing; a message that is dispatched changes the state as
    [handleMessage] does, and when [handleMessage] throws, or when the type is
    none of the eight that it knows, the state of the server after the
    listener is exactly the state before it. *)
Theorem on_message_failure_changes_nothing (uuid : string) (now : Z) (k : string)
    (client : ws) (msg : option json) (w : world) :
  world_ok w →
  (msg = None ∨ msg = Some JNull → on_message uuid now k client msg w = w) ∧
  (∀ type payload,
     nullish msg = false →
     json_prop msg "type" = Some type → json_prop msg "payload" = Some payload →
     on_message uuid now k client msg w
       = (handleMessage uuid now k client type payload w).2 ∧
     ((handleMessage uuid now k client type payload w).1 = Throw →
      on_message uuid now k client msg w = w) ∧
     ((∀ name, name ∈ message_types → type_is type name = false) →
      on_message uuid now k client msg w = w)).
Proof.
  intros Hok. split.
  - by intros [-> | ->].
  - intros type payload Hn Ht Hp.
    assert (on_message uuid now k client msg w
              = (handleMessage uuid now k client type payload w).2) as Hon.
    { unfold on_message. destruct msg as [j|]; [|done]. by rewrite Ht, Hp. }
    rewrite Hon. split_and!; [done | |].
    + destruct (rooms w !! k) as [r|] eqn:Hr;
        [|unfold handleMessage; by rewrite Hr].
      destruct (socks w !! client) as [s|] eqn:Hs;
        [|unfold handleMessage; by rewrite Hr, Hs].
      apply (handleMessage_throw_unchanged _ _ _ _ _ r s).
      * split; [done | by apply (wok_id _ Hok) | by apply (wok_members _ Hok k)
                | done].
      * by apply (wok_room _ Hok k).
    + intros Hun. by rewrite type_is_unknown.
Qed.

(** ** A room of the server and the room state machine *)

Section simulation.
Implicit Types (w : world) (r : room) (h : store) (st : room * store) (v : value).

(** What a message does to the rooms and to the heap, by the action it
    asks for. *)
Lemma handleMessage_by_action uuid now k client type payload w r s :
  rooms w !! k = Some r → socks w !! client = Some s →
  let w' := (handleMessage uuid now k client type payload w).2 in
  match message_action uuid type payload with
  | Some a =>
      rooms w' = <[k := (act now a (r, heap w)).1]> (rooms w) ∧
      heap w' = (act now a (r, heap w)).2
  | None =>
      rooms w' = rooms w ∧
      (heap w' = heap w ∨ heap w' = (getState r (heap w)).2)
  end.
Proof.
  intros Hr Hs. unfold handleMessage, message_action. rewrite Hr, Hs.
  destruct (type_is type "ping") eqn:E1.
  { apply type_is_true in E1 as ->. simpl. destruct (json_prop payload "ts"); auto. }
  destruct (type_is type "meta") eqn:E2.
  { apply type_is_true in E2 as ->. simpl.
    destruct (json_prop payload "username"); [|auto].
    destruct (json_prop payload "color"); [|auto]. simpl.
    rewrite broadcast_rooms, broadcast_heap. auto. }
  destruct (type_is type "stroke-part") eqn:E3.
  { apply type_is_true in E3 as ->. simpl.
    rewrite broadcast_rooms, broadcast_heap. simpl. rewrite insert_id by done. auto. }
  destruct (type_is type "op") eqn:E4.
  { destruct (json_prop payload "op") as [j|]; simpl; [|auto].
    destruct (reify j (heap w)) as [op h0].
    destruct (pushOp uuid now op r h0) as [[r1 h1]|]; simpl.
    - by rewrite broadcast_rooms, broadcast_heap.
    - by rewrite insert_id. }
  destruct (type_is type "undo") eqn:E5.
  { simpl. rewrite insert_id by done.
    destruct (undoLast now r (heap w)) as [[[info|]|] h1]; simpl; try done.
    by rewrite !broadcast_rooms, !broadcast_heap. }
  destruct (type_is type "redo") eqn:E6.
  { simpl. rewrite insert_id by done.
    destruct (redoLast now r (heap w)) as [[info|] h1]; simpl; try done.
    by rewrite !broadcast_rooms, !broadcast_heap. }
  destruct (type_is type "cursor").
  { destruct (json_prop payload "x"); [|auto].
    destruct (json_prop payload "y"); [|auto]. simpl.
    rewrite broadcast_rooms, broadcast_heap. auto. }
  destruct (type_is type "request-state"); [|auto].
  split; [done|]. right. done.
Qed.

Lemma same_room_refl r h : room_ok r h → same_room r h r h.
Proof.
  intros Hok. apply same_room_allocs; [done | done | done | apply allocs_refl].
Qed.

(** One event, seen from a room: the room after the event is the room
    after the actions that the event asks of it, or the room as it was when
    the event is a message on a connection object that does not exist. *)
Lemma step_room w e k r :
  world_ok w → rooms w !! k = Some r →
  ∃ acts r',
    (acts = event_actions k e ∨ acts = []) ∧
    (match e with
     | Message _ _ _ client _ => is_Some (socks w !! client)
     | _ => True
     end → acts = event_actions k e) ∧
    room_ok (run acts (r, heap w)).1 (run acts (r, heap w)).2 ∧
    rooms (step w e) !! k = Some r' ∧
    same_room (run acts (r, heap w)).1 (run acts (r, heap w)).2
              r' (heap (step w e)).
Proof.
  intros Hok Hr. pose proof (wok_room _ Hok k r Hr) as Hrok.
  assert (∀ acts, room_ok (run acts (r, heap w)).1 (run acts (r, heap w)).2) as Hrun.
  { intros acts. by apply run_room_ok. }
  assert (addressed_to k e ∨ ¬ addressed_to k e) as [Haddr | Hnot].
  { destruct e as [| ? ? k' ? ? | |]; simpl; try (right; tauto).
    destruct (decide (k' = k)); auto. }
  2:{ assert (event_actions k e = []) as Hnil.
      { destruct e as [| ? ? k' ? [j|] | |]; try done. simpl in *.
        by rewrite decide_False. }
      destruct (step_keeps_room w e k r Hok Hr Hnot) as (r' & Hr' & Hsame).
      exists [], r'. rewrite Hnil. split_and!; auto. }
  destruct e as [| uuid now k' client msg | |]; try done.
  simpl in Haddr. subst k'. unfold step, on_message, event_actions.
  assert (∃ acts r', (acts = [] ∨ acts = []) ∧ (is_Some (socks w !! client) → acts = [])
            ∧ room_ok (run acts (r, heap w)).1 (run acts (r, heap w)).2
            ∧ rooms w !! k = Some r'
            ∧ same_room (run acts (r, heap w)).1 (run acts (r, heap w)).2 r' (heap w))
    as Hnothing.
  { exists [], r. split_and!; auto. by apply same_room_refl. }
  destruct msg as [j|]; [|done].
  rewrite decide_True by done.
  destruct (json_prop (Some j) "type") as [type|]; [|done].
  destruct (json_prop (Some j) "payload") as [payload|]; [|done].
  destruct (socks w !! client) as [s|] eqn:Hs.
  2:{ assert ((handleMessage uuid now k client type payload w).2 = w) as ->.
      { unfold handleMessage. by rewrite Hr, Hs. }
      exists [], r. split_and!; [by right | by intros [? ?] | done | done |].
      by apply same_room_refl. }
  pose proof (handleMessage_by_action uuid now k client type payload w r s Hr Hs) as He.
  simpl in He. destruct (message_action uuid type payload) as [a|].
  - destruct He as [-> ->]. rewrite lookup_insert_eq.
    exists [(now, a)]. eexists. split_and!; [by left | done | apply Hrun | done |].
    apply same_room_refl. apply (Hrun [(now, a)]).
  - destruct He as [-> [-> | ->]]; exists [], r;
      (split_and!; [by left | done | done | done |]).
    + by apply same_room_refl.
    + apply same_room_allocs; [done | done | done | apply allocs_alloc_arr].
Qed.

Lemma alike_refl h v : alike h v h v.
Proof. by split. Qed.

Lemma alike_sym h1 v1 h2 v2 : alike h1 v1 h2 v2 → alike h2 v2 h1 v1.
Proof. intros [H1 H2]. split; [done|]. intros key. by rewrite H2. Qed.

Lemma alike_trans h1 v1 h2 v2 h3 v3 :
  alike h1 v1 h2 v2 → alike h2 v2 h3 v3 → alike h1 v1 h3 v3.
Proof.
  intros [H1 H2] [H3 H4]. split; [congruence|]. intros key. by rewrite H2.
Qed.

Lemma alike_objs h h' v : objs h' = objs h → alike h' v h v.
Proof.
  intros Ho. split; [by apply stringify_objs | intros key; by apply read_objs].
Qed.

(** An entry that was there before an action prints and reads the same
    after it. *)
Lemma act_alike_stable now a st v :
  entry_ok st.2 v → alike (act now a st).2 v st.2 v.
Proof.
  intros Hv. split; [|intros key; by apply act_read_stable].
  destruct v as [| | | | | l]; try done. simpl in Hv.
  unfold stringify, get_cell. by rewrite (act_objs_stable now a st l Hv).
Qed.

Lemma same_view_refl st : same_view st st.
Proof.
  split; apply Forall_Forall2_diag, Forall_forall; intros v _; apply alike_refl.
Qed.

Lemma Forall2_alike_sym h1 h2 (l1 l2 : list value) :
  Forall2 (λ v1 v2, alike h1 v1 h2 v2) l1 l2 →
  Forall2 (λ v1 v2, alike h2 v1 h1 v2) l2 l1.
Proof.
  intros H. apply Forall2_flip. eapply Forall2_impl; [done|].
  intros v1 v2. apply alike_sym.
Qed.

Lemma Forall2_alike_trans h1 h2 h3 (l1 l2 l3 : list value) :
  Forall2 (λ v1 v2, alike h1 v1 h2 v2) l1 l2 →
  Forall2 (λ v1 v2, alike h2 v1 h3 v2) l2 l3 →
  Forall2 (λ v1 v2, alike h1 v1 h3 v2) l1 l3.
Proof.
  intros H. revert l3. induction H as [|v1 v2 l1 l2 Hv _ IH]; intros l3 H3.
  - apply Forall2_nil_inv_l in H3 as ->. constructor.
  - apply Forall2_cons_inv_l in H3 as (v3 & l3' & Hv3 & Hl3 & ->).
    constructor; [by eapply alike_trans | by apply IH].
Qed.

Lemma same_view_sym st1 st2 : same_view st1 st2 → same_view st2 st1.
Proof. intros [H1 H2]. split; by apply Forall2_alike_sym. Qed.

Lemma same_view_trans st1 st2 st3 :
  same_view st1 st2 → same_view st2 st3 → same_view st1 st3.
Proof. intros [H1 H2] [H3 H4]. split; by eapply Forall2_alike_trans. Qed.

Lemma same_room_view r h r' h' :
  room_ok r h → same_room r h r' h' → same_view (r', h') (r, h).
Proof.
  intros [_ _ _ Hl Hs] (_ & _ & Hlog & Hstk & Hv). split; simpl.
  - rewrite Hlog. apply Forall_Forall2_diag. eapply Forall_impl; [exact Hl|].
    intros v Hvok. destruct (Hv v Hvok). by split.
  - rewrite Hstk. apply Forall_Forall2_diag. eapply Forall_impl; [exact Hs|].
    intros v Hvok. destruct (Hv v Hvok). by split.
Qed.

(** Entries that print and read alike before an action do so after it. *)
Lemma Forall2_alike_act now a st1 st2 (l1 l2 : list value) :
  Forall (entry_ok st1.2) l1 → Forall (entry_ok st2.2) l2 →
  Forall2 (λ v1 v2, alike st1.2 v1 st2.2 v2) l1 l2 →
  Forall2 (λ v1 v2, alike (act now a st1).2 v1 (act now a st2).2 v2) l1 l2.
Proof.
  intros H1 H2 H. induction H as [|v1 v2 l1 l2 Hv _ IH]; [constructor|].
  apply Forall_cons in H1 as [Hv1 H1]. apply Forall_cons in H2 as [Hv2 H2].
  constructor; [|by apply IH].
  eapply alike_trans; [by apply act_alike_stable|].
  eapply alike_trans; [exact Hv|]. apply alike_sym. by apply act_alike_stable.
Qed.

Lemma Forall2_snoc_inv {A B} (P : A → B → Prop) (l1 : list A) (x1 : A) (l : list B) :
  Forall2 P (l1 ++ [x1]) l →
  ∃ l2 x2, l = l2 ++ [x2] ∧ Forall2 P l1 l2 ∧ P x1 x2.
Proof.
  intros (l2 & k2 & H1 & H2 & ->)%Forall2_app_inv_l.
  apply Forall2_cons_inv_l in H2 as (x2 & k & Hx & Hk & ->).
  apply Forall2_nil_inv_l in Hk as ->. eauto.
Qed.

(** The room state machine does not depend on where the operations are
    allocated: the same action on two rooms that look the same gives two
    rooms that look the same. *)
Lemma act_same_view now a st1 st2 :
  room_ok st1.1 st1.2 → room_ok st2.1 st2.2 →
  same_view st1 st2 → same_view (act now a st1) (act now a st2).
Proof.
  intros Hok1 Hok2 [Hlog Hstk].
  pose proof Hok1 as [_ _ Hd1 Hl1 Hs1]. pose proof Hok2 as [_ _ Hd2 Hl2 Hs2].
  pose proof (Forall2_alike_act now a st1 st2 _ _ Hl1 Hl2 Hlog) as Hlog'.
  pose proof (Forall2_alike_act now a st1 st2 _ _ Hs1 Hs2 Hstk) as Hstk'.
  destruct a as [uuid j | |].
  - destruct (nullish j) eqn:Hj.
    { rewrite !act_commit_rejected in * by done. by split. }
    destruct (act_commit_accepted now uuid j st1 Hj) as (Hp1 & Hlg1 & Hst1 & _).
    destruct (act_commit_accepted now uuid j st2 Hj) as (Hp2 & Hlg2 & Hst2 & _).
    set (st1' := act now (Commit uuid j) st1) in *.
    set (st2' := act now (Commit uuid j) st2) in *.
    split; [|rewrite Hst1, Hst2; constructor].
    rewrite Hlg1, Hlg2. apply Forall2_app; [done|]. constructor; [|constructor].
    destruct st1' as [r1' h1']. destruct st2' as [r2' h2']. simpl. split.
    + rewrite (stringify_finalized uuid now st1.1 j st1.2 r1' h1' Hj Hp1).
      by rewrite (stringify_finalized uuid now st2.1 j st2.2 r2' h2' Hj Hp2).
    + intros key.
      rewrite (read_committed uuid now j st1.2 st1.1 r1' h1' key Hj Hp1).
      by rewrite (read_committed uuid now j st2.2 st2.1 r2' h2' key Hj Hp2).
  - destruct st1 as [r1 h1]. destruct st2 as [r2 h2]. simpl in *.
    destruct (list_empty_or_snoc (log_of r1 h1)) as [E1 | (xs1 & x1 & E1)].
    + rewrite E1 in Hlog. apply Forall2_nil_inv_l in Hlog as E2.
      rewrite !undoLast_empty in * by done. by split.
    + rewrite E1 in Hlog, Hlog'.
      destruct (Forall2_snoc_inv _ _ _ _ Hlog) as (xs2 & x2 & E2 & _ & _).
      rewrite E2 in Hlog'.
      apply Forall2_app_inv in Hlog' as [Hxs Hx];
        [|apply Forall2_length in Hlog; rewrite E2, !length_app in Hlog;
          simpl in Hlog; lia].
      destruct (undoLast_moves now r1 h1 xs1 x1 Hd1 E1) as [Ha1 Hb1].
      destruct (undoLast_moves now r2 h2 xs2 x2 Hd2 E2) as [Ha2 Hb2].
      split; simpl; [by rewrite Ha1, Ha2|].
      rewrite Hb1, Hb2. by apply Forall2_app.
  - destruct st1 as [r1 h1]. destruct st2 as [r2 h2]. simpl in *.
    destruct (list_empty_or_snoc (stack_of r1 h1)) as [E1 | (xs1 & x1 & E1)].
    + rewrite E1 in Hstk. apply Forall2_nil_inv_l in Hstk as E2.
      rewrite !redoLast_empty in * by done. by split.
    + rewrite E1 in Hstk, Hstk'.
      destruct (Forall2_snoc_inv _ _ _ _ Hstk) as (xs2 & x2 & E2 & _ & _).
      rewrite E2 in Hstk'.
      apply Forall2_app_inv in Hstk' as [Hxs Hx];
        [|apply Forall2_length in Hstk; rewrite E2, !length_app in Hstk;
          simpl in Hstk; lia].
      destruct (redoLast_moves now r1 h1 xs1 x1 Hd1 E1) as [Ha1 Hb1].
      destruct (redoLast_moves now r2 h2 xs2 x2 Hd2 E2) as [Ha2 Hb2].
      split; simpl; [|by rewrite Ha1, Ha2].
      rewrite Hb1, Hb2. by apply Forall2_app.
Qed.

Lemma run_same_view acts st1 st2 :
  room_ok st1.1 st1.2 → room_ok st2.1 st2.2 →
  same_view st1 st2 → same_view (run acts st1) (run acts st2).
Proof.
  revert st1 st2. induction acts as [|[now a] acts IH]; intros st1 st2 H1 H2 Hv; [done|].
  simpl. apply IH; [by apply act_room_ok | by apply act_room_ok |].
  by apply act_same_view.
Qed.

(** Events, seen from a room. *)
Lemma steps_room evs k : ∀ w r,
  world_ok w → rooms w !! k = Some r → heard w evs →
  ∃ r', rooms (foldl step w evs) !! k = Some r' ∧
        same_view (r', heap (foldl step w evs)) (run (actions_on k evs) (r, heap w)).
Proof.
  induction evs as [|e evs IH]; intros w r Hok Hr Hheard.
  { exists r. split; [done|]. apply same_view_refl. }
  destruct Hheard as [He Hheard].
  destruct (step_room w e k r Hok Hr) as (acts & r1 & _ & Hacts & Hrok & Hr1 & Hsame).
  rewrite (Hacts He) in Hrok, Hsame. clear Hacts.
  destruct (IH (step w e) r1 (step_world_ok w e Hok) Hr1 Hheard) as (r' & Hr' & Hview).
  exists r'. split; [done|].
  change (actions_on k (e :: evs)) with (event_actions k e ++ actions_on k evs).
  rewrite run_app. eapply same_view_trans; [exact Hview|].
  apply run_same_view.
  - by apply (wok_room _ (step_world_ok w e Hok) k).
  - done.
  - rewrite (surjective_pairing (run (event_actions k e) (r, heap w))).
    by apply same_room_view.
Qed.
End simulation.

Section views.
Implicit Types (w : world) (r : room) (h : store) (st : room * store) (v : value).

Lemma same_view_log st1 st2 :
  same_view st1 st2 →
  log_text st1.1 st1.2 = log_text st2.1 st2.2 ∧
  log_ids st1.1 st1.2 = log_ids st2.1 st2.2 ∧
  log_ts st1.1 st1.2 = log_ts st2.1 st2.2 ∧
  length (log_of st1.1 st1.2) = length (log_of st2.1 st2.2) ∧
  length (stack_of st1.1 st1.2) = length (stack_of st2.1 st2.2).
Proof.
  intros [Hlog Hstk].
  split_and!; [| | | by eapply Forall2_length | by eapply Forall2_length].
  - unfold log_text, stringify_array. f_equal.
    induction Hlog as [|v1 v2 l1 l2 [Hs _] _ IH]; [done|].
    simpl. by rewrite Hs, IH.
  - unfold log_ids.
    induction Hlog as [|v1 v2 l1 l2 [_ Hr] _ IH]; [done|].
    simpl. by rewrite Hr, IH.
  - unfold log_ts.
    induction Hlog as [|v1 v2 l1 l2 [_ Hr] _ IH]; [done|].
    simpl. by rewrite Hr, IH.
Qed.

(** Events that ask nothing of a room leave it as it is. *)
Lemma steps_keep_room evs k : ∀ w r,
  world_ok w → rooms w !! k = Some r → actions_on k evs = [] →
  ∃ r', rooms (foldl step w evs) !! k = Some r' ∧
        opLog r' = opLog r ∧ undoneStack r' = undoneStack r ∧
        log_of r' (heap (foldl step w evs)) = log_of r (heap w) ∧
        stack_of r' (heap (foldl step w evs)) = stack_of r (heap w) ∧
        same_view (r', heap (foldl step w evs)) (r, heap w).
Proof.
  induction evs as [|e evs IH]; intros w r Hok Hr Hnil.
  { exists r. split_and!; try done. apply same_view_refl. }
  change (actions_on k (e :: evs)) with (event_actions k e ++ actions_on k evs) in Hnil.
  apply app_eq_nil in Hnil as [He Hevs].
  destruct (step_room w e k r Hok Hr) as (acts & r1 & Hacts & _ & _ & Hr1 & Hsame).
  assert (acts = []) as -> by (destruct Hacts; congruence).
  simpl in Hsame.
  pose proof (same_room_view _ _ _ _ (wok_room _ Hok k r Hr) Hsame) as Hview.
  destruct Hsame as (Hl1 & Hs1 & Hlog1 & Hstk1 & _).
  destruct (IH (step w e) r1 (step_world_ok w e Hok) Hr1 Hevs)
    as (r' & Hr' & Hl & Hs & Hlog & Hstk & Hv).
  exists r'. simpl. split_and!; try congruence.
  by eapply same_view_trans.
Qed.
Lemma steps_room_stays evs k : ∀ (w : world) (r : room),
  world_ok w → rooms w !! k = Some r →
  ∃ r', rooms (foldl step w evs) !! k = Some r' ∧
        room_id r' = k ∧ opLog r' = opLog r.
Proof.
  induction evs as [|e evs IH]; intros w r Hok Hr.
  { exists r. split_and!; [done | by apply (wok_id _ Hok) | done]. }
  destruct (step_room w e k r Hok Hr) as (acts & r1 & _ & _ & _ & Hr1 & Hsame).
  destruct Hsame as (Hl & _).
  destruct (run_same_members acts (r, heap w)) as (_ & _ & Hl').
  destruct (IH (step w e) r1 (step_world_ok w e Hok) Hr1) as (r' & Hr' & Hid & Hlog).
  simpl in *. exists r'. split_and!; [done | done | congruence].
Qed.
End views.

(** X14.  The server and the room state machine.  Take a room of the server
    after any events, and further events whose messages all arrive on
    connection objects that exist.  After them the room is still registered,
    and it cannot be told apart from the room reached by running, on the room
    as it was, the commits, undos and redos that the messages addressed to it
    ask for, in their order: the two logs and the two stacks print and read
    alike, position by position.  So the text of the log, its [opId]s, its
    [ts]s and the lengths of the log and of the stack are the same.
    Connections, disconnections, the messages of the other rooms and the
    messages that are not a commit, an undo or a redo play no part. *)
Theorem server_room_runs_its_own_messages (evs evs' : list event) (k : string)
    (r : room) :
  rooms (serve evs) !! k = Some r →
  heard (serve evs) evs' →
  let st := run (actions_on k evs') (r, heap (serve evs)) in
  let w' := serve (evs ++ evs') in
  ∃ r',
    rooms w' !! k = Some r' ∧
    same_view (r', heap w') st ∧
    log_text r' (heap w') = log_text st.1 st.2 ∧
    log_ids r' (heap w') = log_ids st.1 st.2 ∧
    log_ts r' (heap w') = log_ts st.1 st.2 ∧
    length (log_of r' (heap w')) = length (log_of st.1 st.2) ∧
    length (stack_of r' (heap w')) = length (stack_of st.1 st.2).
Proof.
  intros Hr Hheard st w'. subst w'. unfold serve. rewrite foldl_app. fold (serve evs).
  destruct (steps_room evs' k (serve evs) r (serve_world_ok evs) Hr Hheard)
    as (r' & Hr' & Hview).
  exists r'. split; [done|]. split; [done|].
  apply (same_view_log _ _ Hview).
Qed.

(** X15.  A log changes only by the messages of its room.  Take a room of the
    server after any events, and further events none of which is a commit, an
    undo or a redo addressed to it: connections, disconnections, pings,
    cursors, partial strokes, requests of the state, and any message of
    another room.  After them the room is registered with the same two arrays,
    and its log and its stack hold the same entries, which print and read as
    before. *)
Theorem log_changes_only_by_its_own_messages (evs evs' : list event) (k : string)
    (r : room) :
  rooms (serve evs) !! k = Some r →
  actions_on k evs' = [] →
  let w := serve evs in
  let w' := serve (evs ++ evs') in
  ∃ r',
    rooms w' !! k = Some r' ∧
    opLog r' = opLog r ∧ undoneStack r' = undoneStack r ∧
    log_of r' (heap w') = log_of r (heap w) ∧
    stack_of r' (heap w') = stack_of r (heap w) ∧
    log_text r' (heap w') = log_text r (heap w) ∧
    log_ids r' (heap w') = log_ids r (heap w) ∧
    log_ts r' (heap w') = log_ts r (heap w).
Proof.
  intros Hr Hnil w w'. subst w w'. unfold serve. rewrite foldl_app. fold (serve evs).
  destruct (steps_keep_room evs' k (serve evs) r (serve_world_ok evs) Hr Hnil)
    as (r' & Hr' & Hl & Hs & Hlog & Hstk & Hview).
  exists r'. split_and!; try done; by apply (same_view_log _ _ Hview).
Qed.

(** X16.  A room is never removed.  A room that is registered stays registered
    under its id, with the same log array, whatever happens next: the last
    member leaving does not remove it, and a later connection to the id finds
    the log as it was left. *)
Theorem rooms_are_never_removed (evs evs' : list event) (k : string) (r : room) :
  rooms (serve evs) !! k = Some r →
  ∃ r', rooms (serve (evs ++ evs')) !! k = Some r' ∧
        room_id r' = k ∧ opLog r' = opLog r.
Proof.
  intros Hr. unfold serve. rewrite foldl_app. fold (serve evs).
  by apply steps_room_stays; [apply serve_world_ok|].
Qed.

(** ** The log and the commits *)

Section pairing.
Implicit Types (w : world) (r : room) (h : store) (st : room * store) (v : value)
  (c : submission) (cs : list submission).

Lemma accepted_app acts1 acts2 : accepted (acts1 ++ acts2) = accepted acts1 ++ accepted acts2.
Proof. unfold accepted. apply omap_app. Qed.

Lemma accepted_commit now uuid j :
  accepted [(now, Commit uuid j)] =
    if nullish j then [] else [Submission now uuid j].
Proof. unfold accepted. simpl. by destruct (nullish j). Qed.

Lemma committed_as_alike h h' v c :
  alike h' v h v → committed_as h v c → committed_as h' v c.
Proof.
  intros [Hs Hr] [Hc1 Hc2]. split; [congruence|]. intros key. by rewrite Hr.
Qed.

Lemma Forall2_committed_as_act now a st (l : list value) cs :
  Forall (entry_ok st.2) l →
  Forall2 (committed_as st.2) l cs →
  Forall2 (committed_as (act now a st).2) l cs.
Proof.
  intros Hl H. induction H as [|v c l cs Hv _ IH]; [constructor|].
  apply Forall_cons in Hl as [Hvok Hl]. constructor; [|by apply IH].
  eapply committed_as_alike; [|done]. by apply act_alike_stable.
Qed.

(** The operation that an accepted commit appends is the submitted one,
    finalized. *)
Lemma commit_committed_as now uuid j st :
  nullish j = false →
  committed_as (act now (Commit uuid j) st).2 (reify j st.2).1 (Submission now uuid j).
Proof.
  intros Hj. destruct (act_commit_accepted now uuid j st Hj) as (Hp & _).
  destruct (act now (Commit uuid j) st) as [r1 h1]. simpl. split; simpl.
  - by apply (stringify_finalized uuid now st.1 j st.2 r1 h1).
  - intros key. unfold finalized_prop. simpl.
    by apply (read_committed uuid now j st.2 st.1 r1 h1 key).
Qed.

(** What an action does to the pairing of the history with the accepted
    commits. *)
Lemma act_pairing now a st cs :
  room_ok st.1 st.2 →
  Forall2 (committed_as st.2) (history st.1 st.2) cs →
  ∃ cs', cs' `sublist_of` cs ++ accepted [(now, a)] ∧
         Forall2 (committed_as (act now a st).2)
                 (history (act now a st).1 (act now a st).2) cs'.
Proof.
  intros Hok Hcs.
  pose proof (Forall2_committed_as_act now a st _ _ (history_entries st Hok) Hcs) as Hcs'.
  destruct a as [uuid j | |].
  - destruct (nullish j) eqn:Hj.
    { exists cs. rewrite act_commit_rejected in * by done.
      split; [by apply sublist_inserts_r | done]. }
    destruct (act_commit_accepted now uuid j st Hj) as (_ & Hlg & Hst & _).
    pose proof (commit_committed_as now uuid j st Hj) as Hnew.
    unfold history in Hcs'.
    apply Forall2_app_inv_l in Hcs' as (cl & cstk & Hcl & _ & ->).
    exists (cl ++ [Submission now uuid j]). split.
    + rewrite accepted_commit, Hj.
      apply sublist_app; [by apply sublist_inserts_r | done].
    + unfold history. rewrite Hlg, Hst. simpl. rewrite app_nil_r.
      apply Forall2_app; [done|]. by constructor.
  - exists cs. split; [by apply sublist_inserts_r|]. by rewrite undo_history.
  - exists cs. split; [by apply sublist_inserts_r|]. by rewrite redo_history.
Qed.

Lemma run_pairing acts : ∀ st cs,
  room_ok st.1 st.2 →
  Forall2 (committed_as st.2) (history st.1 st.2) cs →
  ∃ cs', cs' `sublist_of` cs ++ accepted acts ∧
         Forall2 (committed_as (run acts st).2)
                 (history (run acts st).1 (run acts st).2) cs'.
Proof.
  induction acts as [|[now a] acts IH]; intros st cs Hok Hcs.
  { exists cs. split; [by apply sublist_inserts_r | done]. }
  destruct (act_pairing now a st cs Hok Hcs) as (cs1 & Hsub1 & Hcs1).
  destruct (IH (act now a st) cs1 (act_room_ok now a st Hok) Hcs1) as (cs2 & Hsub2 & Hcs2).
  exists cs2. split; [|done]. etrans; [exact Hsub2|].
  change ((now, a) :: acts) with ([(now, a)] ++ acts).
  rewrite accepted_app, (assoc_L (++)). by apply sublist_app.
Qed.


Lemma same_room_pairing r h r' h' cs :
  room_ok r h → same_room r h r' h' →
  Forall2 (committed_as h) (history r h) cs →
  Forall2 (committed_as h') (history r' h') cs.
Proof.
  intros Hok (_ & _ & Hl & Hs & Hv) Hcs. unfold history. rewrite Hl, Hs.
  pose proof (history_entries (r, h) Hok) as Hent. simpl in Hent.
  fold (history r h). induction Hcs as [|v c l cs Hc _ IH]; [constructor|].
  apply Forall_cons in Hent as [Hvok Hent]. constructor; [|by apply IH].
  eapply committed_as_alike; [|done]. destruct (Hv v Hvok). by split.
Qed.

(** In every state the server reaches, the history of a room pairs, in
    order, with some of the commits that the messages addressed to the room
    asked for and that [pushOp] accepted. *)
Lemma serve_pairing evs k r :
  rooms (serve evs) !! k = Some r →
  ∃ cs, cs `sublist_of` accepted (actions_on k evs) ∧
        Forall2 (committed_as (heap (serve evs))) (history r (heap (serve evs))) cs.
Proof.
  revert r. induction evs as [|e evs IH] using rev_ind; intros r'.
  { unfold serve. simpl. by rewrite lookup_empty. }
  unfold serve, actions_on. rewrite foldl_app, bind_app. simpl.
  rewrite app_nil_r. fold (serve evs). fold (actions_on k evs).
  rewrite accepted_app.
  pose proof (serve_world_ok evs) as Hok. set (w := serve evs) in *.
  intros Hr'. destruct (rooms w !! k) as [r|] eqn:Hr.
  2:{ destruct (step_new_room w e k r' Hr Hr') as [Hl Hs].
      exists []. split; [apply sublist_nil_l|].
      unfold history. rewrite Hl, Hs. constructor. }
  destruct (IH r eq_refl) as (cs & Hsub & Hcs).
  destruct (step_room w e k r Hok Hr) as (acts & r1 & Hacts & _ & Hrok & Hr1 & Hsame).
  rewrite Hr1 in Hr'. injection Hr' as <-.
  destruct (run_pairing acts (r, heap w) cs (wok_room _ Hok k r Hr) Hcs)
    as (cs' & Hsub' & Hcs').
  exists cs'. split.
  - etrans; [exact Hsub'|]. apply sublist_app; [done|].
    destruct Hacts as [-> | ->]; [done | apply sublist_nil_l].
  - eapply same_room_pairing; [exact Hrok | exact Hsame | exact Hcs'].
Qed.

Lemma committed_as_text h (l : list value) cs :
  Forall2 (committed_as h) l cs →
  stringify_array h l = JArr (map submission_text cs).
Proof.
  intros H. unfold stringify_array. f_equal.
  induction H as [|v c l cs [Hs _] _ IH]; [done|].
  simpl. rewrite IH. f_equal. unfold submission_text. by rewrite Hs.
Qed.

Lemma truthy_or_default (a : option json) (d : json) :
  truthy (Some d) = true → truthy (Some (or_default a d)) = true.
Proof.
  intros Hd. unfold or_default. destruct a as [x|]; [|done].
  destruct (truthy (Some x)) eqn:E; done.
Qed.

Lemma accepted_elem c acts :
  c ∈ accepted acts →
  (at_time c, Commit (fresh_uuid c) (body c)) ∈ acts ∧ nullish (body c) = false.
Proof.
  unfold accepted. rewrite list_elem_of_omap. intros ([now a] & Hin & Hc).
  simpl in Hc. destruct a as [uuid j | |]; try done.
  destruct (nullish j) eqn:Hj; [done|]. injection Hc as <-. by simpl.
Qed.

Lemma committed_as_stamped h v c :
  at_time c ≠ 0 → fresh_uuid c ≠ EmptyString → nullish (body c) = false →
  committed_as h v c → stamped h v.
Proof.
  intros Hnow Huuid Hj [Hs Hr]. destruct v as [| | | | | l]; try done.
  assert (truthy (Some (JStr (fresh_uuid c))) = true) as Hu.
  { simpl. destruct (String.eqb_spec (fresh_uuid c) EmptyString); done. }
  assert (truthy (Some (JNum (at_time c))) = true) as Ht.
  { simpl. destruct (Z.eqb_spec (at_time c) 0); done. }
  destruct c as [now uuid j]. cbn [at_time fresh_uuid body] in *.
  assert (∃ o : cell, finalized_prop (Submission now uuid j) = λ key,
                  props (finalize uuid now o) !! key) as [o Hc0].
  { unfold finalized_prop. cbn [at_time fresh_uuid body].
    destruct j as [[| b | n | str | xs | kvs]|]; try done; eauto;
      unfold stringify, finalized_text in Hs;
      by destruct (items (get_cell h l)). }
  unfold stamped. rewrite !Hr, Hc0.
  rewrite finalize_opId, finalize_ts, finalize_type.
  split_and!; by apply truthy_or_default.
Qed.

End pairing.

(** X17.  What a log holds.  In every state that the server reaches, the
    entries of the log of a room, followed by the entries of its stack from
    the top down, are operations of commits that were addressed to the room
    and accepted, in the order of the commits and each at most once: every
    entry prints as the text of its commit as [pushOp] finalized it, and every
    property of it reads as [pushOp] left it.  Nothing else is ever in a log:
    no partial stroke, no cursor, no operation of another room, and no
    operation that was changed after its commit. *)
Theorem log_entries_are_finalized_commits (evs : list event) (k : string) (r : room) :
  rooms (serve evs) !! k = Some r →
  let h := heap (serve evs) in
  ∃ cl cstk,
    cl ++ cstk `sublist_of` accepted (actions_on k evs) ∧
    Forall2 (committed_as h) (log_of r h) cl ∧
    Forall2 (committed_as h) (reverse (stack_of r h)) cstk ∧
    log_text r h = JArr (map submission_text cl).
Proof.
  intros Hr h. destruct (serve_pairing evs k r Hr) as (cs & Hsub & Hcs).
  unfold history in Hcs. apply Forall2_app_inv_l in Hcs as (cl & cstk & Hcl & Hstk & ->).
  exists cl, cstk. split_and!; try done. by apply committed_as_text.
Qed.

(** X18.  Every logged operation has an id, a timestamp and a type.  When
    [Date.now()] never reads 0 and [uuidv4()] never gives the empty string at
    the commits of a room, every operation object in the log and in the stack
    of the room has a truthy [opId], a truthy [ts] and a truthy [type],
    whatever was submitted. *)
Theorem committed_operations_are_stamped (evs : list event) (k : string) (r : room) :
  rooms (serve evs) !! k = Some r →
  Forall sound_oracles (actions_on k evs) →
  let h := heap (serve evs) in
  Forall (stamped h) (log_of r h) ∧ Forall (stamped h) (stack_of r h).
Proof.
  intros Hr Hall h. destruct (serve_pairing evs k r Hr) as (cs & Hsub & Hcs).
  assert (Forall (stamped h) (history r h)) as Hst.
  { fold h in Hcs. induction Hcs as [|v c l cs' Hc _ IH]; [constructor|].
    constructor.
    - assert (c ∈ accepted (actions_on k evs)) as Hin.
      { eapply elem_of_sublist; [|exact Hsub]. by left. }
      apply accepted_elem in Hin as [Hin Hj].
      rewrite Forall_forall in Hall. specialize (Hall _ Hin) as [Hnow Huuid].
      by apply (committed_as_stamped h v c).
    - apply IH. etrans; [|exact Hsub]. by apply sublist_cons. }
  unfold history in Hst. apply Forall_app in Hst as [Hl Hs]. split; [done|].
  apply Forall_reverse in Hs. by rewrite reverse_involutive in Hs.
Qed.


(** ** The upgrade of a connection *)

Section upgrade.
Implicit Types (q : list (string * string)) (name : string).








End upgrade.


(** ** The theorems at concrete states *)

(** Closed facts are settled by evaluation. *)
Ltac by_compute := vm_compute; first [reflexivity | discriminate | repeat constructor].
Ltac by_decide := refine (bool_decide_unpack _ _); vm_compute; exact I.

Lemma two_clients_session :
  session_ok two_clients "r1" 0%nat room_r1 (socket_of two_clients 0%nat).
Proof. split; [by_compute | reflexivity | by_decide | by_compute]. Defined.

Lemma two_commits_ok : room_ok two_commits.1 two_commits.2.
Proof. split; by_compute. Defined.

Lemma one_undone_ok : room_ok one_undone.1 one_undone.2.
Proof. split; by_compute. Defined.

(** The first participant of ["r1"] submits an operation of type ["blob"]. *)
Lemma C1_commit_accepts_any_kind_witness :
  let w := two_clients in
  let r := room_r1 in
  let s := socket_of two_clients 0%nat in
  let payload := op_message blob_op in
  session_ok w "r1" 0%nat r s ∧
  (∀ j, json_prop payload "op" = Some j → nullish j = false →
     ∃ r1 w',
       handleMessage "uuid-1" 1000 "r1" 0%nat (Some (JStr "op")) payload w
         = (Return (), w') ∧
       rooms w' !! "r1" = Some r1 ∧
       log_of r1 (heap w') = log_of r (heap w) ++ [(reify j (heap w)).1] ∧
       stack_of r1 (heap w') = [] ∧
       (∀ kvs, j = Some (JObj kvs) →
          read (heap w') (reify j (heap w)).1 "type"
            = Some (or_default (kvs !! "type") (JStr "stroke"))) ∧
       (∀ c sc, c ∈ clients r → socks w !! c = Some sc → readyState sc = OPEN →
          socks w' !! c =
            Some (push_sent
                    (envelope "op" (Some (obj [("op", finalized_text "uuid-1" 1000 j)])))
                    sc))) ∧
  (json_prop payload "op" = None ∨
   (∃ j, json_prop payload "op" = Some j ∧ nullish j = true) →
   handleMessage "uuid-1" 1000 "r1" 0%nat (Some (JStr "op")) payload w = (Throw, w)).
Proof.
  split; [exact two_clients_session|].
  apply (C1_commit_accepts_any_kind "uuid-1" 1000 "r1" 0%nat two_clients room_r1
           (socket_of two_clients 0%nat) (op_message blob_op)).
  split; [by_compute | reflexivity | by_decide | by_compute].
Defined.

(** Two commits in a new room, then undo and redo. *)
Lemma C2_undo_redo_round_trip_witness :
  let cs := [Submission 1000 "uuid-1" (Some red_op);
             Submission 1001 "uuid-2" (Some blob_op)] in
  let st := run (commit_of <$> cs) (createRoom "r1" empty_store) in
  cs ≠ [] ∧
  Forall (λ c, nullish (body c) = false) cs ∧
  ∃ xs op h2 h3,
    log_of st.1 st.2 = xs ++ [op] ∧
    undoLast 1002 st.1 st.2 = (Return (Some (UndoInfo (read st.2 op "opId") 1002)), h2) ∧
    log_of st.1 h2 = xs ∧
    redoLast 1003 st.1 h2 = (Some (RedoInfo op 1003), h3) ∧
    log_of st.1 h3 = log_of st.1 st.2 ∧
    objs h3 = objs st.2 ∧
    log_text st.1 h3 = log_text st.1 st.2.
Proof.
  split; [discriminate|]. split; [repeat constructor|].
  apply (C2_undo_redo_round_trip (createRoom "r1" empty_store).1
           (createRoom "r1" empty_store).2
           [Submission 1000 "uuid-1" (Some red_op);
            Submission 1001 "uuid-2" (Some blob_op)] 1002 1003).
  - discriminate.
  - repeat constructor.
Defined.

(** A room with two commits: undo, commit, then redo. *)
Lemma C3_commit_invalidates_redo_witness :
  let st := two_commits in
  let j := Some blob_op in
  let st1 := act 1002 Undo st in
  let st2 := act 1003 (Commit "uuid-3" j) st1 in
  nullish j = false ∧
  stack_of (act 1003 (Commit "uuid-3" j) st).1 (act 1003 (Commit "uuid-3" j) st).2 = [] ∧
  stack_of st2.1 st2.2 = [] ∧
  redoLast 1004 st2.1 st2.2 = (None, st2.2) ∧
  ∀ (w : world) (roomObj : string) (client : ws) (s : socket) (u : string)
    (payload : option json),
    session_ok w roomObj client st2.1 s → heap w = st2.2 →
    handleMessage u 1004 roomObj client (Some (JStr "redo")) payload w = (Return (), w).
Proof.
  split; [reflexivity|].
  apply (C3_commit_invalidates_redo two_commits 1002 1003 1004 "uuid-3" (Some blob_op)).
  reflexivity.
Defined.

(** Three undos of a room that has two operations. *)
Lemma C5_undo_is_bounded_witness :
  let r := two_commits.1 in
  let h := two_commits.2 in
  let nows := [1002; 1003; 1004] in
  let now := 1002 in
  room_ok r h ∧
  (undo_times nows r h).1 = false ∧
  log_of r (undo_times nows r h).2 =
    take (length (log_of r h) - length nows) (log_of r h) ∧
  (length (log_of r h) ≤ length nows → log_of r (undo_times nows r h).2 = [])%nat ∧
  (∀ xs x, log_of r h = xs ++ [x] →
     undoLast now r h =
       (Return (Some (UndoInfo (read h x "opId") now)), (undoLast now r h).2) ∧
     log_of r (undoLast now r h).2 = xs) ∧
  (log_of r h = [] →
     undoLast now r h = (Return None, h) ∧
     ∀ (w : world) (roomObj : string) (client : ws) (s : socket) (u : string)
       (payload : option json),
       session_ok w roomObj client r s → heap w = h →
       handleMessage u now roomObj client (Some (JStr "undo")) payload w
         = (Return (), w)).
Proof.
  split; [exact two_commits_ok|].
  apply (C5_undo_is_bounded two_commits.1 two_commits.2 [1002; 1003; 1004] 1002).
  split; by_compute.
Defined.

(** A snapshot of a room that has two operations. *)
Lemma C6_getState_is_a_shallow_copy_witness :
  let r := two_commits.1 in
  let h := two_commits.2 in
  let snap := (getState r h).1 in
  let h1 := (getState r h).2 in
  room_ok r h ∧
  (snap ∉ dom (arrs h)) ∧ snap ≠ opLog r ∧ snap ≠ undoneStack r ∧
  arr h1 snap = log_of r h ∧
  log_of r h1 = log_of r h ∧ stack_of r h1 = stack_of r h ∧ objs h1 = objs h ∧
  (∀ xs, log_of r (set_arr snap xs h1) = log_of r h ∧
         log_text r (set_arr snap xs h1) = log_text r h) ∧
  (∀ i v k x h2, arr h1 snap !! i = Some v → set_prop v k x h1 = Some h2 →
     log_of r h2 = log_of r h ∧ log_of r h2 !! i = Some v ∧
     ∀ l, v = VRef l → read h2 v k = Some x) ∧
  (∀ (w : world) (roomObj : string) (client : ws) (s : socket) (u : string)
     (now : Z) (payload : option json),
     session_ok w roomObj client r s → heap w = h →
     ∃ w',
       handleMessage u now roomObj client (Some (JStr "request-state")) payload w
         = (Return (), w') ∧
       rooms w' = rooms w ∧ objs (heap w') = objs h ∧
       log_of r (heap w') = log_of r h ∧
       socks w' !! client =
         Some (push_sent (envelope "state" (Some (log_text r h))) s)).
Proof.
  split; [exact two_commits_ok|].
  apply (C6_getState_is_a_shallow_copy two_commits.1 two_commits.2).
  split; by_compute.
Defined.

(** The first participant of ["r1"] commits an operation. *)
Lemma C7_op_is_sent_to_open_members_witness :
  let w := two_clients in
  let r := room_r1 in
  let s := socket_of two_clients 0%nat in
  let payload := op_message red_op in
  let j := Some red_op in
  let msg := envelope "op" (Some (obj [("op", finalized_text "uuid-1" 1000 j)])) in
  session_ok w "r1" 0%nat r s ∧
  json_prop payload "op" = Some j ∧ nullish j = false ∧
  ∃ w',
    handleMessage "uuid-1" 1000 "r1" 0%nat (Some (JStr "op")) payload w
      = (Return (), w') ∧
    (∀ c sc, c ∈ clients r → socks w !! c = Some sc → readyState sc = OPEN →
       socks w' !! c = Some (push_sent msg sc)) ∧
    (0%nat ∈ clients r → readyState s = OPEN →
       socks w' !! 0%nat = Some (push_sent msg s)) ∧
    (∀ c sc, socks w !! c = Some sc → c ∉ clients r ∨ readyState sc ≠ OPEN →
       socks w' !! c = Some sc).
Proof.
  split; [exact two_clients_session|].
  split; [by_compute|]. split; [reflexivity|].
  apply (C7_op_is_sent_to_open_members "uuid-1" 1000 "r1" 0%nat two_clients room_r1
           (socket_of two_clients 0%nat) (op_message red_op) (Some red_op)).
  - split; [by_compute | reflexivity | by_decide | by_compute].
  - by_compute.
  - reflexivity.
Defined.

(** The first participant of ["r1"] relays a stroke part. *)
Lemma C8_stroke_part_is_relayed_to_open_others_witness :
  let w := two_clients in
  let r := room_r1 in
  let s := socket_of two_clients 0%nat in
  let payload := Some (JObj {["opId" := JStr "o1"; "finalize" := JBool false]}) in
  let msg := envelope "stroke-part" payload in
  session_ok w "r1" 0%nat r s ∧
  ∃ w',
    handleMessage "uuid-1" 1000 "r1" 0%nat (Some (JStr "stroke-part")) payload w
      = (Return (), w') ∧
    (∀ c sc, c ∈ clients r → c ≠ 0%nat → socks w !! c = Some sc →
       readyState sc = OPEN → socks w' !! c = Some (push_sent msg sc)) ∧
    socks w' !! 0%nat = Some s ∧
    (∀ c sc, socks w !! c = Some sc → c ∉ clients r ∨ readyState sc ≠ OPEN →
       socks w' !! c = Some sc) ∧
    rooms w' = rooms w ∧ heap w' = heap w ∧
    log_of r (heap w') = log_of r (heap w) ∧
    stack_of r (heap w') = stack_of r (heap w).
Proof.
  split; [exact two_clients_session|].
  apply (C8_stroke_part_is_relayed_to_open_others "uuid-1" 1000 "r1" 0%nat
           two_clients room_r1 (socket_of two_clients 0%nat)
           (Some (JObj {["opId" := JStr "o1"; "finalize" := JBool false]}))).
  split; [by_compute | reflexivity | by_decide | by_compute].
Defined.

(** A room with one operation in the log and one on the stack. *)
Lemma C10_undo_redo_conserve_witness :
  let r := one_undone.1 in
  let h := one_undone.2 in
  let hu := (undoLast 1003 r h).2 in
  let hr := (redoLast 1003 r h).2 in
  room_ok r h ∧
  log_of r hu ++ stack_of r hu ≡ₚ log_of r h ++ stack_of r h ∧
  log_of r hr ++ stack_of r hr ≡ₚ log_of r h ++ stack_of r h ∧
  (length (log_of r hu) + length (stack_of r hu) =
     length (log_of r h) + length (stack_of r h))%nat ∧
  (length (log_of r hr) + length (stack_of r hr) =
     length (log_of r h) + length (stack_of r h))%nat ∧
  objs hu = objs h ∧ objs hr = objs h ∧
  (∀ xs x, log_of r h = xs ++ [x] →
     log_of r hu = xs ∧ stack_of r hu = stack_of r h ++ [x]) ∧
  (∀ xs x, stack_of r h = xs ++ [x] →
     stack_of r hr = xs ∧ log_of r hr = log_of r h ++ [x]) ∧
  (log_of r h = [] → hu = h) ∧
  (stack_of r h = [] → hr = h).
Proof.
  split; [exact one_undone_ok|].
  apply (C10_undo_redo_conserve 1003 one_undone.1 one_undone.2).
  split; by_compute.
Defined.

(** Two commits with distinct ids, in a room taken alone and on the server. *)
Lemma C4_log_ids_are_the_committed_ids_witness :
  let acts := [(1000, Commit "uuid-1" (Some red_op));
               (1001, Commit "uuid-2" (Some blob_op))] in
  let st := run acts (createRoom "r1" empty_store) in
  let evs := two_messages in
  Forall is_commit acts ∧
  NoDup (commit_ids acts) ∧
  log_ids st.1 st.2 = [Some (JStr "o1"); Some (JStr "uuid-2")] ∧
  NoDup (log_ids st.1 st.2) ∧
  rooms (serve evs) !! "r1" = Some room_r1'' ∧
  NoDup (commit_ids (actions_on "r1" evs)) ∧
  NoDup (log_ids room_r1'' (heap (serve evs))).
Proof.
  intros acts st evs.
  assert (Forall is_commit acts) as Hall by (repeat constructor).
  assert (commit_ids acts = [Some (JStr "o1"); Some (JStr "uuid-2")]) as Hids.
  { vm_compute. reflexivity. }
  assert (NoDup [Some (JStr "o1"); Some (JStr "uuid-2")]) as Hnd'.
  { apply NoDup_cons. split; [|apply NoDup_singleton].
    intros Hin. apply list_elem_of_singleton in Hin. discriminate. }
  assert (NoDup (commit_ids acts)) as Hnd by by rewrite Hids.
  assert (rooms (serve evs) !! "r1" = Some room_r1'') as Hr by by_compute.
  assert (commit_ids (actions_on "r1" evs) = [Some (JStr "o1"); Some (JStr "uuid-2")])
    as Hids'.
  { vm_compute. reflexivity. }
  assert (NoDup (commit_ids (actions_on "r1" evs))) as Hnd2 by by rewrite Hids'.
  destruct (C4_log_ids_are_the_committed_ids "r1" empty_store acts evs "r1" room_r1'')
    as ((_ & Heq & Hlog) & Hserve & _).
  destruct (Hserve Hr) as [_ Hlog'].
  split_and!; [exact Hall | exact Hnd | | exact (Hlog Hnd) | exact Hr | exact Hnd2
              | exact (Hlog' Hnd2)].
  fold st in Heq. rewrite (Heq Hall). exact Hids.
Defined.

(** Commits without timestamps, in a room taken alone and on the server. *)
Lemma C9_server_timestamps_are_monotonic_witness :
  let acts := [(1000, Commit "uuid-1" (Some red_op));
               (1001, Undo);
               (1002, Redo);
               (1003, Commit "uuid-2" (Some blob_op))] in
  let st := run acts (createRoom "r1" empty_store) in
  let evs := two_messages in
  Forall server_stamped acts ∧
  StronglySorted Z.le (map fst acts) ∧
  StronglySorted ts_le (log_ts st.1 st.2) ∧
  log_ts st.1 st.2 `sublist_of` map (λ e, Some (JNum e.1)) acts ∧
  rooms (serve evs) !! "r1" = Some room_r1'' ∧
  Forall server_stamped (actions_on "r1" evs) ∧
  StronglySorted Z.le (map fst (actions_on "r1" evs)) ∧
  StronglySorted ts_le (log_ts room_r1'' (heap (serve evs))).
Proof.
  intros acts st evs.
  assert (Forall server_stamped acts) as Hall.
  { repeat constructor; intros _; vm_compute; reflexivity. }
  assert (StronglySorted Z.le (map fst acts)) as Hclock.
  { repeat constructor; vm_compute; discriminate. }
  assert (rooms (serve evs) !! "r1" = Some room_r1'') as Hr by by_compute.
  assert (actions_on "r1" evs = [(1000, Commit "uuid-1" (Some red_op));
                                  (1001, Commit "uuid-2" (Some blob_op))]) as Hacts.
  { vm_compute. reflexivity. }
  assert (Forall server_stamped (actions_on "r1" evs)) as Hall'.
  { rewrite Hacts. repeat constructor; intros _; vm_compute; reflexivity. }
  assert (StronglySorted Z.le (map fst (actions_on "r1" evs))) as Hclock'.
  { rewrite Hacts. repeat constructor; vm_compute; discriminate. }
  destruct (C9_server_timestamps_are_monotonic "r1" empty_store acts evs "r1"
              room_r1'') as ((_ & Hsorted) & Hserve & _).
  destruct (Hsorted Hall Hclock) as [Hs1 Hs2].
  destruct (Hserve Hr) as [_ Hs3].
  split_and!; [exact Hall | exact Hclock | exact Hs1 | exact Hs2 | exact Hr
              | exact Hall' | exact Hclock' | exact (Hs3 Hall' Hclock')].
Defined.

(** ** The further theorems at concrete states *)

Ltac by_heard := cbn [heard]; repeat split; eexists; vm_compute; reflexivity.

Lemma on_connection_syncs_the_newcomer_witness :
  let w := two_clients in
  let w' := on_connection 2%nat OPEN "s_c" "r1" "cat" EmptyString w in
  let log := match rooms w !! "r1" with
             | Some r => log_text r (heap w)
             | None => JArr []
             end in
  world_ok w ∧ socks w !! 2%nat = None ∧
  ∃ r' s',
    rooms w' !! "r1" = Some r' ∧
    clients r' = members "r1" w ++ [2%nat] ∧
    log_text r' (heap w') = log ∧
    socks w' !! 2%nat = Some s' ∧
    userId s' = "s_c" ∧
    username s' = JStr "cat" ∧
    color s' = JStr "#000000" ∧
    readyState s' = OPEN ∧
    let users := envelope "user-list" (Some (userList (socks w') r')) in
    sent s' = [users; users; envelope "state" (Some log)] ∧
    (∀ c sc, c ∈ members "r1" w → socks w !! c = Some sc → readyState sc = OPEN →
       socks w' !! c = Some (push_sent users sc)) ∧
    (∀ c sc, socks w !! c = Some sc → c ∉ members "r1" w ∨ readyState sc ≠ OPEN →
       socks w' !! c = Some sc) ∧
    (∀ k', k' ≠ "r1" → rooms w' !! k' = rooms w !! k') ∧
    objs (heap w') = objs (heap w).
Proof.
  split; [exact (serve_world_ok two_connections)|]. split; [by_compute|].
  apply (on_connection_syncs_the_newcomer 2%nat OPEN "s_c" "r1" "cat" EmptyString
           two_clients).
  - exact (serve_world_ok two_connections).
  - by_compute.
Defined.

Lemma one_closing_ok : world_ok one_closing.
Proof.
  exact (serve_world_ok [Connection 0%nat OPEN "s_a" "r1" "ann" EmptyString;
                         Connection 1%nat OPEN "s_b" "r1" "bob" EmptyString;
                         ReadyState 1%nat 2%nat]).
Defined.

Lemma on_close_announces_the_leaver_witness :
  let w := one_closing in
  let r := room_r1 in
  let s := socket_of one_closing 1%nat in
  let w' := on_close "r1" 1%nat w in
  let users := envelope "user-list" (Some (userList (socks w') (leave 1%nat r))) in
  let gone := envelope "user-left" (Some (obj [("userId", Some (JStr (userId s)))])) in
  world_ok w ∧ rooms w !! "r1" = Some r ∧ socks w !! 1%nat = Some s ∧
  rooms w' !! "r1" = Some (leave 1%nat r) ∧
  members "r1" w' = filter (λ c, c ≠ 1%nat) (clients r) ∧
  (1%nat ∉ members "r1" w') ∧
  socks w' !! 1%nat = Some s ∧
  (∀ c sc, c ∈ clients r → c ≠ 1%nat → socks w !! c = Some sc →
     readyState sc = OPEN →
     socks w' !! c = Some (push_sent gone (push_sent users sc))) ∧
  (∀ c sc, socks w !! c = Some sc → c ∉ clients r ∨ readyState sc ≠ OPEN →
     socks w' !! c = Some sc) ∧
  (∀ k', k' ≠ "r1" → rooms w' !! k' = rooms w !! k') ∧
  heap w' = heap w ∧
  log_of (leave 1%nat r) (heap w') = log_of r (heap w) ∧
  stack_of (leave 1%nat r) (heap w') = stack_of r (heap w).
Proof.
  split; [exact one_closing_ok|]. split; [by_compute|]. split; [by_compute|].
  apply (on_close_announces_the_leaver "r1" 1%nat one_closing room_r1
           (socket_of one_closing 1%nat)).
  - exact one_closing_ok.
  - by_compute.
  - by_compute.
Defined.

Lemma ping_is_echoed_to_the_sender_witness :
  let w := two_clients in
  let s := socket_of two_clients 0%nat in
  let payload := Some (JObj {["ts" := JNum 7]}) in
  session_ok w "r1" 0%nat room_r1 s ∧
  (nullish payload = true →
   handleMessage "uuid-1" 1000 "r1" 0%nat (Some (JStr "ping")) payload w = (Throw, w)) ∧
  (nullish payload = false →
   ∃ w' echo,
     handleMessage "uuid-1" 1000 "r1" 0%nat (Some (JStr "ping")) payload w
       = (Return (), w') ∧
     socks w' !! 0%nat = Some (push_sent (envelope "pong" (Some echo)) s) ∧
     json_prop (Some echo) "ts" = json_prop payload "ts" ∧
     (∀ c, c ≠ 0%nat → socks w' !! c = socks w !! c) ∧
     rooms w' = rooms w ∧ heap w' = heap w).
Proof.
  split; [exact two_clients_session|].
  apply (ping_is_echoed_to_the_sender "uuid-1" 1000 "r1" 0%nat two_clients room_r1
           (socket_of two_clients 0%nat) (Some (JObj {["ts" := JNum 7]}))).
  split; [by_compute | reflexivity | by_decide | by_compute].
Defined.

Lemma meta_renames_the_sender_witness :
  let w := two_clients in
  let r := room_r1 in
  let s := socket_of two_clients 0%nat in
  let payload := Some (JObj {["username" := JStr "zoe"; "color" := JStr EmptyString]}) in
  session_ok w "r1" 0%nat r s ∧
  (nullish payload = true →
   handleMessage "uuid-1" 1000 "r1" 0%nat (Some (JStr "meta")) payload w = (Throw, w)) ∧
  (∀ u c, json_prop payload "username" = Some u → json_prop payload "color" = Some c →
   let s' := Socket (userId s) (or_default u (username s)) (or_default c (color s))
                    (readyState s) (sent s) in
   ∃ w',
     handleMessage "uuid-1" 1000 "r1" 0%nat (Some (JStr "meta")) payload w
       = (Return (), w') ∧
     let users := envelope "user-list" (Some (userList (socks w') r)) in
     socks w' !! 0%nat =
       Some (if decide (0%nat ∈ clients r ∧ readyState s = OPEN)
             then push_sent users s' else s') ∧
     (∀ c0 sc, c0 ∈ clients r → c0 ≠ 0%nat → socks w !! c0 = Some sc →
        readyState sc = OPEN → socks w' !! c0 = Some (push_sent users sc)) ∧
     (∀ c0 sc, c0 ≠ 0%nat → socks w !! c0 = Some sc →
        c0 ∉ clients r ∨ readyState sc ≠ OPEN → socks w' !! c0 = Some sc) ∧
     rooms w' = rooms w ∧ heap w' = heap w).
Proof.
  split; [exact two_clients_session|].
  apply (meta_renames_the_sender "uuid-1" 1000 "r1" 0%nat two_clients room_r1
           (socket_of two_clients 0%nat)
           (Some (JObj {["username" := JStr "zoe"; "color" := JStr EmptyString]}))).
  split; [by_compute | reflexivity | by_decide | by_compute].
Defined.

Lemma cursor_is_relayed_under_the_server_identity_witness :
  let w := two_clients in
  let r := room_r1 in
  let s := socket_of two_clients 0%nat in
  let payload := Some (JObj {["userId" := JStr "s_b"; "x" := JNum 3; "y" := JNum 4]}) in
  session_ok w "r1" 0%nat r s ∧
  (nullish payload = true →
   handleMessage "uuid-1" 1000 "r1" 0%nat (Some (JStr "cursor")) payload w = (Throw, w)) ∧
  (∀ x y, json_prop payload "x" = Some x → json_prop payload "y" = Some y →
   let msg := envelope "cursor"
                (Some (obj [("userId", Some (JStr (userId s))); ("x", x); ("y", y);
                            ("color", Some (color s));
                            ("username", Some (username s))])) in
   ∃ w',
     handleMessage "uuid-1" 1000 "r1" 0%nat (Some (JStr "cursor")) payload w
       = (Return (), w') ∧
     (∀ c sc, c ∈ clients r → c ≠ 0%nat → socks w !! c = Some sc →
        readyState sc = OPEN → socks w' !! c = Some (push_sent msg sc)) ∧
     socks w' !! 0%nat = Some s ∧
     (∀ c sc, socks w !! c = Some sc → c ∉ clients r ∨ readyState sc ≠ OPEN →
        socks w' !! c = Some sc) ∧
     rooms w' = rooms w ∧ heap w' = heap w) ∧
  (∀ payload',
     json_prop payload' "x" = json_prop payload "x" →
     json_prop payload' "y" = json_prop payload "y" →
     handleMessage "uuid-1" 1000 "r1" 0%nat (Some (JStr "cursor")) payload' w =
     handleMessage "uuid-1" 1000 "r1" 0%nat (Some (JStr "cursor")) payload w).
Proof.
  split; [exact two_clients_session|].
  apply (cursor_is_relayed_under_the_server_identity "uuid-1" 1000 "r1" 0%nat
           two_clients room_r1 (socket_of two_clients 0%nat)
           (Some (JObj {["userId" := JStr "s_b"; "x" := JNum 3; "y" := JNum 4]}))).
  split; [by_compute | reflexivity | by_decide | by_compute].
Defined.

Lemma two_messages_session :
  session_ok (serve two_messages) "r1" 1%nat room_r1''
    (socket_of (serve two_messages) 1%nat).
Proof. split; [by_compute | reflexivity | by_decide | by_compute]. Defined.

Lemma two_messages_room_ok : room_ok room_r1'' (heap (serve two_messages)).
Proof. split; by_compute. Defined.

Lemma undo_is_announced_to_open_members_witness :
  let w := serve two_messages in
  let r := room_r1'' in
  let s := socket_of (serve two_messages) 1%nat in
  let op := VRef 1%nat in
  let target := read (heap w) op "opId" in
  let undo := envelope "undo"
                (Some (obj [("targetOpId", target); ("ts", Some (JNum 1002))])) in
  let wrapped := envelope "op"
                   (Some (obj [("op",
                      Some (obj [("type", Some (JStr "undo"));
                                 ("targetOpId", target);
                                 ("ts", Some (JNum 1002))]))])) in
  session_ok w "r1" 1%nat r s ∧ room_ok r (heap w) ∧
  log_of r (heap w) = [VRef 0%nat] ++ [op] ∧
  ∃ w',
    handleMessage "uuid-3" 1002 "r1" 1%nat (Some (JStr "undo")) None w
      = (Return (), w') ∧
    rooms w' = rooms w ∧ objs (heap w') = objs (heap w) ∧
    log_of r (heap w') = [VRef 0%nat] ∧
    stack_of r (heap w') = stack_of r (heap w) ++ [op] ∧
    (∀ c sc, c ∈ clients r → socks w !! c = Some sc → readyState sc = OPEN →
       socks w' !! c = Some (push_sent wrapped (push_sent undo sc))) ∧
    (∀ c sc, socks w !! c = Some sc → c ∉ clients r ∨ readyState sc ≠ OPEN →
       socks w' !! c = Some sc).
Proof.
  split; [exact two_messages_session|]. split; [exact two_messages_room_ok|].
  split; [by_compute|].
  apply (undo_is_announced_to_open_members "uuid-3" 1002 "r1" 1%nat
           (serve two_messages) room_r1'' (socket_of (serve two_messages) 1%nat)
           None [VRef 0%nat] (VRef 1%nat)).
  - exact two_messages_session.
  - exact two_messages_room_ok.
  - by_compute.
Defined.

Lemma one_undo_session :
  session_ok (serve one_undo) "r1" 0%nat room_r1'' (socket_of (serve one_undo) 0%nat).
Proof. split; [by_compute | reflexivity | by_decide | by_compute]. Defined.

Lemma one_undo_room_ok : room_ok room_r1'' (heap (serve one_undo)).
Proof. split; by_compute. Defined.

Lemma redo_is_announced_to_open_members_witness :
  let w := serve one_undo in
  let r := room_r1'' in
  let s := socket_of (serve one_undo) 0%nat in
  let op := VRef 1%nat in
  let text := stringify (heap w) op in
  let redo := envelope "redo"
                (Some (obj [("stroke", text); ("ts", Some (JNum 1003))])) in
  let wrapped := envelope "op"
                   (Some (obj [("op",
                      Some (obj [("type", Some (JStr "redo"));
                                 ("stroke", text);
                                 ("ts", Some (JNum 1003))]))])) in
  session_ok w "r1" 0%nat r s ∧ room_ok r (heap w) ∧
  stack_of r (heap w) = [] ++ [op] ∧
  ∃ w',
    handleMessage "uuid-4" 1003 "r1" 0%nat (Some (JStr "redo")) None w
      = (Return (), w') ∧
    rooms w' = rooms w ∧ objs (heap w') = objs (heap w) ∧
    stack_of r (heap w') = [] ∧
    log_of r (heap w') = log_of r (heap w) ++ [op] ∧
    (∀ c sc, c ∈ clients r → socks w !! c = Some sc → readyState sc = OPEN →
       socks w' !! c = Some (push_sent wrapped (push_sent redo sc))) ∧
    (∀ c sc, socks w !! c = Some sc → c ∉ clients r ∨ readyState sc ≠ OPEN →
       socks w' !! c = Some sc).
Proof.
  split; [exact one_undo_session|]. split; [exact one_undo_room_ok|].
  split; [by_compute|].
  apply (redo_is_announced_to_open_members "uuid-4" 1003 "r1" 0%nat
           (serve one_undo) room_r1'' (socket_of (serve one_undo) 0%nat)
           None [] (VRef 1%nat)).
  - exact one_undo_session.
  - exact one_undo_room_ok.
  - by_compute.
Defined.

Lemma two_clients_room_ok : room_ok room_r1 (heap two_clients).
Proof. split; by_compute. Defined.

Lemma handleMessage_throws_exactly_witness :
  let w := two_clients in
  let s := socket_of two_clients 0%nat in
  let type := Some (JStr "op") in
  let payload := Some (JObj {["op" := JNull]}) in
  let res := handleMessage "uuid-1" 1000 "r1" 0%nat type payload w in
  session_ok w "r1" 0%nat room_r1 s ∧ room_ok room_r1 (heap w) ∧
  (res.1 = Throw ↔
     ((type_is type "ping" = true ∨ type_is type "meta" = true ∨
       type_is type "cursor" = true) ∧ nullish payload = true) ∨
     (type_is type "op" = true ∧
      ∀ j, json_prop payload "op" = Some j → nullish j = true)) ∧
  (res.1 = Throw → res.2 = w) ∧
  ((∀ name, name ∈ message_types → type_is type name = false) →
   res = (Return (), w)).
Proof.
  split; [exact two_clients_session|]. split; [exact two_clients_room_ok|].
  apply (handleMessage_throws_exactly "uuid-1" 1000 "r1" 0%nat two_clients room_r1
           (socket_of two_clients 0%nat) (Some (JStr "op"))
           (Some (JObj {["op" := JNull]}))).
  - exact two_clients_session.
  - exact two_clients_room_ok.
Defined.

Lemma on_message_failure_changes_nothing_witness :
  let w := two_clients in
  let msg := Some (JObj {["type" := JStr "op"]}) in
  world_ok w ∧
  (msg = None ∨ msg = Some JNull →
   on_message "uuid-1" 1000 "r1" 0%nat msg w = w) ∧
  (∀ type payload,
     nullish msg = false →
     json_prop msg "type" = Some type → json_prop msg "payload" = Some payload →
     on_message "uuid-1" 1000 "r1" 0%nat msg w
       = (handleMessage "uuid-1" 1000 "r1" 0%nat type payload w).2 ∧
     ((handleMessage "uuid-1" 1000 "r1" 0%nat type payload w).1 = Throw →
      on_message "uuid-1" 1000 "r1" 0%nat msg w = w) ∧
     ((∀ name, name ∈ message_types → type_is type name = false) →
      on_message "uuid-1" 1000 "r1" 0%nat msg w = w)).
Proof.
  split; [exact (serve_world_ok two_connections)|].
  apply (on_message_failure_changes_nothing "uuid-1" 1000 "r1" 0%nat
           (Some (JObj {["type" := JStr "op"]})) two_clients).
  exact (serve_world_ok two_connections).
Defined.

Lemma step_sends_only_within_the_room_witness :
  let w := serve (two_connections ++
                  [Connection 2%nat OPEN "s_c" "r2" "cat" EmptyString]) in
  let e := Message "uuid-1" 1000 "r1" 0%nat
             (Some (JObj {["type" := JStr "op"; "payload" := JObj {["op" := red_op]}]})) in
  world_ok w ∧ 2%nat ≠ event_client e ∧
  (∀ k, event_room e = Some k → 2%nat ∉ members k w) ∧
  socks (step w e) !! 2%nat = socks w !! 2%nat.
Proof.
  intros w e.
  assert (world_ok w) as Hok by apply serve_world_ok.
  assert (2%nat ≠ event_client e) as Hne by discriminate.
  assert (∀ k, event_room e = Some k → 2%nat ∉ members k w) as Hout.
  { intros k [= <-]. vm_compute. intros Hin.
    repeat (apply elem_of_cons in Hin as [Hin|Hin]; [discriminate|]).
    by apply elem_of_nil in Hin. }
  split_and!; [exact Hok | exact Hne | exact Hout |].
  exact (step_sends_only_within_the_room w e 2%nat Hok Hne Hout).
Defined.

Lemma server_room_runs_its_own_messages_witness :
  let evs := two_connections in
  let evs' := busy in
  let st := run (actions_on "r1" evs') (room_r1, heap (serve evs)) in
  let w' := serve (evs ++ evs') in
  rooms (serve evs) !! "r1" = Some room_r1 ∧
  heard (serve evs) evs' ∧
  ∃ r',
    rooms w' !! "r1" = Some r' ∧
    same_view (r', heap w') st ∧
    log_text r' (heap w') = log_text st.1 st.2 ∧
    log_ids r' (heap w') = log_ids st.1 st.2 ∧
    log_ts r' (heap w') = log_ts st.1 st.2 ∧
    length (log_of r' (heap w')) = length (log_of st.1 st.2) ∧
    length (stack_of r' (heap w')) = length (stack_of st.1 st.2).
Proof.
  assert (heard (serve two_connections) busy) as Hheard.
  { unfold busy. by_heard. }
  split; [by_compute|]. split; [exact Hheard|].
  apply (server_room_runs_its_own_messages two_connections busy "r1" room_r1).
  - by_compute.
  - exact Hheard.
Defined.

Lemma log_changes_only_by_its_own_messages_witness :
  let evs := two_messages in
  let evs' := elsewhere in
  let r := room_r1'' in
  let w := serve evs in
  let w' := serve (evs ++ evs') in
  rooms (serve evs) !! "r1" = Some r ∧
  actions_on "r1" evs' = [] ∧
  ∃ r',
    rooms w' !! "r1" = Some r' ∧
    opLog r' = opLog r ∧ undoneStack r' = undoneStack r ∧
    log_of r' (heap w') = log_of r (heap w) ∧
    stack_of r' (heap w') = stack_of r (heap w) ∧
    log_text r' (heap w') = log_text r (heap w) ∧
    log_ids r' (heap w') = log_ids r (heap w) ∧
    log_ts r' (heap w') = log_ts r (heap w).
Proof.
  split; [by_compute|]. split; [by_compute|].
  apply (log_changes_only_by_its_own_messages two_messages elsewhere "r1" room_r1'').
  - by_compute.
  - by_compute.
Defined.

Lemma log_entries_are_finalized_commits_witness :
  let evs := two_connections ++ busy in
  let r := default room_r1 (rooms (serve evs) !! "r1") in
  let h := heap (serve evs) in
  rooms (serve evs) !! "r1" = Some r ∧
  ∃ cl cstk,
    cl ++ cstk `sublist_of` accepted (actions_on "r1" evs) ∧
    Forall2 (committed_as h) (log_of r h) cl ∧
    Forall2 (committed_as h) (reverse (stack_of r h)) cstk ∧
    log_text r h = JArr (map submission_text cl).
Proof.
  split; [by_compute|].
  apply (log_entries_are_finalized_commits (two_connections ++ busy) "r1"
           (default room_r1 (rooms (serve (two_connections ++ busy)) !! "r1"))).
  by_compute.
Defined.

Lemma committed_operations_are_stamped_witness :
  let evs := two_messages in
  let r := room_r1'' in
  let h := heap (serve evs) in
  rooms (serve evs) !! "r1" = Some r ∧
  Forall sound_oracles (actions_on "r1" evs) ∧
  Forall (stamped h) (log_of r h) ∧ Forall (stamped h) (stack_of r h).
Proof.
  assert (Forall sound_oracles (actions_on "r1" two_messages)) as Hall.
  { vm_compute. repeat constructor; discriminate. }
  split; [by_compute|]. split; [exact Hall|].
  apply (committed_operations_are_stamped two_messages "r1" room_r1'').
  - by_compute.
  - exact Hall.
Defined.



Lemma rooms_are_never_removed_witness :
  rooms (serve two_connections) !! "r1" = Some room_r1 ∧
  ∃ r', rooms (serve (two_connections ++ both_leave)) !! "r1" = Some r' ∧
        room_id r' = "r1" ∧ opLog r' = opLog room_r1.
Proof.
  split; [by_compute|].
  apply (rooms_are_never_removed two_connections both_leave "r1" room_r1).
  by_compute.
Defined.
